(** * EduDRISHTI: the feature-aggregation and anomaly-scoring pipeline

    A shallow embedding of [master_data.py] and [anomaly_detection.py].
    Both scripts are straight-line programs over pandas data frames; the
    embedding keeps their statements in order and gives each library call
    (pandas, NumPy, scikit-learn) the meaning its documentation gives it.

    Conventions.
    - A float64 is a rational, an infinity or NaN ([float]); rounding
      error of [+ - * /] is not modelled.  The transcendental primitives
      ([sqrt], [pow], [log]) and the pseudo-random generator are interfaces
      ([Runtime], [RandomState]); results are proved for every instance, and a
      small executable instance is given for running examples.
    - A raised Python exception is the [Raise] branch of [result].
    - A data frame is an ordered list of named columns. *)

From Stdlib Require Import String Ascii Bool ZArith QArith Qround Qabs List Lia Lqa.
From Stdlib Require Import Sorting.Sorted Permutation.
From Stdlib Require OrderedTypeEx.
Import ListNotations.

(* ================================================================== *)
(** ** Rational helpers *)

Definition Qlt_bool (x y : Q) : bool := negb (Qle_bool y x).

Definition Qsum (l : list Q) : Q := fold_right Qplus 0%Q l.

(** Least and greatest element of a list ([0] for the empty list). *)
Definition Qmin_list (l : list Q) : Q :=
  match l with
  | [] => 0
  | x :: l' => fold_right (fun y m => if Qle_bool y m then y else m) x l'
  end.

Definition Qmax_list (l : list Q) : Q :=
  match l with
  | [] => 0
  | x :: l' => fold_right (fun y m => if Qle_bool m y then y else m) x l'
  end.

Definition Qof_nat (n : nat) : Q := inject_Z (Z.of_nat n).

(* ================================================================== *)
(** ** float64 values *)

Inductive float : Type :=
| Finite (q : Q)
| Inf (negative : bool)
| NaN.

Definition isnan (x : float) : bool :=
  match x with NaN => true | _ => false end.

Definition isinf (x : float) : bool :=
  match x with Inf _ => true | _ => false end.

Definition isfinite (x : float) : bool :=
  match x with Finite _ => true | _ => false end.

Definition float_of_Z (z : Z) : float := Finite (inject_Z z).

Definition fopp (x : float) : float :=
  match x with
  | Finite q => Finite (- q)
  | Inf s => Inf (negb s)
  | NaN => NaN
  end.

Definition fadd (x y : float) : float :=
  match x, y with
  | NaN, _ | _, NaN => NaN
  | Finite a, Finite b => Finite (a + b)
  | Inf s, Finite _ | Finite _, Inf s => Inf s
  | Inf s1, Inf s2 => if Bool.eqb s1 s2 then Inf s1 else NaN
  end.

(** The exact difference; float64 rounds it to the nearest double, which
    keeps its sign and is monotone in both arguments. *)
Definition fsub (x y : float) : float := fadd x (fopp y).

(** True division.  [0/0] is NaN and [a/0] is an infinity with the sign
    of [a]: NumPy warns and does not raise. *)
Definition fdiv (x y : float) : float :=
  match x, y with
  | NaN, _ | _, NaN => NaN
  | Finite a, Finite b =>
      if Qeq_bool b 0 then
        if Qeq_bool a 0 then NaN else Inf (Qlt_bool a 0)
      else Finite (a / b)
  | Finite _, Inf _ => Finite 0
  | Inf s, Finite b => Inf (xorb s (Qlt_bool b 0))
  | Inf _, Inf _ => NaN
  end.

(** What the model takes from the platform the scripts run on.
    - [fsqrt], [fpow], [fln]: the floating-point primitives [np.sqrt],
      [**] with a fractional exponent and [np.log], whose results are not
      rational functions of their arguments.
    - [float_repr]: Python's [str] of a float, used to name columns.
    - [iforest_allow_nan]: whether the installed scikit-learn lets
      [IsolationForest] take missing values; releases differ, and the
      scripts pin none. *)
Class Runtime : Type := {
  fsqrt : Q -> Q;
  fpow : Q -> Q -> Q;
  fln : Q -> Q;
  float_repr : float -> string;
  iforest_allow_nan : bool
}.

(** [numpy.random.RandomState]: a generator state, seeding, and the two
    draws the forest makes. *)
Class RandomState : Type := {
  rng : Type;
  rng_seed : Z -> rng;
  rng_randint : Z -> rng -> Z * rng;
  rng_uniform : Q -> Q -> rng -> Q * rng
}.

(* ================================================================== *)
(** ** Exceptions *)

Inductive exn : Type :=
| KeyError (label : string)
| ValueError (msg : string)
| TypeError (msg : string).

Inductive result (A : Type) : Type :=
| Ok (a : A)
| Raise (e : exn).

Arguments Ok {A} a.
Arguments Raise {A} e.

Definition bind {A B} (m : result A) (k : A -> result B) : result B :=
  match m with
  | Ok a => k a
  | Raise e => Raise e
  end.

Declare Scope result_scope.
Delimit Scope result_scope with result.
Notation "x <- m ;; k" := (bind m (fun x => k))
  (at level 61, m at next level, right associativity) : result_scope.
Notation "m ;;; k" := (bind m (fun _ => k))
  (at level 61, right associativity) : result_scope.
Open Scope result_scope.

Fixpoint mapM {A B} (f : A -> result B) (l : list A) : result (list B) :=
  match l with
  | [] => Ok []
  | a :: l' => b <- f a ;; bs <- mapM f l' ;; Ok (b :: bs)
  end.

Definition is_ok {A} (r : result A) : bool :=
  match r with Ok _ => true | Raise _ => false end.

(* ================================================================== *)
(** ** pandas: cells, series and data frames *)

(** A cell of a column: a float64 (integers are floats with an integral
    value, a missing value is NaN), a text value, or a boolean. *)
Inductive cell : Type :=
| Num (x : float)
| Str (s : string)
| Flag (b : bool).

Definition Series : Type := list cell.

(** Columns in order, each with its values; all columns of a frame have
    the same length. *)
Definition DataFrame : Type := list (string * Series).

Definition missing : cell := Num NaN.

Definition columns (df : DataFrame) : list string := map fst df.

Definition nrows (df : DataFrame) : nat :=
  match df with
  | [] => O
  | (_, s) :: _ => length s
  end.

Fixpoint lookup_col (c : string) (df : DataFrame) : option Series :=
  match df with
  | [] => None
  | (c', s) :: df' => if String.eqb c c' then Some s else lookup_col c df'
  end.

Definition has_col (df : DataFrame) (c : string) : bool :=
  match lookup_col c df with Some _ => true | None => false end.

(** [df[c]] *)
Definition get_col (df : DataFrame) (c : string) : result Series :=
  match lookup_col c df with
  | Some s => Ok s
  | None => Raise (KeyError c)
  end.

Fixpoint replace_col (c : string) (s : Series) (df : DataFrame) : DataFrame :=
  match df with
  | [] => []
  | (c', s') :: df' =>
      if String.eqb c c' then (c', s) :: df'
      else (c', s') :: replace_col c s df'
  end.

(** [df[c] = s]: an existing column is overwritten in place, a new one is
    appended; a value of the wrong length is refused. *)
Definition set_col (df : DataFrame) (c : string) (s : Series) : result DataFrame :=
  match df with
  | [] => Ok [(c, s)]
  | _ =>
      if Nat.eqb (length s) (nrows df) then
        Ok (if has_col df c then replace_col c s df else df ++ [(c, s)])
      else Raise (ValueError "Length of values does not match length of index")
  end.

(** [df[[c1; ...; cn]]] *)
Definition select (df : DataFrame) (cs : list string) : result DataFrame :=
  mapM (fun c => s <- get_col df c ;; Ok (c, s)) cs.

Definition mem_string (c : string) (cs : list string) : bool :=
  existsb (String.eqb c) cs.

(** [df.drop(columns=cs)] *)
Definition drop_columns (df : DataFrame) (cs : list string) : result DataFrame :=
  mapM (get_col df) cs ;;;
  Ok (filter (fun p => negb (mem_string (fst p) cs)) df).

(** Every column has as many values as the frame has rows, as in any frame
    read from a file. *)
Definition aligned (df : DataFrame) : bool :=
  forallb (fun p => Nat.eqb (length (snd p)) (nrows df)) df.

(** The value of column [c] in row [i]. *)
Definition at_ (df : DataFrame) (i : nat) (c : string) : option cell :=
  match lookup_col c df with
  | Some s => nth_error s i
  | None => None
  end.

(** The cell of a computed frame, when there is one. *)
Definition cell_of (r : result DataFrame) (i : nat) (c : string) : option cell :=
  match r with
  | Ok df => at_ df i c
  | Raise _ => None
  end.

(** Numeric view of a cell, as [astype(float)] gives it. *)
Definition to_float (e : exn) (c : cell) : result float :=
  match c with
  | Num x => Ok x
  | Flag b => Ok (Finite (if b then 1 else 0))
  | Str _ => Raise e
  end.

Definition not_numeric : exn := TypeError "unsupported operand type(s)".

Fixpoint map2M {A B C} (f : A -> B -> result C) (l1 : list A) (l2 : list B)
  : result (list C) :=
  match l1, l2 with
  | a :: l1', b :: l2' => c <- f a b ;; cs <- map2M f l1' l2' ;; Ok (c :: cs)
  | _, _ => Ok []
  end.

Definition cell_binop (op : float -> float -> float) (a b : cell) : result cell :=
  x <- to_float not_numeric a ;; y <- to_float not_numeric b ;; Ok (Num (op x y)).

(** Element-wise [s1 / s2], [s1 - s2], [s1 + s2] of two columns of one frame. *)
Definition series_div : Series -> Series -> result Series := map2M (cell_binop fdiv).
Definition series_sub : Series -> Series -> result Series := map2M (cell_binop fsub).
Definition series_add : Series -> Series -> result Series := map2M (cell_binop fadd).

(** *** Keys: equality and order of cells *)

Definition float_eqb (x y : float) : bool :=
  match x, y with
  | Finite a, Finite b => Qeq_bool a b
  | Inf s1, Inf s2 => Bool.eqb s1 s2
  | _, _ => false
  end.

Definition cell_eqb (a b : cell) : bool :=
  match a, b with
  | Num x, Num y => float_eqb x y
  | Str s, Str t => String.eqb s t
  | Flag p, Flag q => Bool.eqb p q
  | _, _ => false
  end.

Definition isna (c : cell) : bool :=
  match c with Num NaN => true | _ => false end.

Definition float_leb (x y : float) : bool :=
  match x, y with
  | NaN, _ | _, NaN => false
  | Inf true, _ => true
  | _, Inf false => true
  | Finite a, Finite b => Qle_bool a b
  | _, _ => false
  end.

(** Order used to sort group keys and categories.  Keys of one column have
    one type; between types the order below is a convention of the model. *)
Definition cell_leb (a b : cell) : bool :=
  match a, b with
  | Num x, Num y => float_leb x y
  | Str s, Str t => String.leb s t
  | Flag p, Flag q => implb p q
  | Num _, _ => true
  | Flag _, Str _ => true
  | _, _ => false
  end.

Section Sorting.
Context {A : Type}.
Variable leb : A -> A -> bool.
Variable eqb : A -> A -> bool.

Fixpoint insert_sorted (x : A) (l : list A) : list A :=
  match l with
  | [] => [x]
  | y :: l' => if leb x y then x :: l else y :: insert_sorted x l'
  end.

Definition sort (l : list A) : list A := fold_right insert_sorted [] l.

(** Distinct values, first occurrence kept. *)
Fixpoint unique (l : list A) : list A :=
  match l with
  | [] => []
  | x :: l' => x :: filter (fun y => negb (eqb x y)) (unique l')
  end.
End Sorting.

(* ================================================================== *)
(** ** pandas.core.nanops: sample moments of one group *)

Section Nanops.
Context {rt : Runtime}.

(** [skipna=True]: missing marks are left out before anything is counted. *)
Definition dropna (xs : list float) : list float :=
  filter (fun x => negb (isnan x)) xs.

Fixpoint finite_values (xs : list float) : option (list Q) :=
  match xs with
  | [] => Some []
  | Finite q :: r => option_map (cons q) (finite_values r)
  | _ :: _ => None
  end.

Definition Qmean (qs : list Q) : Q := Qsum qs / Qof_nat (length qs).

(** Sums of powers of the deviations from the mean. *)
Definition dev_sum2 (qs : list Q) : Q :=
  let m := Qmean qs in Qsum (map (fun x => (x - m) * (x - m)) qs).
Definition dev_sum3 (qs : list Q) : Q :=
  let m := Qmean qs in Qsum (map (fun x => (x - m) * (x - m) * (x - m)) qs).
Definition dev_sum4 (qs : list Q) : Q :=
  let m := Qmean qs in
  Qsum (map (fun x => ((x - m) * (x - m)) * ((x - m) * (x - m))) qs).

Definition fperr_eps : Q := 1 # 100000000000000.

(** [_zero_out_fperr]: values below 1e-14 in magnitude count as zero. *)
Definition zero_out_fperr (x : Q) : Q :=
  if Qlt_bool (Qabs x) fperr_eps then 0 else x.

(** [std] with [ddof=1].  An infinite observation makes every deviation
    NaN, hence the result NaN. *)
Definition nanstd (xs : list float) : float :=
  let v := dropna xs in
  let count := length v in
  if Nat.leb count 1 then NaN
  else match finite_values v with
       | None => NaN
       | Some qs => Finite (fsqrt (dev_sum2 qs / (Qof_nat count - 1)))
       end.

(** [Series.skew]: [nanskew]. *)
Definition nanskew (xs : list float) : float :=
  let v := dropna xs in
  let count := length v in
  if Nat.ltb count 3 then NaN
  else match finite_values v with
       | None => NaN
       | Some qs =>
           let n := Qof_nat count in
           let m2 := zero_out_fperr (dev_sum2 qs) in
           let m3 := zero_out_fperr (dev_sum3 qs) in
           if Qeq_bool m2 0 then Finite 0
           else Finite ((n * fpow (n - 1) (1 # 2) / (n - 2))
                        * (m3 / fpow m2 (3 # 2)))
       end.

(** [Series.kurt]: [nankurt]. *)
Definition nankurt (xs : list float) : float :=
  let v := dropna xs in
  let count := length v in
  if Nat.ltb count 4 then NaN
  else match finite_values v with
       | None => NaN
       | Some qs =>
           let n := Qof_nat count in
           let m2 := dev_sum2 qs in
           let m4 := dev_sum4 qs in
           let adj := 3 * ((n - 1) * (n - 1)) / ((n - 2) * (n - 3)) in
           let numerator := zero_out_fperr (n * (n + 1) * (n - 1) * m4) in
           let denominator := zero_out_fperr ((n - 2) * (n - 3) * (m2 * m2)) in
           if Qeq_bool denominator 0 then Finite 0
           else Finite (numerator / denominator - adj)
       end.

End Nanops.

(** *** Rounding *)

(** [np.rint]: nearest integer, halves to the even neighbour. *)
Definition rint (y : Q) : Z :=
  let f := Qfloor y in
  let d := (y - inject_Z f)%Q in
  if Qlt_bool d (1 # 2) then f
  else if Qlt_bool (1 # 2) d then (f + 1)%Z
  else if Z.even f then f else (f + 1)%Z.

(** [round(decimals)] on a float: scale, [rint], unscale.  The product and
    the quotient are exact here where float64 rounds both, so next to a
    tie the result can differ from NumPy's by one unit of the last
    decimal kept. *)
Definition round_float (decimals : nat) (x : float) : float :=
  match x with
  | Finite q =>
      let scale := inject_Z (10 ^ Z.of_nat decimals) in
      Finite (inject_Z (rint (q * scale)) / scale)
  | _ => x
  end.

Definition round_cell (decimals : nat) (c : cell) : cell :=
  match c with
  | Num x => Num (round_float decimals x)
  | _ => c
  end.

(** [df[cs] = df[cs].round(decimals)] *)
Fixpoint round_columns (decimals : nat) (cs : list string) (df : DataFrame)
  : result DataFrame :=
  match cs with
  | [] => Ok df
  | c :: cs' =>
      s <- get_col df c ;;
      df' <- set_col df c (map (round_cell decimals) s) ;;
      round_columns decimals cs' df'
  end.

(* ================================================================== *)
(** ** pandas: group-by aggregation and merge *)

(** Group keys: the distinct non-missing keys, sorted. *)
Definition group_keys (keys : Series) : list cell :=
  sort cell_leb (unique cell_eqb (filter (fun k => negb (isna k)) keys)).

(** The values of the rows whose key is [k]. *)
Definition group_of {A} (k : cell) (keys : Series) (vals : list A) : list A :=
  map snd (filter (fun p => cell_eqb k (fst p)) (combine keys vals)).

Definition NamedAgg : Type := (string * (list float -> float))%type.

(** [df.groupby(by)[val].agg(name1=f1, ...).reset_index()] *)
Definition groupby_agg (df : DataFrame) (by_ val : string) (aggs : list NamedAgg)
  : result DataFrame :=
  keys <- get_col df by_ ;;
  cells <- get_col df val ;;
  vals <- mapM (to_float not_numeric) cells ;;
  let ks := group_keys keys in
  Ok ((by_, ks)
      :: map (fun a => (fst a, map (fun k => Num (snd a (group_of k keys vals))) ks))
             aggs).

(** In a merge two missing keys match each other. *)
Definition merge_key_eqb (a b : cell) : bool :=
  (isna a && isna b) || cell_eqb a b.

Fixpoint find_all {A} (p : A -> bool) (l : list A) (j : nat) : list nat :=
  match l with
  | [] => []
  | x :: l' => if p x then j :: find_all p l' (S j) else find_all p l' (S j)
  end.

Definition indexed {A} (l : list A) : list (nat * A) := combine (seq 0 (length l)) l.

(** One output row per pair (left row, matching right row); a left row
    without a match is kept once, with no right row. *)
Definition join_plan (lkeys rkeys : Series) : list (nat * option nat) :=
  flat_map
    (fun ik =>
       match find_all (merge_key_eqb (snd ik)) rkeys 0 with
       | [] => [(fst ik, None)]
       | js => map (fun j => (fst ik, Some j)) js
       end)
    (indexed lkeys).

Definition take_left (plan : list (nat * option nat)) (s : Series) : Series :=
  map (fun p => nth (fst p) s missing) plan.

Definition take_right (plan : list (nat * option nat)) (s : Series) : Series :=
  map (fun p => match snd p with Some j => nth j s missing | None => missing end) plan.

(** [left.merge(right, on=key, how='left')].  A non-key column name present
    on both sides gets the suffixes [_x] and [_y].  Both key columns hold
    keys of one kind (numbers or text). *)
Definition merge_left (left right : DataFrame) (on : string) : result DataFrame :=
  lk <- get_col left on ;;
  rk <- get_col right on ;;
  let plan := join_plan lk rk in
  let overlap c := has_col left c && has_col right c && negb (String.eqb c on) in
  Ok (map (fun p => ((if overlap (fst p) then fst p ++ "_x" else fst p)%string,
                     take_left plan (snd p))) left
      ++ map (fun p => ((if overlap (fst p) then fst p ++ "_y" else fst p)%string,
                        take_right plan (snd p)))
             (filter (fun p => negb (String.eqb (fst p) on)) right)).

(** [df.sample(k)] draws without replacement and refuses a frame with
    fewer than [k] rows; the rows drawn are only printed. *)
Definition sample_check (k : nat) (df : DataFrame) : result unit :=
  if Nat.ltb (nrows df) k
  then Raise (ValueError "Cannot take a larger sample than population when 'replace=False'")
  else Ok tt.

(* ================================================================== *)
(** ** pandas: stacking frames *)

(** The column [c] of a frame that is being stacked: its values, or as
    many missing values as the frame has rows. *)
Definition column_or_missing (c : string) (df : DataFrame) : Series :=
  match lookup_col c df with
  | Some s => s
  | None => repeat missing (nrows df)
  end.

(** [pd.concat(frames, ignore_index=True)]: the rows of the frames one
    after the other.  The columns are those of all frames, in the order of
    their first appearance; a frame that lacks one of them has missing
    values there.  An empty list of frames is refused. *)
Definition concat (frames : list DataFrame) : result DataFrame :=
  match frames with
  | [] => Raise (ValueError "No objects to concatenate")
  | _ =>
      Ok (map (fun c => (c, flat_map (column_or_missing c) frames))
              (unique String.eqb (flat_map columns frames)))
  end.

(* ================================================================== *)
(** ** pandas: selecting and ordering rows *)

Definition is_text (c : cell) : bool :=
  match c with Str _ => true | _ => false end.

(** The number a numeric or boolean cell stands for. *)
Definition as_number (c : cell) : float :=
  match c with
  | Num x => x
  | Flag b => Finite (if b then 1 else 0)
  | Str _ => NaN
  end.

(** [a == b] on two values: a text equals only the same text, numbers and
    booleans compare by value, NaN equals nothing. *)
Definition value_eqb (a b : cell) : bool :=
  match a, b with
  | Str s, Str t => String.eqb s t
  | Str _, _ | _, Str _ => false
  | _, _ => float_eqb (as_number a) (as_number b)
  end.

(** [s == v], element by element. *)
Definition series_eq (s : Series) (v : cell) : list bool :=
  map (fun c => value_eqb c v) s.

Definition keep_where {A} (mask : list bool) (l : list A) : list A :=
  map snd (filter fst (combine mask l)).

(** [df[mask]]: the rows whose mask is true, in their order. *)
Definition filter_rows (mask : list bool) (df : DataFrame) : DataFrame :=
  map (fun p => (fst p, keep_where mask (snd p))) df.

(** The positions at which a mask is true. *)
Definition kept (mask : list bool) : list nat :=
  filter (fun i => nth i mask false) (seq 0 (length mask)).

Definition take (idx : list nat) (s : Series) : Series :=
  map (fun i => nth i s missing) idx.

(** The rows at the positions [idx], in that order. *)
Definition take_rows (idx : list nat) (df : DataFrame) : DataFrame :=
  map (fun p => (fst p, take idx (snd p))) df.

(** [df.head(n)] *)
Definition head (n : nat) (df : DataFrame) : DataFrame :=
  map (fun p => (fst p, firstn n (snd p))) df.

(** [df.round(decimals)]: the numeric cells rounded, the others kept. *)
Definition round_frame (decimals : nat) (df : DataFrame) : DataFrame :=
  map (fun p => (fst p, map (round_cell decimals) (snd p))) df.

(** [a <= b] on two present values of one kind: texts in the order of
    their characters, numbers and booleans by value.  A text and a number
    do not compare. *)
Definition key_leb (a b : cell) : bool :=
  match a, b with
  | Str s, Str t => String.leb s t
  | Str _, _ | _, Str _ => false
  | _, _ => float_leb (as_number a) (as_number b)
  end.

(** Keys that a sort can order: none is missing, and they are all texts
    or all numbers. *)
Definition comparable (keys : list cell) : bool :=
  forallb (fun k => negb (isna k)) keys
  && (forallb is_text keys || forallb (fun k => negb (is_text k)) keys).

(** What the model takes from the sorting routines of the platform.
    - [argsort]: NumPy's [argsort(kind='quicksort')], the default of
      [sort_values].  It is not a stable sort: it returns the positions of
      the keys in non-decreasing order of the keys, and the order it
      gives to equal keys is its own.
    - [sorted_with_nan]: Python's [sorted] on numbers one of which is NaN.
      Every comparison with NaN is false, so the outcome is some
      rearrangement that depends on the algorithm. *)
Class SortOrder : Type := {
  argsort : list cell -> list nat;
  argsort_perm : forall keys, Permutation (argsort keys) (seq 0 (length keys));
  argsort_sorted : forall keys, comparable keys = true ->
    StronglySorted
      (fun i j => key_leb (nth i keys missing) (nth j keys missing) = true)
      (argsort keys);
  sorted_with_nan : list cell -> list cell;
  sorted_with_nan_perm : forall l, Permutation (sorted_with_nan l) l
}.

Definition text_and_number : exn :=
  TypeError "'<' not supported between instances of 'str' and 'float'".

(** Values among which a text stands beside a number. *)
Definition mixed (l : list cell) : bool :=
  existsb is_text l && existsb (fun k => negb (is_text k)) l.

(** The present keys of a column can be sorted. *)
Definition no_mixed_keys (keys : Series) : bool :=
  negb (mixed (filter (fun k => negb (isna k)) keys)).

(** Row [i] may stand before row [j] in a frame sorted by [keys]: a
    missing key comes last, and the present keys are in order. *)
Definition in_order (keys : Series) (ascending : bool) (i j : nat) : Prop :=
  let a := nth i keys missing in
  let b := nth j keys missing in
  isna b = true \/
  (isna a = false /\ isna b = false /\
   (if ascending then key_leb a b else key_leb b a) = true).

(** Two values are the same value of a column; the missing value is one
    value. *)
Definition same_value (a b : cell) : bool :=
  (isna a && isna b) || value_eqb a b.

(** Two frames agree on every column but [c0]. *)
Definition agree_off (c0 : string) (dfa dfb : DataFrame) : Prop :=
  forall c, c <> c0 -> lookup_col c dfa = lookup_col c dfb.

Section Ordering.
Context {so : SortOrder}.

(** [nargsort(keys, kind='quicksort', ascending, na_position='last')]:
    the missing keys are set apart and come last, in their order; for a
    descending sort the present keys are reversed, sorted, and the result
    reversed. *)
Definition nargsort (keys : Series) (ascending : bool) : list nat :=
  let idx := seq 0 (length keys) in
  let non_nan_idx := filter (fun i => negb (isna (nth i keys missing))) idx in
  let nan_idx := filter (fun i => isna (nth i keys missing)) idx in
  let non_nans := take non_nan_idx keys in
  let indexer :=
    if ascending then map (fun j => nth j non_nan_idx O) (argsort non_nans)
    else rev (map (fun j => nth j (rev non_nan_idx) O) (argsort (rev non_nans))) in
  indexer ++ nan_idx.

(** [df.sort_values(by=c, ascending=...)].  Sorting a column that holds
    both texts and numbers fails on their comparison. *)
Definition sort_values (df : DataFrame) (by_ : string) (ascending : bool)
  : result DataFrame :=
  keys <- get_col df by_ ;;
  if no_mixed_keys keys then Ok (take_rows (nargsort keys ascending) df)
  else Raise text_and_number.

(** [Series.unique()]: the distinct values in the order of their first
    appearance; the missing value counts as one value. *)
Definition series_unique (s : Series) : list cell := unique same_value s.

(** Python's [sorted] on the values of a column. *)
Definition sorted_values (l : list cell) : result (list cell) :=
  if mixed l then Raise text_and_number
  else if existsb isna l then Ok (sorted_with_nan l)
  else Ok (sort key_leb l).

End Ordering.

(* ================================================================== *)
(** ** master_data.py *)

Module master_data.
Section Script.
Context {rt : Runtime}.

Definition moment_columns : list string :=
  ["Center_Std_Dev"; "Center_Skewness"; "Center_Kurtosis"]%string.

(** PART 2: the per-center moments, before rounding. *)
Definition aggregate (df_marks : DataFrame) : result DataFrame :=
  groupby_agg df_marks "center_id" "marks"
    [("Center_Std_Dev", nanstd);
     ("Center_Skewness", nanskew);
     ("Center_Kurtosis", nankurt)]%string.

(** PART 2, continued: the moments are rounded in the aggregated frame
    itself, which is the only copy kept. *)
Definition rounded_moments (df_marks : DataFrame) : result DataFrame :=
  df_marks_agg <- aggregate df_marks ;;
  round_columns 3 moment_columns df_marks_agg.

Definition metric_columns : list string :=
  ["Ultra_High_Score_Ratio"; "High_Score_Ratio";
   "Center_v_National_Gap"; "Center_v_State_Gap"]%string.

(** PART 3, step 2: the four derived metrics. *)
Definition add_metrics (df_center_stats : DataFrame) : result DataFrame :=
  a700 <- get_col df_center_stats "above_700_marks" ;;
  tot <- get_col df_center_stats "total_students" ;;
  v <- series_div a700 tot ;;
  df <- set_col df_center_stats "Ultra_High_Score_Ratio" v ;;
  a600 <- get_col df "above_600_marks" ;;
  a700 <- get_col df "above_700_marks" ;;
  s <- series_add a600 a700 ;;
  tot <- get_col df "total_students" ;;
  v <- series_div s tot ;;
  df <- set_col df "High_Score_Ratio" v ;;
  ca <- get_col df "center_average_marks" ;;
  na <- get_col df "national_average_marks" ;;
  v <- series_sub ca na ;;
  df <- set_col df "Center_v_National_Gap" v ;;
  ca <- get_col df "center_average_marks" ;;
  sa <- get_col df "state_average_marks" ;;
  v <- series_sub ca sa ;;
  set_col df "Center_v_State_Gap" v.

(** The whole script: from the stacked marks sheets and the center-stats
    sheet to the frame written to [NEET_Master_Analysis_Data.csv]. *)
Definition run (df_marks df_center_stats : DataFrame) : result DataFrame :=
  df_marks <- drop_columns df_marks ["sno"%string] ;;
  df_marks_agg <- rounded_moments df_marks ;;
  df_center_stats <- add_metrics df_center_stats ;;
  df_master <- merge_left df_center_stats df_marks_agg "center_id" ;;
  shown <- select df_master ["center_name"; "Center_Skewness"; "Center_Kurtosis"]%string ;;
  sample_check 3 shown ;;;
  Ok df_master.

(** PART 1 to PART 3: from the sheets of the marks workbook, in the order
    of the workbook, and the center-stats sheet.  The handler of PART 1
    catches [FileNotFoundError] only; what [concat] and [drop] raise is
    not caught. *)
Definition main (sheets : list DataFrame) (df_center_stats : DataFrame)
  : result DataFrame :=
  df_marks <- concat sheets ;;
  run df_marks df_center_stats.

End Script.
End master_data.

(* ================================================================== *)
(** ** pandas.get_dummies *)

Section GetDummies.
Context {rt : Runtime}.

(** [str] of a category value. *)
Definition category_label (c : cell) : string :=
  match c with
  | Str s => s
  | Num x => float_repr x
  | Flag true => "True"
  | Flag false => "False"
  end.

(** The categories of a column: its distinct non-missing values, sorted. *)
Definition categories (s : Series) : list cell :=
  sort cell_leb (unique cell_eqb (filter (fun k => negb (isna k)) s)).

(** The levels that get an indicator column: with [drop_first] the first
    one is left out. *)
Definition dummy_levels (drop_first : bool) (s : Series) : list cell :=
  if drop_first then tl (categories s) else categories s.

Definition indicator (level : cell) (s : Series) : Series :=
  map (fun v => Flag (cell_eqb level v)) s.

Definition dummy_columns (prefix : string) (drop_first : bool) (s : Series)
  : DataFrame :=
  map (fun level => ((prefix ++ "_" ++ category_label level)%string, indicator level s))
      (dummy_levels drop_first s).

(** [pd.get_dummies(df, columns=[c], drop_first=...)]: the other columns
    in their order, then the indicator columns of [c]. *)
Definition get_dummies (df : DataFrame) (c : string) (drop_first : bool)
  : result DataFrame :=
  s <- get_col df c ;;
  Ok (filter (fun p => negb (String.eqb (fst p) c)) df
      ++ dummy_columns c drop_first s).

End GetDummies.

(** A text column: every cell is a string or missing. *)
Definition text_or_missing (c : cell) : bool :=
  match c with
  | Str _ | Num NaN => true
  | _ => false
  end.

(** Strictly before, in the order of [sorted] on strings. *)
Definition string_lt (a b : string) : Prop := String.ltb a b = true.

(** The strings of a column, in order. *)
Definition strings_of (s : Series) : list string :=
  flat_map (fun c => match c with Str v => [v] | _ => [] end) s.

(* ================================================================== *)
(** ** numpy.percentile *)

(** [np.percentile(a, 100 * p)] with the default linear interpolation:
    the value at the virtual index [p * (n - 1)] of the sorted data. *)
Definition percentile (a : list Q) (p : Q) : Q :=
  let sorted := sort Qle_bool a in
  let n := length sorted in
  let virtual_index := (p * (Qof_nat n - 1))%Q in
  let lo := Qfloor virtual_index in
  let gamma := (virtual_index - inject_Z lo)%Q in
  let lo_i := Z.to_nat lo in
  let hi_i := Nat.min (S lo_i) (n - 1) in
  let x_lo := nth lo_i sorted 0%Q in
  let x_hi := nth hi_i sorted 0%Q in
  (x_lo + (x_hi - x_lo) * gamma)%Q.

(** How many values lie strictly below a threshold. *)
Definition count_lt (l : list Q) (t : Q) : nat :=
  length (filter (fun x => Qlt_bool x t) l).


(* ================================================================== *)
(** ** sklearn.preprocessing.StandardScaler *)

Section StandardScaler.
Context {rt : Runtime}.

Definition infinity_error : exn :=
  ValueError "Input X contains infinity or a value too large for dtype('float64').".
Definition nan_error : exn := ValueError "Input X contains NaN.".
Definition string_error : exn := ValueError "could not convert string to float".
Definition empty_error : exn :=
  ValueError "Found array with 0 sample(s) while a minimum of 1 is required.".

(** The present (non-NaN) values of a validated column. *)
Fixpoint present (xs : list float) : list Q :=
  match xs with
  | [] => []
  | Finite q :: r => q :: present r
  | _ :: r => present r
  end.

(** [mean_], [var_] and [scale_] of one column; NaNs are disregarded.
    A column of zero variance is scaled by 1. *)
Definition column_mean (xs : list float) : Q := Qmean (present xs).
Definition column_var (xs : list float) : Q :=
  dev_sum2 (present xs) / Qof_nat (length (present xs)).
Definition column_scale (xs : list float) : Q :=
  let v := column_var xs in
  if Qeq_bool v 0 then 1 else fsqrt v.

Definition scale_value (mean scale : Q) (x : float) : float :=
  match x with
  | Finite q => fdiv (Finite (q - mean)) (Finite scale)
  | _ => x
  end.

(** [fit_transform] on one column: NaNs stay NaN. *)
Definition scale_column (xs : list float) : list float :=
  match present xs with
  | [] => map (fun _ => NaN) xs
  | _ => map (scale_value (column_mean xs) (column_scale xs)) xs
  end.

(** Input validation ([ensure_all_finite='allow-nan']). *)
Definition check_column (s : Series) : result (list float) :=
  xs <- mapM (to_float string_error) s ;;
  if existsb isinf xs then Raise infinity_error else Ok xs.

(** [StandardScaler().fit_transform(df)]: the scaled columns, in the
    order of the frame. *)
Definition fit_transform (df : DataFrame) : result (list (list float)) :=
  cols <- mapM (fun p => check_column (snd p)) df ;;
  if Nat.eqb (nrows df) 0 then Raise empty_error
  else Ok (map scale_column cols).

End StandardScaler.

(** Rows of a matrix given by its columns, all of length [n]. *)
Definition rows_of (n : nat) (cols : list (list float)) : list (list float) :=
  map (fun i => map (fun col => nth i col NaN) cols) (seq 0 n).

(* ================================================================== *)
(** ** sklearn.ensemble.IsolationForest *)

(** A fitted randomized tree.  A leaf keeps the number of training rows
    that reached it; an inner node keeps the feature, the threshold and the
    side that rows with a missing value of that feature take. *)
Inductive tree : Type :=
| Leaf (n_node_samples : nat)
| Node (feature : nat) (threshold : Q) (missing_go_to_left : bool)
       (left right : tree).

Section IsolationForest.
Context {rt : Runtime} {rs : RandomState}.

Definition sample : Type := list float.

Definition feature_value (x : sample) (f : nat) : float := nth f x NaN.

(** Rows whose value is at most the threshold go left; a missing value
    follows the node's flag. *)
Definition goes_left (f : nat) (threshold : Q) (missing_left : bool) (x : sample)
  : bool :=
  match feature_value x f with
  | Finite v => Qle_bool v threshold
  | Inf negative => negative
  | NaN => missing_left
  end.

Definition feature_column (rows : list sample) (f : nat) : list float :=
  map (fun x => feature_value x f) rows.

(** A feature can split a node when its present values are not all equal. *)
Definition splittable (rows : list sample) (f : nat) : bool :=
  let vs := present (feature_column rows f) in
  Qlt_bool (Qmin_list vs) (Qmax_list vs).

Definition has_missing (rows : list sample) (f : nat) : bool :=
  existsb isnan (feature_column rows f).

(** The random splitter with [max_features=1]: one feature drawn among
    those that can split, a threshold drawn between its minimum and its
    maximum (the maximum itself is replaced by the minimum), recursion on
    both sides until the depth limit, a single row, or no feature left.
    Where missing values are accepted, all rows with a missing value of the
    chosen feature go to one side, drawn at random.  The generator is
    threaded through the node, its left subtree, then its right subtree. *)
Fixpoint build_tree (depth : nat) (n_features : nat) (rows : list sample) (st : rng)
  : tree * rng :=
  match depth with
  | O => (Leaf (length rows), st)
  | S depth' =>
      if Nat.ltb (length rows) 2 then (Leaf (length rows), st)
      else
        match filter (splittable rows) (seq 0 n_features) with
        | [] => (Leaf (length rows), st)
        | f0 :: _ as candidates =>
            let (i, st1) := rng_randint (Z.of_nat (length candidates)) st in
            let f := nth (Z.to_nat (i mod Z.of_nat (length candidates))) candidates f0 in
            let vs := present (feature_column rows f) in
            let lo := Qmin_list vs in
            let hi := Qmax_list vs in
            let (u, st2) := rng_uniform lo hi st1 in
            let threshold := if Qeq_bool u hi then lo else u in
            let (m, st3) :=
              if has_missing rows f
              then let (b, st') := rng_randint 2 st2 in (Z.eqb (b mod 2) 1, st')
              else (false, st2) in
            let (l, st4) :=
              build_tree depth' n_features
                (filter (goes_left f threshold m) rows) st3 in
            let (r, st5) :=
              build_tree depth' n_features
                (filter (fun x => negb (goes_left f threshold m x)) rows) st4 in
            (Node f threshold m l r, st5)
        end
  end.

(** [sample_without_replacement(n, k)]: [k] distinct positions of the pool. *)
Fixpoint sample_without_replacement (k : nat) (pool : list nat) (st : rng)
  : list nat * rng :=
  match k, pool with
  | S k', p0 :: _ =>
      let (j, st1) := rng_randint (Z.of_nat (length pool)) st in
      let pos := Z.to_nat (j mod Z.of_nat (length pool)) in
      let (rest, st2) :=
        sample_without_replacement k' (firstn pos pool ++ skipn (S pos) pool) st1 in
      (nth pos pool p0 :: rest, st2)
  | _, _ => ([], st)
  end.

Definition euler_gamma : Q := 5772156649015329 # 10000000000000000.

(** [_average_path_length]: the expected depth of an unsuccessful search
    in a binary search tree of [n] keys. *)
Definition average_path_length (n : nat) : Q :=
  match n with
  | O | S O => 0
  | S (S O) => 1
  | _ =>
      let q := Qof_nat n in
      2 * (fln (q - 1) + euler_gamma) - 2 * (q - 1) / q
  end.

(** Edges from the root to the leaf of [x], plus the adjustment for the
    rows left in that leaf. *)
Fixpoint path_length (t : tree) (x : sample) : Q :=
  match t with
  | Leaf n => average_path_length n
  | Node f threshold m l r =>
      1 + (if goes_left f threshold m x then path_length l x else path_length r x)
  end.

Record forest : Type := {
  estimators_ : list tree;
  max_samples_ : nat;
  offset_ : Q
}.

Definition MAX_INT : Z := 2147483647.

(** Seeds of the member trees, drawn from the forest's generator. *)
Fixpoint draw_seeds (k : nat) (st : rng) : list Z * rng :=
  match k with
  | O => ([], st)
  | S k' =>
      let (s, st1) := rng_randint MAX_INT st in
      let (rest, st2) := draw_seeds k' st1 in
      (s :: rest, st2)
  end.

(** One member: its own generator, its subsample, its tree. *)
Definition fit_tree (X : list sample) (max_samples max_depth n_features : nat)
    (seed : Z) : tree :=
  let st := rng_seed seed in
  let (idx, st1) := sample_without_replacement max_samples (seq 0 (length X)) st in
  fst (build_tree max_depth n_features (map (fun i => nth i X []) idx) st1).

(** [check_random_state]: an integer seeds a fresh generator, [None] uses
    the process-wide NumPy generator. *)
Definition check_random_state (random_state : option Z) (global : rng) : rng :=
  match random_state with
  | Some seed => rng_seed seed
  | None => global
  end.

Definition fit_trees (n_estimators : nat) (random_state : option Z) (global : rng)
    (X : list sample) : list tree :=
  let n := length X in
  let n_features := match X with [] => O | x :: _ => length x end in
  let max_samples := Nat.min 256 n in
  let max_depth := Z.to_nat (Z.log2_up (Z.of_nat (Nat.max max_samples 2))) in
  let seeds := fst (draw_seeds n_estimators (check_random_state random_state global)) in
  map (fit_tree X max_samples max_depth n_features) seeds.

(** The score of the original method, [2 ** (-E[h(x)] / c(max_samples))];
    with a zero denominator the exponent is [-1]. *)
Definition raw_score (trees : list tree) (max_samples : nat) (x : sample) : Q :=
  let depths := Qsum (map (fun t => path_length t x) trees) in
  let denominator := Qof_nat (length trees) * average_path_length max_samples in
  fpow 2 (- (if Qeq_bool denominator 0 then 1 else depths / denominator)).

(** [score_samples]: the opposite of the raw score, so that a lower value
    is more abnormal. *)
Definition score_of (trees : list tree) (max_samples : nat) (x : sample) : Q :=
  - raw_score trees max_samples x.

(** Validation in [fit]: infinities are refused; missing values are
    refused unless the installed release supports them. *)
Definition validate (X : list sample) : result unit :=
  if existsb (existsb isinf) X then Raise infinity_error
  else if existsb (existsb isnan) X && negb iforest_allow_nan then Raise nan_error
  else Ok tt.

(** [IsolationForest(n_estimators, contamination, random_state).fit(X)] *)
Definition fit (n_estimators : nat) (contamination : Q) (random_state : option Z)
    (global : rng) (X : list sample) : result forest :=
  validate X ;;;
  match X with
  | [] => Raise empty_error
  | _ =>
      let trees := fit_trees n_estimators random_state global X in
      let max_samples := Nat.min 256 (length X) in
      Ok {| estimators_ := trees;
            max_samples_ := max_samples;
            offset_ := percentile (map (score_of trees max_samples) X) contamination |}
  end.

Definition score_samples (model : forest) (X : list sample) : list Q :=
  map (score_of (estimators_ model) (max_samples_ model)) X.

(** [decision_function]: [score_samples(X) - offset_]. *)
Definition decision_function (model : forest) (X : list sample) : list Q :=
  map (fun s => s - offset_ model) (score_samples model X).

(** [predict]: [-1] where the decision function is negative, else [1]. *)
Definition predict (model : forest) (X : list sample) : list Z :=
  map (fun d => if Qlt_bool d 0 then (-1)%Z else 1%Z) (decision_function model X).

End IsolationForest.

(** How many flags are [-1]. *)
Definition n_flagged (flags : list Z) : nat := count_occ Z.eq_dec flags (-1)%Z.

(* ================================================================== *)
(** ** anomaly_detection.py *)

Module anomaly_detection.
Section Script.
Context {rt : Runtime} {rs : RandomState}.

Definition features : list string :=
  ["Center_v_National_Gap"; "Center_Skewness"; "Center_Kurtosis";
   "Ultra_High_Score_Ratio"; "total_students"]%string.

Definition n_estimators : nat := 100.
Definition contamination : Q := 15 # 1000.
Definition random_state : option Z := Some 42%Z.

(** The columns the script assigns. *)
Definition result_columns : list string :=
  ["Anomaly_Flag"; "Anomaly_Score"; "Anomaly_Type"]%string.

Definition report_columns : list string :=
  ["state"; "city"; "center_name"; "Center_v_National_Gap";
   "Ultra_High_Score_Ratio"; "Center_Skewness"; "Anomaly_Score"]%string.

(** The numeric features that are scaled, with their position in a row of
    the feature matrix ([total_students] is dropped before scaling). *)
Definition feature_positions : list (string * nat) :=
  [("Center_v_National_Gap", 0); ("Center_Skewness", 1);
   ("Center_Kurtosis", 2); ("Ultra_High_Score_Ratio", 3)]%string%nat.

(** Section 2: what the scoring stage reads of the master table. *)
Definition scoring_input (df_results : DataFrame) : result DataFrame :=
  select df_results (features ++ ["state"%string]).

(** Section 2: the encoded frame. *)
Definition encode (df_results : DataFrame) : result DataFrame :=
  sel <- scoring_input df_results ;;
  get_dummies sel "state" true.

(** Sections 2 and 3: the standardized feature matrix, by rows. *)
Definition scaled_matrix (df_results : DataFrame) : result (list sample) :=
  df_ml <- encode df_results ;;
  X_frame <- drop_columns df_ml ["total_students"%string] ;;
  X_cols <- fit_transform X_frame ;;
  Ok (rows_of (nrows X_frame) X_cols).

Definition anomaly_type (flag : Z) : string :=
  if Z.eqb flag (-1) then "Anomalous Center" else "Normal Center".

Record outcome : Type := {
  model : forest;
  flags : list Z;
  scores : list Q;
  saved : DataFrame
}.

(** The whole script.  [df_results] is the master frame as read back from
    [NEET_Master_Analysis_Data.csv] (writing and reading back keep the
    columns and their values), [global] the state of the process-wide
    generator when the script starts; the result is the frame written to
    [NEET_Master_ML_Data.csv], with the fitted model kept for inspection. *)
Definition run (global : rng) (df_results : DataFrame) : result outcome :=
  X_scaled <- scaled_matrix df_results ;;
  m <- fit n_estimators contamination random_state global X_scaled ;;
  let fl := predict m X_scaled in
  df <- set_col df_results "Anomaly_Flag"
          (map (fun z => Num (float_of_Z z)) fl) ;;
  let sc := decision_function m X_scaled in
  df <- set_col df "Anomaly_Score" (map (fun q => Num (Finite q)) sc) ;;
  df <- set_col df "Anomaly_Type" (map (fun z => Str (anomaly_type z)) fl) ;;
  select df report_columns ;;;
  Ok {| model := m; flags := fl; scores := sc; saved := df |}.

Context {so : SortOrder}.

(** Section 5: the flagged centers, lowest score first. *)
Definition anomalies (df_results : DataFrame) : result DataFrame :=
  flag <- get_col df_results "Anomaly_Flag" ;;
  sort_values (filter_rows (series_eq flag (Num (float_of_Z (-1)))) df_results)
    "Anomaly_Score" true.

(** Section 5: the table that is printed, from the frame that is saved. *)
Definition report (df_results : DataFrame) : result DataFrame :=
  df_anomalies <- anomalies df_results ;;
  shown <- select df_anomalies report_columns ;;
  Ok (round_frame 2 (head 10 shown)).

End Script.
End anomaly_detection.

(* ================================================================== *)
(** ** app.py: the tables behind the dashboard pages *)

(** The frames and numbers that the three pages compute from the file
    written by the scoring script.  A column read from a CSV file holds
    numbers, booleans, or texts with missing values.  The calls that draw
    the page (Streamlit, Plotly) are not part of the model. *)
Module app.
Section Pages.
Context {so : SortOrder}.

(** [df_master[df_master['Anomaly_Flag'] == -1]] *)
Definition flagged_rows (df_master : DataFrame) : result DataFrame :=
  flag <- get_col df_master "Anomaly_Flag" ;;
  Ok (filter_rows (series_eq flag (Num (float_of_Z (-1)))) df_master).

(** [page_overview]: the number of flagged centers. *)
Definition anomaly_count (df_master : DataFrame) : result nat :=
  f <- flagged_rows df_master ;;
  Ok (nrows f).

(** [page_overview]: the frame of the bar chart. *)
Definition df_sorted (df_master : DataFrame) : result DataFrame :=
  s <- sort_values df_master "Center_v_National_Gap" false ;;
  Ok (head 50 s).

Definition all_states : cell := Str "All States".

(** [page_regional_drilldown]: the choices of the state selector. *)
Definition state_list (df_master : DataFrame) : result (list cell) :=
  st <- get_col df_master "state" ;;
  states <- sorted_values (series_unique st) ;;
  Ok (all_states :: states).

(** [page_regional_drilldown]: the centers of the selected state; [None]
    when ['All States'] is selected and no frame is computed. *)
Definition df_filtered (df_master : DataFrame) (selected_state : cell)
  : result (option DataFrame) :=
  if value_eqb selected_state all_states then Ok None
  else
    st <- get_col df_master "state" ;;
    Ok (Some (filter_rows (series_eq st selected_state) df_master)).

(** [page_anomaly_detection]: the flagged centers, lowest score first. *)
Definition df_anomalies (df_master : DataFrame) : result DataFrame :=
  f <- flagged_rows df_master ;;
  sort_values f "Anomaly_Score" true.

Definition table_cols : list string :=
  ["state"; "city"; "center_name"; "Center_v_National_Gap";
   "Ultra_High_Score_Ratio"; "Center_Skewness"; "Anomaly_Score"]%string.

(** [page_anomaly_detection]: the table of flagged centers. *)
Definition anomaly_table (df_master : DataFrame) : result DataFrame :=
  a <- df_anomalies df_master ;;
  t <- select a table_cols ;;
  Ok (head 50 t).

End Pages.
End app.

(* ================================================================== *)
(** ** An executable platform for examples *)

Module Reference.

(** Square root to six decimals, by the integer square root. *)
Definition sqrt6 (q : Q) : Q :=
  Qred (Z.sqrt (Qfloor (q * 1000000000000)) # 1000000).

(** [2 ** e], linear between consecutive integer exponents. *)
Definition pow2 (e : Q) : Q :=
  let k := Qfloor e in
  Qred ((1 + (e - inject_Z k)) * Qpower 2 k).

Definition pow (b e : Q) : Q :=
  if Qeq_bool b 2 then pow2 e
  else if Qeq_bool e (1 # 2) then sqrt6 b
  else if Qeq_bool e (3 # 2) then Qred (b * sqrt6 b)
  else 1.

(** Natural logarithm through the binary one. *)
Definition ln (q : Q) : Q :=
  Qred (inject_Z (Z.log2 (Qfloor q)) * (693147 # 1000000)).

Definition runtime (allow_nan : bool) : Runtime :=
  {| fsqrt := sqrt6; fpow := pow; fln := ln;
     float_repr := fun _ => "nan"%string;
     iforest_allow_nan := allow_nan |}.

(** A linear congruential generator. *)
Definition lcg_next (s : Z) : Z := ((1103515245 * s + 12345) mod 2147483648)%Z.

Definition lcg : RandomState :=
  {| rng := Z;
     rng_seed := fun seed => seed;
     rng_randint := fun high s =>
       let s' := lcg_next s in ((if Z.eqb high 0 then 0 else s' mod high)%Z, s');
     rng_uniform := fun lo hi s =>
       let s' := lcg_next s in
       (Qred (lo + (hi - lo) * (s' # 2147483648)), s') |}.

(** A stable [argsort]: insertion sort of the keys with their positions. *)
Definition stable_argsort (keys : list cell) : list nat :=
  map fst (sort (fun a b => key_leb (snd a) (snd b)) (indexed keys)).

End Reference.

(* ================================================================== *)
(** ** Example tables *)

Module Examples.

Definition num (z : Z) : cell := Num (Finite (inject_Z z)).
Definition dec (n : Z) (d : positive) : cell := Num (Finite (n # d)).

(** Two centers with the same features. *)
Definition twins : DataFrame :=
  [("center_id", [num 1; num 2]);
   ("state", [Str "KA"; Str "KA"]);
   ("city", [Str "Mysuru"; Str "Mysuru"]);
   ("center_name", [Str "A"; Str "B"]);
   ("total_students", [num 50; num 50]);
   ("Center_v_National_Gap", [num 12; num 12]);
   ("Center_Skewness", [dec 138 1000; dec 138 1000]);
   ("Center_Kurtosis", [dec (-758) 1000; dec (-758) 1000]);
   ("Ultra_High_Score_Ratio", [dec 1 50; dec 1 50])]%string.

(** Four centers in three states; the last one stands apart. *)
Definition four_centers : DataFrame :=
  [("center_id", [num 1; num 2; num 3; num 4]);
   ("state", [Str "KA"; Str "DL"; Str "KA"; Str "MH"]);
   ("city", [Str "a"; Str "b"; Str "c"; Str "d"]);
   ("center_name", [Str "A"; Str "B"; Str "C"; Str "D"]);
   ("total_students", [num 40; num 50; num 60; num 45]);
   ("Center_v_National_Gap", [num 10; num 12; num 11; num 240]);
   ("Center_Skewness", [dec 100 1000; dec 120 1000; dec 110 1000; dec (-2500) 1000]);
   ("Center_Kurtosis", [dec (-700) 1000; dec (-750) 1000; dec (-720) 1000; dec 9000 1000]);
   ("Ultra_High_Score_Ratio", [dec 1 50; dec 1 40; dec 1 45; dec 3 5])]%string.

(** Student marks of three centers: groups of four, two and three marks. *)
Definition student_marks : DataFrame :=
  [("sno", map num [1; 2; 3; 4; 5; 6; 7; 8; 9]%Z);
   ("center_id", map num [10; 10; 10; 10; 20; 20; 30; 30; 30]%Z);
   ("marks", map num [100; 200; 400; 800; 300; 500; 600; 610; 650]%Z)]%string.

(** Four centers; the last one has no student and no marks. *)
Definition center_stats : DataFrame :=
  [("center_id", map num [10; 20; 30; 40]%Z);
   ("total_students", map num [4; 2; 3; 0]%Z);
   ("center_average_marks", map num [375; 400; 620; 0]%Z);
   ("state_average_marks", map num [350; 350; 350; 350]%Z);
   ("national_average_marks", map num [300; 300; 300; 300]%Z);
   ("above_600_marks", map num [0; 0; 2; 0]%Z);
   ("above_700_marks", map num [1; 0; 0; 0]%Z);
   ("state", [Str "KA"; Str "DL"; Str "KA"; Str "MH"]);
   ("city", [Str "a"; Str "b"; Str "c"; Str "d"]);
   ("center_name", [Str "A"; Str "B"; Str "C"; Str "D"])]%string.

(** The same centers, the last one with no student and yet one mark above
    700. *)
Definition center_stats_inconsistent : DataFrame :=
  [("center_id", map num [10; 20; 30; 40]%Z);
   ("total_students", map num [4; 2; 3; 0]%Z);
   ("center_average_marks", map num [375; 400; 620; 0]%Z);
   ("state_average_marks", map num [350; 350; 350; 350]%Z);
   ("national_average_marks", map num [300; 300; 300; 300]%Z);
   ("above_600_marks", map num [0; 0; 2; 0]%Z);
   ("above_700_marks", map num [1; 0; 0; 1]%Z);
   ("state", [Str "KA"; Str "DL"; Str "KA"; Str "MH"]);
   ("city", [Str "a"; Str "b"; Str "c"; Str "d"]);
   ("center_name", [Str "A"; Str "B"; Str "C"; Str "D"])]%string.

(** The master frame of [student_marks] and [center_stats]: the second
    center has neither skewness nor kurtosis, the last one no moment and no
    ratio. *)
Definition master_example : DataFrame :=
  Eval vm_compute in
    match master_data.run (rt := Reference.runtime true) student_marks center_stats with
    | Ok df_master => df_master
    | Raise _ => []
    end.


(** The marks workbook of [student_marks] as two sheets; the first center
    has marks on both. *)
Definition sheets : list DataFrame :=
  [[("sno", map num [1; 2; 3]%Z);
    ("center_id", map num [10; 10; 20]%Z);
    ("marks", map num [100; 200; 300]%Z)];
   [("sno", map num [1; 2; 3; 4; 5; 6]%Z);
    ("center_id", map num [10; 10; 20; 30; 30; 30]%Z);
    ("marks", map num [400; 800; 500; 600; 610; 650]%Z)]]%string.

(** The same sheets without their numbering column. *)
Definition sheets_without_sno : list DataFrame :=
  map (filter (fun p => negb (String.eqb (fst p) "sno"))) sheets.

(** The first two centers of [center_stats]. *)
Definition two_centers : DataFrame :=
  map (fun p => (fst p, firstn 2 (snd p))) center_stats.

(** [center_stats] with a skewness column of its own. *)
Definition center_stats_with_skewness : DataFrame :=
  center_stats ++ [("Center_Skewness"%string, map num [0; 0; 0; 0]%Z)].

(** [four_centers] with other center sizes. *)
Definition four_centers_resized : DataFrame :=
  [("center_id", [num 1; num 2; num 3; num 4]);
   ("state", [Str "KA"; Str "DL"; Str "KA"; Str "MH"]);
   ("city", [Str "a"; Str "b"; Str "c"; Str "d"]);
   ("center_name", [Str "A"; Str "B"; Str "C"; Str "D"]);
   ("total_students", [num 4000; num 5; num 600; num 1]);
   ("Center_v_National_Gap", [num 10; num 12; num 11; num 240]);
   ("Center_Skewness", [dec 100 1000; dec 120 1000; dec 110 1000; dec (-2500) 1000]);
   ("Center_Kurtosis", [dec (-700) 1000; dec (-750) 1000; dec (-720) 1000; dec 9000 1000]);
   ("Ultra_High_Score_Ratio", [dec 1 50; dec 1 40; dec 1 45; dec 3 5])]%string.

(** A master table with its header and no center. *)
Definition empty_master : DataFrame :=
  map (fun p => (fst p, [])) four_centers.

(** A scored master table of five centers, two of them flagged; the
    fourth center has no performance gap. *)
Definition scored_flags : list Z := [1; -1; 1; -1; 1]%Z.
Definition scored_values : list Q := [12 # 100; -(5 # 100); 3 # 100; -(20 # 100); 7 # 100].

Definition scored_master : DataFrame :=
  [("state", [Str "KA"; Str "DL"; Str "KA"; Str "MH"; Str "DL"]);
   ("city", [Str "a"; Str "b"; Str "c"; Str "d"; Str "e"]);
   ("center_name", [Str "A"; Str "B"; Str "C"; Str "D"; Str "E"]);
   ("Center_v_National_Gap", [num 10; num 12; num (-3); missing; num 240]);
   ("Ultra_High_Score_Ratio", [dec 1 50; dec 1 40; dec 1 45; dec 3 5; dec 0 1]);
   ("Center_Skewness", [dec 1 10; dec 2 10; dec 3 10; dec 4 10; dec 5 10]);
   ("Anomaly_Flag", map (fun z => Num (float_of_Z z)) scored_flags);
   ("Anomaly_Score", map (fun q => Num (Finite q)) scored_values)]%string.

(** A master table in which the second center has no state. *)
Definition master_without_a_state : DataFrame :=
  [("state", [Str "KA"; missing; Str "DL"]);
   ("center_name", [Str "A"; Str "B"; Str "C"])]%string.

End Examples.

(* ================================================================== *)
(** * Properties *)

(** ** The exception monad *)

Lemma bind_ok {A B} (m : result A) (k : A -> result B) (b : B) :
  bind m k = Ok b -> exists a, m = Ok a /\ k a = Ok b.
Proof. destruct m as [a|e]; simpl; intros H; [eauto | discriminate]. Qed.

Lemma bind_raise {A B} (m : result A) (k : A -> result B) (e : exn) :
  m = Raise e -> bind m k = Raise e.
Proof. intros ->. reflexivity. Qed.

(** Splits every successful [bind] among the hypotheses. *)
Ltac inv_bind :=
  repeat match goal with
    | H : bind _ _ = Ok _ |- _ =>
        let a := fresh "v" in
        let E := fresh "E" in
        apply bind_ok in H; destruct H as (a & E & H)
    | H : Ok _ = Ok _ |- _ => injection H as H
    | H : Raise _ = Ok _ |- _ => discriminate H
    end.

Lemma mapM_length {A B} (f : A -> result B) (l : list A) (r : list B) :
  mapM f l = Ok r -> length r = length l.
Proof.
  revert r; induction l as [|a l IH]; simpl; intros r H.
  - inv_bind. subst; reflexivity.
  - inv_bind. subst; simpl. f_equal; auto.
Qed.

Lemma mapM_nth_error {A B} (f : A -> result B) (l : list A) (r : list B) :
  mapM f l = Ok r ->
  forall i a, nth_error l i = Some a ->
  exists b, nth_error r i = Some b /\ f a = Ok b.
Proof.
  revert r; induction l as [|x l IH]; simpl; intros r H i a Hi.
  - destruct i; discriminate.
  - inv_bind. subst. destruct i as [|i]; simpl in *.
    + injection Hi as ->. eauto.
    + eauto.
Qed.

Lemma mapM_raise_in {A B} (f : A -> result B) (l : list A) (a : A) (e : exn) :
  In a l -> f a = Raise e -> exists e', mapM f l = Raise e'.
Proof.
  induction l as [|x l IH]; simpl; intros Hin Hf; [contradiction|].
  destruct Hin as [->|Hin].
  - rewrite Hf. simpl. eauto.
  - destruct (f x); simpl; [|eauto].
    destruct (IH Hin Hf) as (e' & ->). simpl. eauto.
Qed.

Lemma mapM_ok_all {A B} (f : A -> result B) (l : list A) :
  (forall a, In a l -> exists b, f a = Ok b) -> exists r, mapM f l = Ok r.
Proof.
  induction l as [|x l IH]; simpl; intros H; [eauto|].
  destruct (H x (or_introl eq_refl)) as (b & ->). simpl.
  destruct IH as (r & ->); [intros; apply H; auto|]. simpl. eauto.
Qed.

(** ** Frames: looking up and assigning columns *)

Lemma lookup_col_app (c : string) (df1 df2 : DataFrame) :
  lookup_col c (df1 ++ df2) =
  match lookup_col c df1 with Some s => Some s | None => lookup_col c df2 end.
Proof.
  induction df1 as [|[c' s'] df1 IH]; simpl; [reflexivity|].
  destruct (String.eqb c c'); auto.
Qed.

Lemma lookup_col_In (c : string) (df : DataFrame) (s : Series) :
  lookup_col c df = Some s -> In (c, s) df.
Proof.
  induction df as [|[c' s'] df IH]; simpl; [discriminate|].
  destruct (String.eqb_spec c c') as [->|Hne]; intros H.
  - injection H as ->. auto.
  - auto.
Qed.

Lemma lookup_col_columns (c : string) (df : DataFrame) :
  lookup_col c df = None <-> ~ In c (columns df).
Proof.
  induction df as [|[c' s'] df IH]; simpl.
  - split; auto.
  - destruct (String.eqb_spec c c') as [->|Hne].
    + split; [discriminate | intros H; exfalso; apply H; auto].
    + rewrite IH. split; intros H; [intros [E|E]; [congruence|auto] | auto].
Qed.

Lemma lookup_replace_col_same (c : string) (s : Series) (df : DataFrame) :
  has_col df c = true -> lookup_col c (replace_col c s df) = Some s.
Proof.
  unfold has_col.
  induction df as [|[c' s'] df IH]; simpl; [discriminate|].
  destruct (String.eqb c c') eqn:E; simpl; rewrite E; auto.
Qed.

Lemma lookup_replace_col_other (c c0 : string) (s : Series) (df : DataFrame) :
  c0 <> c -> lookup_col c0 (replace_col c s df) = lookup_col c0 df.
Proof.
  intros Hne.
  induction df as [|[c' s'] df IH]; simpl; [reflexivity|].
  destruct (String.eqb_spec c c') as [->|Hc]; simpl.
  - destruct (String.eqb_spec c0 c'); [contradiction | reflexivity].
  - destruct (String.eqb c0 c'); auto.
Qed.

Lemma columns_replace_col (c : string) (s : Series) (df : DataFrame) :
  columns (replace_col c s df) = columns df.
Proof.
  unfold columns.
  induction df as [|[c' s'] df IH]; simpl; [reflexivity|].
  destruct (String.eqb c c'); simpl; congruence.
Qed.

Lemma nrows_replace_col (c : string) (s : Series) (df : DataFrame) :
  length s = nrows df -> nrows (replace_col c s df) = nrows df.
Proof.
  destruct df as [|[c' s'] df]; simpl; [reflexivity|].
  destruct (String.eqb c c'); simpl; auto.
Qed.

(** [set_col] on a frame that has columns. *)
Lemma set_col_nonempty (df df' : DataFrame) (c : string) (s : Series) :
  df <> [] -> set_col df c s = Ok df' ->
  length s = nrows df /\
  df' = if has_col df c then replace_col c s df else df ++ [(c, s)].
Proof.
  unfold set_col. intros Hne H.
  destruct df as [|p df0] eqn:Edf; [congruence|]. rewrite <- Edf in *.
  destruct (Nat.eqb_spec (length s) (nrows df)); [|discriminate].
  split; congruence.
Qed.

(** Assigning a column that is not there yet appends it. *)
Lemma set_col_fresh (df df' : DataFrame) (c : string) (s : Series) :
  has_col df c = false -> set_col df c s = Ok df' -> df' = df ++ [(c, s)].
Proof.
  intros Hc H. destruct df as [|p df0] eqn:Edf.
  - injection H as <-. reflexivity.
  - rewrite <- Edf in *. apply set_col_nonempty in H; [|congruence].
    rewrite Hc in H. tauto.
Qed.

Lemma set_col_length (df df' : DataFrame) (c : string) (s : Series) :
  df <> [] -> set_col df c s = Ok df' -> length s = nrows df.
Proof. intros Hne H. apply (set_col_nonempty df df' c s Hne H). Qed.

Lemma set_col_lookup_same (df df' : DataFrame) (c : string) (s : Series) :
  set_col df c s = Ok df' -> lookup_col c df' = Some s.
Proof.
  intros H. destruct df as [|p df0] eqn:Edf.
  - injection H as <-. simpl. rewrite String.eqb_refl. reflexivity.
  - rewrite <- Edf in *. apply set_col_nonempty in H; [|congruence].
    destruct H as [_ ->]. destruct (has_col df c) eqn:Hc.
    + apply lookup_replace_col_same; assumption.
    + rewrite lookup_col_app. unfold has_col in Hc.
      destruct (lookup_col c df); [discriminate|].
      simpl. rewrite String.eqb_refl. reflexivity.
Qed.

Lemma set_col_lookup_other (df df' : DataFrame) (c c0 : string) (s : Series) :
  c0 <> c -> set_col df c s = Ok df' -> lookup_col c0 df' = lookup_col c0 df.
Proof.
  intros Hne H. destruct df as [|p df0] eqn:Edf.
  - injection H as <-. simpl.
    destruct (String.eqb_spec c0 c); [contradiction | reflexivity].
  - rewrite <- Edf in *. apply set_col_nonempty in H; [|congruence].
    destruct H as [_ ->]. destruct (has_col df c).
    + apply lookup_replace_col_other; assumption.
    + rewrite lookup_col_app. destruct (lookup_col c0 df); [reflexivity|].
      simpl. destruct (String.eqb_spec c0 c); [contradiction | reflexivity].
Qed.

Lemma set_col_nrows (df df' : DataFrame) (c : string) (s : Series) :
  df <> [] -> set_col df c s = Ok df' -> nrows df' = nrows df.
Proof.
  intros Hne H. apply set_col_nonempty in H; [|assumption].
  destruct H as [El ->]. destruct (has_col df c).
  - apply nrows_replace_col; assumption.
  - destruct df as [|[c1 s1] df]; [congruence | reflexivity].
Qed.

Lemma get_col_ok (df : DataFrame) (c : string) (s : Series) :
  get_col df c = Ok s <-> lookup_col c df = Some s.
Proof.
  unfold get_col. destruct (lookup_col c df); split; congruence.
Qed.

Lemma get_col_nonempty (df : DataFrame) (c : string) (s : Series) :
  get_col df c = Ok s -> df <> [].
Proof. destruct df; [discriminate | congruence]. Qed.

Lemma has_col_app (df1 df2 : DataFrame) (c : string) :
  has_col (df1 ++ df2) c = has_col df1 c || has_col df2 c.
Proof.
  unfold has_col. rewrite lookup_col_app.
  destruct (lookup_col c df1); reflexivity.
Qed.

(** ** anomaly_detection.py only adds columns *)

Lemma predict_values {rt : Runtime} {rs : RandomState} (m : forest) (X : list sample) :
  Forall (fun z => z = (-1)%Z \/ z = 1%Z) (predict m X).
Proof.
  unfold predict. apply Forall_forall. intros z Hz.
  apply in_map_iff in Hz. destruct Hz as (d & <- & _).
  destruct (Qlt_bool d 0); auto.
Qed.

Lemma anomaly_type_cases (z : Z) :
  (anomaly_detection.anomaly_type z = "Anomalous Center"%string <-> z = (-1)%Z) /\
  (z <> (-1)%Z -> anomaly_detection.anomaly_type z = "Normal Center"%string).
Proof.
  unfold anomaly_detection.anomaly_type.
  destruct (Z.eqb_spec z (-1)) as [->|Hne].
  - split; [tauto | congruence].
  - split; [split; [discriminate | contradiction] | reflexivity].
Qed.

Lemma select_nonempty (df sel : DataFrame) (c : string) (cs : list string) :
  select df (c :: cs) = Ok sel -> df <> [].
Proof.
  unfold select. simpl. intros H. inv_bind.
  eapply get_col_nonempty; eassumption.
Qed.

Lemma scaled_matrix_nonempty {rt : Runtime} (df : DataFrame) (X : list sample) :
  anomaly_detection.scaled_matrix df = Ok X -> df <> [].
Proof.
  unfold anomaly_detection.scaled_matrix, anomaly_detection.encode,
    anomaly_detection.scoring_input. intros H.
  inv_bind. eapply select_nonempty. simpl in *. eassumption.
Qed.

(** C9. The scoring script only extends the loaded master table: every
    column it had is saved with the same values, the three columns
    [Anomaly_Flag], [Anomaly_Score] and [Anomaly_Type] are appended and
    nothing else is, every flag is [-1] or [1], and the type is
    ['Anomalous Center'] exactly for the flag [-1] and ['Normal Center']
    otherwise. *)
Theorem scoring_only_adds_result_columns
    (rt : Runtime) (rs : RandomState) (global : rng)
    (df_results : DataFrame) (o : anomaly_detection.outcome) :
  anomaly_detection.run global df_results = Ok o ->
  forallb (fun c => negb (has_col df_results c)) anomaly_detection.result_columns = true ->
  let out := anomaly_detection.saved o in
  let fl := anomaly_detection.flags o in
  (forall c s, lookup_col c df_results = Some s -> lookup_col c out = Some s) /\
  columns out = columns df_results ++ anomaly_detection.result_columns /\
  nrows out = nrows df_results /\
  length fl = nrows df_results /\
  lookup_col "Anomaly_Flag" out = Some (map (fun z => Num (float_of_Z z)) fl) /\
  lookup_col "Anomaly_Score" out
    = Some (map (fun q => Num (Finite q)) (anomaly_detection.scores o)) /\
  lookup_col "Anomaly_Type" out
    = Some (map (fun z => Str (anomaly_detection.anomaly_type z)) fl) /\
  Forall (fun z => z = (-1)%Z \/ z = 1%Z) fl /\
  forall z, In z fl ->
    (anomaly_detection.anomaly_type z = "Anomalous Center"%string <-> z = (-1)%Z) /\
    (z <> (-1)%Z -> anomaly_detection.anomaly_type z = "Normal Center"%string).
Proof.
  intros Hrun Hfresh. unfold anomaly_detection.run in Hrun. inv_bind.
  rename v into X, v0 into m, v1 into df1, v2 into df2, v3 into df3.
  subst o. simpl.
  simpl in Hfresh. rewrite !andb_true_iff, !negb_true_iff in Hfresh.
  destruct Hfresh as (Hf1 & Hf2 & Hf3 & _).
  assert (Hne : df_results <> []) by (eapply scaled_matrix_nonempty; eassumption).
  pose proof (set_col_length _ _ _ _ Hne E1) as Hlen.
  rewrite length_map in Hlen.
  apply set_col_fresh in E1; [|assumption]. subst df1.
  apply set_col_fresh in E2;
    [|rewrite has_col_app, Hf2; reflexivity]. subst df2.
  apply set_col_fresh in E3;
    [|rewrite !has_col_app, Hf3; reflexivity]. subst df3.
  repeat split.
  - intros c s Hc. rewrite !lookup_col_app, Hc. reflexivity.
  - unfold columns. rewrite !map_app. simpl. rewrite <- !app_assoc. reflexivity.
  - destruct df_results; [congruence | reflexivity].
  - assumption.
  - unfold has_col in Hf1. rewrite !lookup_col_app.
    destruct (lookup_col "Anomaly_Flag" df_results); [discriminate|]. reflexivity.
  - unfold has_col in Hf2. rewrite !lookup_col_app.
    destruct (lookup_col "Anomaly_Score" df_results); [discriminate|]. reflexivity.
  - unfold has_col in Hf3. rewrite !lookup_col_app.
    destruct (lookup_col "Anomaly_Type" df_results); [discriminate|]. reflexivity.
  - apply predict_values.
  - apply anomaly_type_cases.
  - apply anomaly_type_cases.
  - apply anomaly_type_cases.
Qed.

Lemma scoring_only_adds_result_columns_witness :
  match anomaly_detection.run (rt := Reference.runtime true) (rs := Reference.lcg)
          0%Z Examples.four_centers with
  | Ok o =>
      columns (anomaly_detection.saved o)
      = columns Examples.four_centers ++ anomaly_detection.result_columns
  | Raise _ => False
  end.
Proof.
  destruct (anomaly_detection.run (rt := Reference.runtime true)
              (rs := Reference.lcg) 0%Z Examples.four_centers) as [o|e] eqn:E.
  - exact (proj1 (proj2
      (scoring_only_adds_result_columns (Reference.runtime true) Reference.lcg
         0%Z Examples.four_centers o E eq_refl))).
  - vm_compute in E. discriminate E.
Defined.

(** ** Insertion sort *)

Section SortFacts.
Context {A : Type}.
Variable leb : A -> A -> bool.

Lemma insert_sorted_perm (x : A) (l : list A) :
  Permutation (insert_sorted leb x l) (x :: l).
Proof.
  induction l as [|y l IH]; simpl; [reflexivity|].
  destruct (leb x y); [reflexivity|].
  rewrite IH. apply perm_swap.
Qed.

Lemma sort_perm (l : list A) : Permutation (sort leb l) l.
Proof.
  induction l as [|x l IH]; simpl; [reflexivity|].
  rewrite insert_sorted_perm. constructor. exact IH.
Qed.

Lemma sort_length (l : list A) : length (sort leb l) = length l.
Proof. apply Permutation_length, sort_perm. Qed.

Lemma sort_In (l : list A) (x : A) : In x (sort leb l) <-> In x l.
Proof.
  split; apply Permutation_in; [|symmetry]; apply sort_perm.
Qed.

(** With a total and transitive comparison the result is sorted. *)
Variable le : A -> A -> Prop.
Hypothesis leb_le : forall x y, leb x y = true -> le x y.
Hypothesis leb_false_le : forall x y, leb x y = false -> le y x.
Hypothesis le_trans : forall x y z, le x y -> le y z -> le x z.

Lemma insert_sorted_sorted (x : A) (l : list A) :
  StronglySorted le l -> StronglySorted le (insert_sorted leb x l).
Proof.
  induction 1 as [|y l Hs IH Hy]; simpl.
  - constructor; constructor.
  - destruct (leb x y) eqn:E.
    + constructor; [constructor; assumption|].
      constructor; [auto|].
      eapply Forall_impl; [|exact Hy]. intros z Hz. eapply le_trans; eauto.
    + constructor; [assumption|].
      eapply Permutation_Forall; [symmetry; apply insert_sorted_perm|].
      constructor; auto.
Qed.

Lemma sort_sorted (l : list A) : StronglySorted le (sort leb l).
Proof.
  induction l as [|x l IH]; simpl; [constructor|].
  apply insert_sorted_sorted; assumption.
Qed.
End SortFacts.

Lemma Qlt_bool_iff (x y : Q) : Qlt_bool x y = true <-> x < y.
Proof.
  unfold Qlt_bool. rewrite negb_true_iff.
  split; intros H.
  - apply Qnot_le_lt. intros Hle. apply Qle_bool_iff in Hle. congruence.
  - destruct (Qle_bool y x) eqn:E; [|reflexivity].
    apply Qle_bool_iff in E. exfalso. apply (Qlt_not_le _ _ H E).
Qed.

Lemma Qle_bool_false (x y : Q) : Qle_bool x y = false -> y <= x.
Proof.
  intros H. apply Qlt_le_weak, Qlt_bool_iff. unfold Qlt_bool. rewrite H. reflexivity.
Qed.

Lemma Qsort_sorted (l : list Q) : StronglySorted Qle (sort Qle_bool l).
Proof.
  apply sort_sorted.
  - intros x y. apply Qle_bool_iff.
  - apply Qle_bool_false.
  - intros x y z. apply Qle_trans.
Qed.

Lemma sorted_nth_le (s : list Q) (i j : nat) :
  StronglySorted Qle s -> (i <= j < length s)%nat -> nth i s 0 <= nth j s 0.
Proof.
  intros Hs. revert i j. induction Hs as [|x s Hs IH Hx]; intros i j [Hij Hj].
  - simpl in Hj. lia.
  - destruct i as [|i], j as [|j]; simpl in *; try lia.
    + apply Qle_refl.
    + rewrite Forall_forall in Hx. apply Hx. apply nth_In. lia.
    + apply IH. lia.
Qed.

(** ** Counting the values below a threshold *)

Lemma count_lt_perm (l l' : list Q) (t : Q) :
  Permutation l l' -> count_lt l t = count_lt l' t.
Proof.
  unfold count_lt. induction 1; simpl.
  - reflexivity.
  - destruct (Qlt_bool x t); simpl; congruence.
  - destruct (Qlt_bool x t), (Qlt_bool y t); reflexivity.
  - congruence.
Qed.

Lemma count_lt_none (s : list Q) (t : Q) :
  Forall (fun y => t <= y) s -> count_lt s t = O.
Proof.
  unfold count_lt. induction 1 as [|y s Hy _ IH]; simpl; [reflexivity|].
  destruct (Qlt_bool y t) eqn:E; [|exact IH].
  apply Qlt_bool_iff in E. exfalso. apply (Qlt_not_le _ _ E Hy).
Qed.

Lemma count_lt_cons_le (x : Q) (s : list Q) (t : Q) :
  (count_lt (x :: s) t <= S (count_lt s t))%nat.
Proof. unfold count_lt. simpl. destruct (Qlt_bool x t); simpl; lia. Qed.

Lemma count_lt_upper (s : list Q) (t : Q) (m : nat) :
  StronglySorted Qle s -> (m < length s)%nat -> t <= nth m s 0 ->
  (count_lt s t <= m)%nat.
Proof.
  intros Hs. revert m. induction Hs as [|x s Hs IH Hx]; intros m Hm Ht.
  - simpl in Hm. lia.
  - destruct m as [|m]; simpl in *.
    + rewrite count_lt_none; [lia|].
      constructor; [assumption|].
      eapply Forall_impl; [|exact Hx]. intros y Hy. eapply Qle_trans; eauto.
    + pose proof (count_lt_cons_le x s t).
      assert (count_lt s t <= m)%nat by (apply IH; [lia | assumption]). lia.
Qed.


(** ** The percentile threshold *)

Lemma inject_Z_minus (x y : Z) : inject_Z (x - y) = inject_Z x - inject_Z y.
Proof.
  unfold Z.sub, Qminus. rewrite inject_Z_plus, inject_Z_opp. reflexivity.
Qed.




Section Percentile.
Variable a : list Q.
Variable p : Q.
Hypothesis a_nonempty : a <> [].
Hypothesis p_range : 0 <= p <= 1.

Let s := sort Qle_bool a.
Let n := length s.
Let vi := p * (Qof_nat n - 1).
Let lo := Qfloor vi.
Let lo_i := Z.to_nat lo.
Let hi_i := Nat.min (S lo_i) (n - 1).
Let gamma := vi - inject_Z lo.

Lemma pct_n_pos : (0 < n)%nat.
Proof.
  unfold n, s. rewrite sort_length. destruct a; [congruence | simpl; lia].
Qed.

Lemma pct_n_ge1 : 1 <= Qof_nat n.
Proof.
  unfold Qof_nat. change 1 with (inject_Z 1). rewrite <- Zle_Qle.
  pose proof pct_n_pos. lia.
Qed.

Lemma pct_vi_range : 0 <= vi <= Qof_nat n - 1.
Proof. unfold vi. pose proof pct_n_ge1. split; nra. Qed.

Lemma pct_lo_range : (0 <= lo <= Z.of_nat n - 1)%Z.
Proof.
  destruct pct_vi_range as [H0 H1]. unfold lo. split.
  - change 0%Z with (Qfloor 0). apply Qfloor_resp_le. exact H0.
  - apply Qfloor_resp_le in H1.
    replace (Qfloor (Qof_nat n - 1)) with (Z.of_nat n - 1)%Z in H1; [exact H1|].
    unfold Qof_nat. rewrite <- (Qfloor_Z (Z.of_nat n - 1)).
    apply Qfloor_comp. rewrite inject_Z_minus. reflexivity.
Qed.

Lemma pct_lo_i : inject_Z (Z.of_nat lo_i) = inject_Z lo /\ (lo_i < n)%nat.
Proof.
  pose proof pct_lo_range. unfold lo_i. rewrite Z2Nat.id by lia. split; [reflexivity | lia].
Qed.

Lemma pct_gamma_range : 0 <= gamma < 1.
Proof.
  unfold gamma, lo. pose proof (Qfloor_le vi). pose proof (Qlt_floor vi) as H1.
  rewrite inject_Z_plus in H1. change (inject_Z 1) with 1 in H1. split; lra.
Qed.

Lemma pct_hi_i : (lo_i <= hi_i < n)%nat.
Proof. pose proof pct_lo_i. pose proof pct_n_pos. unfold hi_i. lia. Qed.

Lemma pct_unfold :
  percentile a p == nth lo_i s 0 + (nth hi_i s 0 - nth lo_i s 0) * gamma.
Proof. reflexivity. Qed.

(** The threshold lies between the two order statistics it interpolates. *)
Lemma percentile_between :
  nth lo_i s 0 <= percentile a p /\ percentile a p <= nth hi_i s 0.
Proof.
  rewrite pct_unfold. pose proof pct_gamma_range.
  assert (nth lo_i s 0 <= nth hi_i s 0)
    by (apply sorted_nth_le; [apply Qsort_sorted | apply pct_hi_i]).
  split; nra.
Qed.

Lemma pct_ceiling_exact : gamma == 0 -> Qceiling vi = lo.
Proof.
  intros Hg. assert (E : vi == inject_Z lo) by (unfold gamma in Hg; lra).
  rewrite (Qceiling_comp _ _ E). apply Qceiling_Z.
Qed.

Lemma pct_ceiling_next : 0 < gamma -> Qceiling vi = (lo + 1)%Z.
Proof.
  intros Hg. pose proof (Qle_ceiling vi) as H1. pose proof (Qceiling_lt vi) as H2.
  pose proof (Qlt_floor vi) as H3. fold lo in H3. unfold gamma in Hg.
  assert (inject_Z lo < inject_Z (Qceiling vi)) as H4 by lra.
  assert (inject_Z (Qceiling vi - 1) < inject_Z (lo + 1)) as H5 by lra.
  rewrite <- Zlt_Qlt in H4, H5. lia.
Qed.

Lemma pct_gamma_pos_hi : 0 < gamma -> hi_i = S lo_i.
Proof.
  intros Hg. destruct pct_vi_range as [_ H1]. pose proof pct_lo_range as Hl.
  unfold gamma in Hg.
  assert (inject_Z lo < inject_Z (Z.of_nat n - 1)) as H2.
  { rewrite inject_Z_minus. unfold Qof_nat in H1. change (inject_Z 1) with 1. lra. }
  rewrite <- Zlt_Qlt in H2. unfold hi_i, lo_i. lia.
Qed.

(** At most [ceil (p * (n - 1))] values lie strictly below the threshold. *)
Lemma percentile_count_le :
  (Z.of_nat (count_lt a (percentile a p)) <= Qceiling vi)%Z.
Proof.
  rewrite (count_lt_perm a s) by (symmetry; apply sort_perm).
  pose proof pct_lo_range as Hl. pose proof pct_lo_i as [_ Hlo].
  destruct pct_gamma_range as [Hg0 _]. apply Qle_lteq in Hg0.
  destruct Hg0 as [Hg|Hg].
  - rewrite (pct_ceiling_next Hg).
    assert (count_lt s (percentile a p) <= S lo_i)%nat.
    { apply count_lt_upper; [apply Qsort_sorted | |].
      - pose proof pct_hi_i. rewrite <- (pct_gamma_pos_hi Hg). lia.
      - rewrite <- (pct_gamma_pos_hi Hg). apply percentile_between. }
    unfold lo_i in *. lia.
  - symmetry in Hg. rewrite (pct_ceiling_exact Hg).
    assert (count_lt s (percentile a p) <= lo_i)%nat.
    { apply count_lt_upper; [apply Qsort_sorted | exact Hlo |].
      rewrite pct_unfold. rewrite Hg. lra. }
    unfold lo_i in *. lia.
Qed.


End Percentile.

(** ** The fitted forest: offset, decision values and flags *)

Section ForestFacts.
Context {rt : Runtime} {rs : RandomState}.

Lemma fit_inv (n : nat) (c : Q) (seed : option Z) (g : rng)
    (X : list sample) (m : forest) :
  fit n c seed g X = Ok m ->
  X <> [] /\
  estimators_ m = fit_trees n seed g X /\
  max_samples_ m = Nat.min 256 (length X) /\
  offset_ m = percentile (score_samples m X) c.
Proof.
  unfold fit. intros H. inv_bind. destruct X as [|x X]; [discriminate|].
  injection H as <-. unfold score_samples. simpl. repeat split. congruence.
Qed.

Lemma Qlt_bool_shift (s t : Q) : Qlt_bool (s - t) 0 = Qlt_bool s t.
Proof.
  destruct (Qlt_bool s t) eqn:E.
  - apply Qlt_bool_iff in E. apply Qlt_bool_iff. lra.
  - destruct (Qlt_bool (s - t) 0) eqn:E'; [|reflexivity].
    apply Qlt_bool_iff in E'. assert (s < t) as H by lra.
    apply Qlt_bool_iff in H. congruence.
Qed.

(** A center is flagged exactly when its score is strictly below the
    offset. *)
Lemma predict_unfold (m : forest) (X : list sample) :
  predict m X =
  map (fun s => if Qlt_bool s (offset_ m) then (-1)%Z else 1%Z) (score_samples m X).
Proof.
  unfold predict, decision_function. rewrite map_map.
  apply map_ext. intros s. rewrite Qlt_bool_shift. reflexivity.
Qed.

Lemma n_flagged_count (m : forest) (X : list sample) :
  n_flagged (predict m X) = count_lt (score_samples m X) (offset_ m).
Proof.
  rewrite predict_unfold. unfold n_flagged, count_lt.
  induction (score_samples m X) as [|s l IH]; simpl; [reflexivity|].
  destruct (Qlt_bool s (offset_ m)); simpl.
  - f_equal. exact IH.
  - exact IH.
Qed.


Lemma flag_of_decision (m : forest) (X : list sample) (i : nat) (d : Q) :
  nth_error (decision_function m X) i = Some d ->
  nth_error (predict m X) i = Some (if Qlt_bool d 0 then (-1)%Z else 1%Z).
Proof.
  unfold predict. intros H. rewrite nth_error_map, H. reflexivity.
Qed.

End ForestFacts.

Lemma run_inv {rt : Runtime} {rs : RandomState} (global : rng)
    (df_results : DataFrame) (o : anomaly_detection.outcome) :
  anomaly_detection.run global df_results = Ok o ->
  exists X,
    anomaly_detection.scaled_matrix df_results = Ok X /\
    fit anomaly_detection.n_estimators anomaly_detection.contamination
        anomaly_detection.random_state global X = Ok (anomaly_detection.model o) /\
    anomaly_detection.flags o = predict (anomaly_detection.model o) X /\
    anomaly_detection.scores o = decision_function (anomaly_detection.model o) X /\
    length X = nrows df_results.
Proof.
  intros Hrun. pose proof Hrun as Hrun'.
  unfold anomaly_detection.run in Hrun. inv_bind. subst o. simpl.
  exists v. repeat split; try assumption.
  apply set_col_length in E1; [|eapply scaled_matrix_nonempty; eassumption].
  rewrite length_map in E1. unfold predict, decision_function, score_samples in E1.
  rewrite !length_map in E1. exact E1.
Qed.

(** The number of flags of a successful run is at most
    [ceil (contamination * (n - 1))]. *)
Lemma run_flagged_le {rt : Runtime} {rs : RandomState} (global : rng)
    (df_results : DataFrame) (o : anomaly_detection.outcome) :
  anomaly_detection.run global df_results = Ok o ->
  (Z.of_nat (n_flagged (anomaly_detection.flags o))
   <= Qceiling (anomaly_detection.contamination * (Qof_nat (nrows df_results) - 1)))%Z.
Proof.
  intros Hrun.
  destruct (run_inv global df_results o Hrun) as (X & HX & Hfit & Hfl & Hsc & Hlen).
  destruct (fit_inv _ _ _ _ _ _ Hfit) as (Hne & _ & _ & Hoff).
  set (m := anomaly_detection.model o) in *.
  assert (Hscn : length (score_samples m X) = nrows df_results)
    by (unfold score_samples; rewrite length_map; exact Hlen).
  rewrite Hfl, n_flagged_count, Hoff.
  rewrite <- Hscn, <- (sort_length Qle_bool (score_samples m X)).
  apply percentile_count_le.
  - destruct X; [congruence | discriminate].
  - unfold anomaly_detection.contamination; split; discriminate.
Qed.




(** With 67 centers at most one is flagged, where [ceil (0.015 * 67) = 2]. *)
Lemma at_most_one_flag_among_67
    (rt : Runtime) (rs : RandomState) (global : rng)
    (df_results : DataFrame) (o : anomaly_detection.outcome) :
  anomaly_detection.run global df_results = Ok o ->
  nrows df_results = 67%nat ->
  (n_flagged (anomaly_detection.flags o) <= 1)%nat /\
  Qceiling (anomaly_detection.contamination * Qof_nat 67) = 2%Z.
Proof.
  intros Hrun Hn.
  pose proof (run_flagged_le global df_results o Hrun) as Hle.
  rewrite Hn in Hle. split; [|reflexivity].
  change (Qceiling (anomaly_detection.contamination * (Qof_nat 67 - 1))) with 1%Z in Hle.
  lia.
Qed.

Lemma percentile_pair (s : Q) :
  percentile [s; s] anomaly_detection.contamination == s.
Proof.
  unfold percentile.
  assert (E : sort Qle_bool [s; s] = [s; s])
    by (cbn; destruct (Qle_bool s s); reflexivity).
  rewrite E. cbn [length].
  replace (Qfloor (anomaly_detection.contamination * (Qof_nat 2 - 1))) with 0%Z
    by (vm_compute; reflexivity).
  cbn [Z.to_nat Nat.min Nat.sub nth]. ring.
Qed.

(** On any platform and with any generator, two centers with the same
    features get the same score, the offset is that score, both decision
    values are zero and neither center is flagged. *)
Lemma tied_pair_unflagged {rt : Runtime} {rs : RandomState} (global : rng)
    (o : anomaly_detection.outcome) :
  anomaly_detection.run global Examples.twins = Ok o ->
  anomaly_detection.flags o = [1; 1]%Z /\
  Forall (fun d => d == 0) (anomaly_detection.scores o).
Proof.
  intros Hrun.
  destruct (run_inv global Examples.twins o Hrun) as (X & HX & Hfit & Hfl & Hsc & _).
  destruct (fit_inv _ _ _ _ _ _ Hfit) as (_ & _ & _ & Hoff).
  assert (EX : exists x, X = [x; x]).
  { vm_compute in HX. injection HX as <-. eauto. }
  destruct EX as (x & ->).
  set (m := anomaly_detection.model o) in *.
  set (s := score_of (estimators_ m) (max_samples_ m) x).
  assert (Hs : score_samples m [x; x] = [s; s]) by reflexivity.
  rewrite Hs in Hoff.
  assert (Hd : s - offset_ m == 0) by (rewrite Hoff, percentile_pair; ring).
  assert (Hb : Qlt_bool (s - offset_ m) 0 = false).
  { destruct (Qlt_bool (s - offset_ m) 0) eqn:E; [|reflexivity].
    apply Qlt_bool_iff in E. rewrite Hd in E. discriminate E. }
  rewrite Hfl, Hsc. unfold predict, decision_function. rewrite Hs.
  cbn [map]. rewrite Hb. split; [reflexivity|].
  repeat constructor; exact Hd.
Qed.

(** ** The saved score is the shifted opposite of the raw score *)

(** The threshold lies between two of the values. *)
Lemma percentile_bracket (a : list Q) (p : Q) :
  a <> [] -> 0 <= p <= 1 ->
  exists u v, In u a /\ In v a /\ u <= percentile a p /\ percentile a p <= v.
Proof.
  intros Hne Hp.
  destruct (percentile_between a p Hne Hp) as [H1 H2].
  pose proof (pct_lo_i a p Hne Hp) as [_ Hlo].
  pose proof (pct_hi_i a p Hne Hp) as [_ Hhi].
  eexists; eexists. split; [|split; [|split; [exact H1 | exact H2]]].
  - apply (sort_In Qle_bool). apply nth_In. exact Hlo.
  - apply (sort_In Qle_bool). apply nth_In. exact Hhi.
Qed.

(** C2 (as the code has it).  The saved [Anomaly_Score] is the decision
    function: the opposite of the raw score [2 ** (-E[h(x)] / c(psi))],
    minus the offset, the 1.5th percentile of the opposite raw scores.
    Hence a center is flagged exactly when its saved score is negative, a
    larger raw score gives a lower saved score, some center always has a
    saved score at most zero, and when the raw scores lie in (0, 1] the
    saved scores lie strictly between -1 and 1. *)
Theorem saved_score_is_decision_function
    (rt : Runtime) (rs : RandomState) (global : rng)
    (df_results : DataFrame) (o : anomaly_detection.outcome) :
  anomaly_detection.run global df_results = Ok o ->
  exists X,
    anomaly_detection.scaled_matrix df_results = Ok X /\
    let m := anomaly_detection.model o in
    let raw := raw_score (estimators_ m) (max_samples_ m) in
    max_samples_ m = Nat.min 256 (nrows df_results) /\
    offset_ m = percentile (map (fun x => - raw x) X) anomaly_detection.contamination /\
    anomaly_detection.scores o = map (fun x => - raw x - offset_ m) X /\
    (forall i d, nth_error (anomaly_detection.scores o) i = Some d ->
       (nth_error (anomaly_detection.flags o) i = Some (-1)%Z <-> d < 0)) /\
    (forall x y, raw x < raw y <-> - raw y - offset_ m < - raw x - offset_ m) /\
    (exists i d, nth_error (anomaly_detection.scores o) i = Some d /\ d <= 0) /\
    ((forall x, In x X -> 0 < raw x <= 1) ->
     forall d, In d (anomaly_detection.scores o) -> -1 < d < 1).
Proof.
  intros Hrun.
  destruct (run_inv global df_results o Hrun) as (X & HX & Hfit & Hfl & Hsc & Hlen).
  destruct (fit_inv _ _ _ _ _ _ Hfit) as (Hne & _ & Hms & Hoff).
  exists X. split; [exact HX|]. cbv zeta.
  set (m := anomaly_detection.model o) in *.
  set (raw := raw_score (estimators_ m) (max_samples_ m)).
  assert (Hss : score_samples m X = map (fun x => - raw x) X) by reflexivity.
  assert (Hp : 0 <= anomaly_detection.contamination <= 1)
    by (unfold anomaly_detection.contamination; split; discriminate).
  assert (Hsne : map (fun x => - raw x) X <> [])
    by (destruct X; [congruence | discriminate]).
  rewrite Hss in Hoff.
  split; [rewrite Hms, Hlen; reflexivity|].
  split; [exact Hoff|].
  split.
  { rewrite Hsc. unfold decision_function. rewrite Hss, map_map. reflexivity. }
  split.
  { intros i d Hd. rewrite Hsc in Hd. rewrite Hfl.
    rewrite (flag_of_decision _ _ _ _ Hd).
    destruct (Qlt_bool d 0) eqn:E.
    - apply Qlt_bool_iff in E. tauto.
    - split; [discriminate|]. intros Hlt. apply Qlt_bool_iff in Hlt. congruence. }
  split; [intros x y; split; intros H; lra|].
  destruct (percentile_bracket _ _ Hsne Hp) as (u & v & Hu & Hv & Hu' & Hv').
  rewrite <- Hoff in Hu', Hv'.
  split.
  { apply in_map_iff in Hu. destruct Hu as (x & <- & Hx).
    destruct (In_nth_error _ _ Hx) as (i & Hi).
    exists i, (- raw x - offset_ m). split; [|lra].
    rewrite Hsc. unfold decision_function. rewrite Hss, map_map.
    rewrite nth_error_map, Hi. reflexivity. }
  intros Hraw d Hd.
  rewrite Hsc in Hd. unfold decision_function in Hd. rewrite Hss, map_map in Hd.
  apply in_map_iff in Hd. destruct Hd as (x & <- & Hx).
  apply in_map_iff in Hu. destruct Hu as (xu & <- & Hxu).
  apply in_map_iff in Hv. destruct Hv as (xv & <- & Hxv).
  pose proof (Hraw x Hx). pose proof (Hraw xu Hxu). pose proof (Hraw xv Hxv).
  split; lra.
Qed.

Lemma saved_score_is_decision_function_witness :
  match anomaly_detection.run (rt := Reference.runtime true) (rs := Reference.lcg)
          0%Z Examples.four_centers with
  | Ok o => exists i d, nth_error (anomaly_detection.scores o) i = Some d /\ d <= 0
  | Raise _ => False
  end.
Proof.
  destruct (anomaly_detection.run (rt := Reference.runtime true)
              (rs := Reference.lcg) 0%Z Examples.four_centers) as [o|e] eqn:E.
  - destruct (saved_score_is_decision_function (Reference.runtime true)
                Reference.lcg 0%Z Examples.four_centers o E) as (X & _ & H).
    exact (proj1 (proj2 (proj2 (proj2 (proj2 (proj2 H)))))).
  - vm_compute in E. discriminate E.
Defined.

(** C2 fails as stated: the center that stands apart is the flagged one,
    and its saved score is negative, hence outside (0, 1] and the lowest of
    all, not the one nearest to 1; and the saved scores of two centers with
    the same features are both zero. *)
Lemma outlier_score_is_negative :
  match anomaly_detection.run (rt := Reference.runtime true) (rs := Reference.lcg)
          0%Z Examples.four_centers with
  | Ok o =>
      anomaly_detection.flags o = [1; 1; 1; -1]%Z /\
      exists d, nth_error (anomaly_detection.scores o) 3 = Some d /\ d < 0 /\
                Forall (fun d' => d <= d') (anomaly_detection.scores o)
  | Raise _ => False
  end /\
  match anomaly_detection.run (rt := Reference.runtime true) (rs := Reference.lcg)
          0%Z Examples.twins with
  | Ok o => Forall (fun d => d == 0 /\ ~ 0 < d) (anomaly_detection.scores o)
  | Raise _ => False
  end.
Proof.
  split.
  - vm_compute. split; [reflexivity|]. eexists. split; [reflexivity|].
    split; [reflexivity|]. repeat constructor; discriminate.
  - vm_compute. repeat constructor; discriminate.
Qed.

(** ** Determinism *)

(** With an integer seed the fitted forest does not depend on the state of
    the process-wide generator. *)
Lemma fit_seeded {rt : Runtime} {rs : RandomState}
    (n : nat) (c : Q) (seed : Z) (g1 g2 : rng) (X : list sample) :
  fit n c (Some seed) g1 X = fit n c (Some seed) g2 X.
Proof. reflexivity. Qed.

(** Without a seed it does: two states of the generator give two forests. *)
Lemma fit_unseeded_depends_on_generator :
  fit_trees (rs := Reference.lcg) 1 None 1%Z [[Finite 0]; [Finite 1]; [Finite 2]]
  <> fit_trees (rs := Reference.lcg) 1 None 2%Z [[Finite 0]; [Finite 1]; [Finite 2]].
Proof. vm_compute. discriminate. Qed.

(** C3. The script seeds the forest with [random_state=42], so two runs on
    the same table give the same trees, the same scores and the same flags,
    whatever the state of the ambient generator in each run; the same holds
    for fitting and scoring with any fixed seed. *)
Theorem scoring_is_deterministic
    (rt : Runtime) (rs : RandomState) (g1 g2 : rng) :
  (forall df_results : DataFrame,
     anomaly_detection.run g1 df_results = anomaly_detection.run g2 df_results) /\
  (forall (n : nat) (c : Q) (seed : Z) (X : list sample),
     fit_trees n (Some seed) g1 X = fit_trees n (Some seed) g2 X /\
     fit n c (Some seed) g1 X = fit n c (Some seed) g2 X).
Proof.
  split.
  - intros df_results. unfold anomaly_detection.run.
    destruct (anomaly_detection.scaled_matrix df_results) as [X|e]; [|reflexivity].
    simpl. unfold anomaly_detection.random_state.
    rewrite (fit_seeded _ _ _ g1 g2). reflexivity.
  - intros n c seed X. split; [reflexivity | apply fit_seeded].
Qed.

(** ** One-hot encoding *)

Lemma string_lt_lts (a b : string) :
  string_lt a b <-> OrderedTypeEx.String_as_OT.lt a b.
Proof.
  unfold string_lt, String.ltb. rewrite <- OrderedTypeEx.String_as_OT.cmp_lt.
  unfold OrderedTypeEx.String_as_OT.cmp.
  destruct (String.compare a b); split; congruence.
Qed.

Lemma string_lt_trans (a b c : string) :
  string_lt a b -> string_lt b c -> string_lt a c.
Proof.
  rewrite !string_lt_lts. apply OrderedTypeEx.String_as_OT.lt_trans.
Qed.

Lemma string_lt_irrefl (a : string) : ~ string_lt a a.
Proof.
  rewrite string_lt_lts. intros H.
  apply (OrderedTypeEx.String_as_OT.lt_not_eq a a H). reflexivity.
Qed.

Lemma leb_lts (a b : string) :
  String.leb a b = true <-> a = b \/ string_lt a b.
Proof.
  unfold string_lt, String.ltb, String.leb.
  destruct (String.compare a b) eqn:E.
  - apply OrderedTypeEx.String_as_OT.cmp_eq in E. tauto.
  - tauto.
  - split; [discriminate|]. intros [H|H]; [|discriminate].
    apply OrderedTypeEx.String_as_OT.cmp_eq in H.
    unfold OrderedTypeEx.String_as_OT.cmp in H. congruence.
Qed.

Lemma leb_false_lts (a b : string) :
  String.leb a b = false -> string_lt b a.
Proof.
  intros H. destruct (String.leb_total a b) as [E|E]; [congruence|].
  apply leb_lts in E. destruct E as [->|E]; [|exact E].
  assert (String.leb a a = true) by (apply leb_lts; auto). congruence.
Qed.

Lemma insert_string_strict (x : string) (l : list string) :
  StronglySorted string_lt l -> ~ In x l ->
  StronglySorted string_lt (insert_sorted String.leb x l).
Proof.
  induction 1 as [|y l Hs IH Hy]; simpl; intros Hx.
  - constructor; constructor.
  - destruct (String.leb x y) eqn:E.
    + assert (string_lt x y).
      { apply leb_lts in E. destruct E as [->|E]; [|exact E]. exfalso. apply Hx. auto. }
      constructor; [constructor; assumption|].
      constructor; [assumption|].
      eapply Forall_impl; [|exact Hy]. intros z Hz.
      eapply string_lt_trans; eauto.
    + apply leb_false_lts in E.
      constructor; [apply IH; intros H; apply Hx; auto|].
      eapply Permutation_Forall; [symmetry; apply insert_sorted_perm|].
      constructor; assumption.
Qed.

Lemma unique_In (l : list string) (x : string) :
  In x (unique String.eqb l) <-> In x l.
Proof.
  induction l as [|y l IH]; simpl; [tauto|].
  rewrite filter_In, IH, negb_true_iff, String.eqb_neq.
  destruct (string_dec y x); intuition congruence.
Qed.

Lemma unique_NoDup (l : list string) : NoDup (unique String.eqb l).
Proof.
  induction l as [|y l IH]; simpl; constructor.
  - rewrite filter_In, negb_true_iff, String.eqb_neq. tauto.
  - apply NoDup_filter. exact IH.
Qed.

Lemma sort_strings_strict (l : list string) :
  NoDup l -> StronglySorted string_lt (sort String.leb l).
Proof.
  induction 1 as [|x l Hx Hl IH]; simpl; [constructor|].
  apply insert_string_strict; [exact IH|].
  rewrite sort_In. exact Hx.
Qed.

(** On a text column the categories are the sorted distinct strings. *)
Lemma filter_notna_text (s : Series) :
  forallb text_or_missing s = true ->
  filter (fun k => negb (isna k)) s = map Str (strings_of s).
Proof.
  induction s as [|c s IH]; simpl; [reflexivity|].
  rewrite andb_true_iff. intros [Hc Hs].
  destruct c as [[q|b|]|v|b]; simpl in *; try discriminate; rewrite IH by assumption;
    reflexivity.
Qed.

Lemma filter_map_comm {A B} (f : B -> bool) (g : A -> B) (l : list A) :
  filter f (map g l) = map g (filter (fun a => f (g a)) l).
Proof.
  induction l as [|a l IH]; simpl; [reflexivity|].
  destruct (f (g a)); simpl; congruence.
Qed.

Lemma unique_map_Str (l : list string) :
  unique cell_eqb (map Str l) = map Str (unique String.eqb l).
Proof.
  induction l as [|x l IH]; simpl; [reflexivity|].
  rewrite IH, filter_map_comm. reflexivity.
Qed.

Lemma sort_map_Str (l : list string) :
  sort cell_leb (map Str l) = map Str (sort String.leb l).
Proof.
  induction l as [|x l IH]; simpl; [reflexivity|].
  rewrite IH. generalize (sort String.leb l). intros u.
  induction u as [|y u IHu]; simpl; [reflexivity|].
  destruct (String.leb x y); simpl; [reflexivity|]. f_equal. exact IHu.
Qed.

Lemma categories_text {rt : Runtime} (s : Series) :
  forallb text_or_missing s = true ->
  categories s = map Str (sort String.leb (unique String.eqb (strings_of s))).
Proof.
  intros H. unfold categories.
  rewrite (filter_notna_text s H), unique_map_Str, sort_map_Str. reflexivity.
Qed.

Lemma strings_of_In (s : Series) (v : string) :
  In v (strings_of s) <-> In (Str v) s.
Proof.
  unfold strings_of. rewrite in_flat_map. split.
  - intros (c & Hc & Hv). destruct c as [x|w|b]; simpl in Hv; try contradiction.
    destruct Hv as [->|[]]. exact Hc.
  - intros H. exists (Str v). simpl. auto.
Qed.

Lemma sorted_hd_not_in_tl (l : list string) :
  StronglySorted string_lt l ->
  match l with
  | [] => True
  | r :: l' => ~ In r l' /\ forall v, In v l' -> string_lt r v
  end.
Proof.
  destruct 1 as [|r l' Hs Hr]; [trivial|].
  rewrite Forall_forall in Hr. split; [|exact Hr].
  intros Hin. exact (string_lt_irrefl r (Hr r Hin)).
Qed.

Lemma select_has_cols (df : DataFrame) (cs : list string) :
  forallb (has_col df) cs = true -> exists sel, select df cs = Ok sel.
Proof.
  intros H. unfold select. apply mapM_ok_all. intros c Hc.
  rewrite forallb_forall in H. specialize (H c Hc).
  unfold has_col, get_col in *. destruct (lookup_col c df); [|discriminate].
  simpl. eauto.
Qed.

Lemma select_app (df : DataFrame) (cs1 cs2 : list string) (sel1 sel2 : DataFrame) :
  select df cs1 = Ok sel1 -> select df cs2 = Ok sel2 ->
  select df (cs1 ++ cs2) = Ok (sel1 ++ sel2).
Proof.
  unfold select. revert sel1. induction cs1 as [|c cs1 IH]; simpl; intros sel1 H1 H2.
  - injection H1 as <-. exact H2.
  - destruct (get_col df c) as [sc|e]; simpl in *; [|discriminate].
    destruct (mapM (fun c0 => s <- get_col df c0 ;; Ok (c0, s)) cs1) as [r|e] eqn:Er;
      simpl in *; [|discriminate].
    injection H1 as <-. rewrite (IH r eq_refl H2). reflexivity.
Qed.

Lemma select_cons (df sel : DataFrame) (c : string) (cs : list string) :
  select df (c :: cs) = Ok sel ->
  exists s sel', get_col df c = Ok s /\ select df cs = Ok sel' /\ sel = (c, s) :: sel'.
Proof.
  unfold select. cbn [mapM]. intros H.
  destruct (get_col df c) as [sc|e]; [|discriminate]. cbn [bind] in H.
  destruct (mapM _ cs) as [r|e]; [|discriminate]. cbn [bind] in H.
  injection H as <-. eauto.
Qed.

Lemma lookup_dummy_in (s : Series) (v : string) (l : list string) :
  In v l ->
  lookup_col ("state_" ++ v)
    (map (fun w => (("state_" ++ w)%string, indicator (Str w) s)) l)
  = Some (indicator (Str v) s).
Proof.
  induction l as [|w l IH]; simpl; [contradiction|].
  destruct (String.eqb_spec v w) as [->|Hne]; [reflexivity|].
  intros [E|Hin]; [congruence | auto].
Qed.

Lemma lookup_dummy_notin (s : Series) (v : string) (l : list string) :
  ~ In v l ->
  lookup_col ("state_" ++ v)
    (map (fun w => (("state_" ++ w)%string, indicator (Str w) s)) l)
  = None.
Proof.
  induction l as [|w l IH]; simpl; [reflexivity|].
  destruct (String.eqb_spec v w) as [->|Hne]; intros H; [exfalso; auto | auto].
Qed.

Lemma indicator_nth (level : cell) (s : Series) (i : nat) (c : cell) :
  nth_error s i = Some c ->
  nth_error (indicator level s) i = Some (Flag (cell_eqb level c)).
Proof. unfold indicator. intros H. rewrite nth_error_map, H. reflexivity. Qed.

Lemma cell_eqb_Str (v : string) (c : cell) :
  cell_eqb (Str v) c = true <-> c = Str v.
Proof.
  destruct c as [x|w|b]; simpl; try (split; [discriminate | congruence]).
  rewrite String.eqb_eq. split; congruence.
Qed.

(** C8. One-hot encoding of [state] leaves out exactly one of the observed
    categories, the first in sorted order, and gives every other observed
    category its own indicator column [state_<category>], whose value in a
    row is true exactly when the row has that category. *)
Theorem one_hot_drops_first_sorted_state
    (rt : Runtime) (df_results : DataFrame) (s : Series) :
  get_col df_results "state" = Ok s ->
  forallb text_or_missing s = true ->
  forallb (has_col df_results) anomaly_detection.features = true ->
  exists sel cats df_ml,
    select df_results anomaly_detection.features = Ok sel /\
    anomaly_detection.encode df_results = Ok df_ml /\
    df_ml = sel ++ map (fun v => (("state_" ++ v)%string, indicator (Str v) s)) (tl cats) /\
    StronglySorted string_lt cats /\
    (forall v, In v cats <-> In (Str v) s) /\
    (forall r, hd_error cats = Some r ->
       lookup_col ("state_" ++ r) df_ml = None /\
       forall v, In v cats -> v = r \/ string_lt r v) /\
    (forall v, In (Str v) s -> hd_error cats <> Some v ->
       lookup_col ("state_" ++ v) df_ml = Some (indicator (Str v) s)) /\
    (forall v i c, nth_error s i = Some c ->
       exists b, nth_error (indicator (Str v) s) i = Some (Flag b) /\
                 (b = true <-> c = Str v)) /\
    length df_ml = (length anomaly_detection.features + (length cats - 1))%nat.
Proof.
  intros Hs Htext Hcols.
  destruct (select_has_cols _ _ Hcols) as (sel & Hsel).
  set (cats := sort String.leb (unique String.eqb (strings_of s))).
  exists sel, cats. eexists. split; [exact Hsel|].
  assert (Hsorted : StronglySorted string_lt cats)
    by (apply sort_strings_strict, unique_NoDup).
  assert (Hin : forall v, In v cats <-> In (Str v) s).
  { intros v. unfold cats. rewrite sort_In, unique_In. apply strings_of_In. }
  (* the selected columns, one by one *)
  pose proof Hsel as Hsel'. unfold anomaly_detection.features in Hsel'.
  apply select_cons in Hsel'. destruct Hsel' as (s1 & r1 & _ & Hsel' & ->).
  apply select_cons in Hsel'. destruct Hsel' as (s2 & r2 & _ & Hsel' & ->).
  apply select_cons in Hsel'. destruct Hsel' as (s3 & r3 & _ & Hsel' & ->).
  apply select_cons in Hsel'. destruct Hsel' as (s4 & r4 & _ & Hsel' & ->).
  apply select_cons in Hsel'. destruct Hsel' as (s5 & r5 & _ & Hsel' & ->).
  injection Hsel' as <-.
  assert (Henc : anomaly_detection.encode df_results
     = Ok ([("Center_v_National_Gap"%string, s1); ("Center_Skewness"%string, s2);
            ("Center_Kurtosis"%string, s3); ("Ultra_High_Score_Ratio"%string, s4);
            ("total_students"%string, s5)]
           ++ map (fun v => (("state_" ++ v)%string, indicator (Str v) s)) (tl cats))).
  { unfold anomaly_detection.encode, anomaly_detection.scoring_input.
    assert (Hst : select df_results ["state"%string] = Ok [("state"%string, s)])
      by (unfold select; simpl; rewrite Hs; reflexivity).
    rewrite (select_app _ _ _ _ _ Hsel Hst). simpl.
    unfold get_dummies, get_col. simpl.
    unfold dummy_columns, dummy_levels. rewrite (categories_text s Htext).
    fold cats. destruct cats as [|r tl_cats]; simpl; [reflexivity|].
    rewrite map_map. reflexivity. }
  split; [exact Henc|]. split; [reflexivity|].
  split; [exact Hsorted|]. split; [exact Hin|].
  pose proof (sorted_hd_not_in_tl cats Hsorted) as Hhd.
  split; [|split; [|split]].
  - intros r Hr. destruct cats as [|r' tl_cats]; [discriminate|].
    injection Hr as ->. destruct Hhd as [Hnot Hlt]. split.
    + simpl. apply lookup_dummy_notin. exact Hnot.
    + intros v [->|Hv]; [left; reflexivity | right; auto].
  - intros v Hv Hne. apply Hin in Hv.
    destruct cats as [|r tl_cats]; [contradiction|].
    simpl. apply lookup_dummy_in.
    destruct Hv as [->|Hv]; [exfalso; apply Hne; reflexivity | exact Hv].
  - intros v i c Hc. eexists. split; [apply indicator_nth; exact Hc|].
    apply cell_eqb_Str.
  - rewrite length_app, length_map. simpl.
    destruct cats; simpl; lia.
Qed.

Lemma one_hot_drops_first_sorted_state_witness :
  exists df_ml,
    anomaly_detection.encode (rt := Reference.runtime true) Examples.four_centers = Ok df_ml /\
    columns df_ml = anomaly_detection.features ++ ["state_KA"%string; "state_MH"%string].
Proof.
  destruct (one_hot_drops_first_sorted_state (Reference.runtime true)
              Examples.four_centers [Str "KA"; Str "DL"; Str "KA"; Str "MH"]%string
              eq_refl eq_refl eq_refl)
    as (sel & cats & df_ml & _ & H & _).
  exists df_ml. split; [exact H|].
  vm_compute in H. injection H as <-. reflexivity.
Defined.

(** ** Moments of a group *)

Section MomentFacts.
Context {rt : Runtime}.

Lemma finite_values_no_inf (xs : list float) :
  forallb (fun x => negb (isinf x)) xs = true ->
  exists qs, finite_values (dropna xs) = Some qs.
Proof.
  induction xs as [|x xs IH]; simpl; [eauto|].
  rewrite andb_true_iff. intros [Hx Hxs]. destruct (IH Hxs) as (qs & Hqs).
  destruct x as [q|b|]; simpl in *; try discriminate; eauto.
  rewrite Hqs. simpl. eauto.
Qed.

Lemma nanstd_missing (xs : list float) :
  forallb (fun x => negb (isinf x)) xs = true ->
  (nanstd xs = NaN <-> (length (dropna xs) < 2)%nat).
Proof.
  intros H. destruct (finite_values_no_inf xs H) as (qs & Hqs).
  unfold nanstd. rewrite Hqs.
  destruct (Nat.leb_spec (length (dropna xs)) 1); split; intros; try lia;
    [reflexivity | discriminate].
Qed.

Lemma nanskew_missing (xs : list float) :
  forallb (fun x => negb (isinf x)) xs = true ->
  (nanskew xs = NaN <-> (length (dropna xs) < 3)%nat).
Proof.
  intros H. destruct (finite_values_no_inf xs H) as (qs & Hqs).
  unfold nanskew. rewrite Hqs.
  destruct (Nat.ltb_spec (length (dropna xs)) 3); split; intros; try lia;
    [reflexivity|].
  destruct (Qeq_bool _ 0); discriminate.
Qed.

Lemma nankurt_missing (xs : list float) :
  forallb (fun x => negb (isinf x)) xs = true ->
  (nankurt xs = NaN <-> (length (dropna xs) < 4)%nat).
Proof.
  intros H. destruct (finite_values_no_inf xs H) as (qs & Hqs).
  unfold nankurt. rewrite Hqs.
  destruct (Nat.ltb_spec (length (dropna xs)) 4); split; intros; try lia;
    [reflexivity|].
  destruct (Qeq_bool _ 0); discriminate.
Qed.

Lemma round_float_nan (d : nat) (x : float) : round_float d x = NaN <-> x = NaN.
Proof. destruct x; simpl; split; congruence. Qed.

Lemma group_of_no_inf (k : cell) (keys : Series) (vals : list float) :
  forallb (fun x => negb (isinf x)) vals = true ->
  forallb (fun x => negb (isinf x)) (group_of k keys vals) = true.
Proof.
  intros H. rewrite forallb_forall in *. intros x Hx. apply H.
  unfold group_of in Hx. apply in_map_iff in Hx.
  destruct Hx as ([k' x'] & <- & Hin). apply filter_In in Hin.
  destruct Hin as [Hin _]. apply in_combine_r in Hin. exact Hin.
Qed.

(** The aggregated frame, column by column. *)
Lemma aggregate_ok (df_marks : DataFrame) (keys cells : Series) (vals : list float) :
  get_col df_marks "center_id" = Ok keys ->
  get_col df_marks "marks" = Ok cells ->
  mapM (to_float not_numeric) cells = Ok vals ->
  master_data.aggregate df_marks =
  Ok [("center_id"%string, group_keys keys);
      ("Center_Std_Dev"%string,
       map (fun k => Num (nanstd (group_of k keys vals))) (group_keys keys));
      ("Center_Skewness"%string,
       map (fun k => Num (nanskew (group_of k keys vals))) (group_keys keys));
      ("Center_Kurtosis"%string,
       map (fun k => Num (nankurt (group_of k keys vals))) (group_keys keys))].
Proof.
  intros Hk Hc Hv. unfold master_data.aggregate, groupby_agg.
  rewrite Hk, Hc. simpl. rewrite Hv. reflexivity.
Qed.

(** Rounding the three moment columns of an aggregated frame. *)
Lemma round_moments_ok (ks l1 l2 l3 : Series) :
  length l1 = length ks -> length l2 = length ks -> length l3 = length ks ->
  round_columns 3 master_data.moment_columns
    [("center_id"%string, ks); ("Center_Std_Dev"%string, l1);
     ("Center_Skewness"%string, l2); ("Center_Kurtosis"%string, l3)]
  = Ok [("center_id"%string, ks);
        ("Center_Std_Dev"%string, map (round_cell 3) l1);
        ("Center_Skewness"%string, map (round_cell 3) l2);
        ("Center_Kurtosis"%string, map (round_cell 3) l3)].
Proof.
  intros H1 H2 H3. unfold master_data.moment_columns.
  set (r := map (round_cell 3)).
  assert (S1 : set_col
            [("center_id"%string, ks); ("Center_Std_Dev"%string, l1);
             ("Center_Skewness"%string, l2); ("Center_Kurtosis"%string, l3)]
            "Center_Std_Dev" (r l1)
          = Ok [("center_id"%string, ks); ("Center_Std_Dev"%string, r l1);
                ("Center_Skewness"%string, l2); ("Center_Kurtosis"%string, l3)]).
  { unfold set_col, r. cbn [nrows]. rewrite length_map, H1, Nat.eqb_refl. reflexivity. }
  assert (S2 : set_col
            [("center_id"%string, ks); ("Center_Std_Dev"%string, r l1);
             ("Center_Skewness"%string, l2); ("Center_Kurtosis"%string, l3)]
            "Center_Skewness" (r l2)
          = Ok [("center_id"%string, ks); ("Center_Std_Dev"%string, r l1);
                ("Center_Skewness"%string, r l2); ("Center_Kurtosis"%string, l3)]).
  { unfold set_col, r. cbn [nrows]. rewrite length_map, H2, Nat.eqb_refl. reflexivity. }
  assert (S3 : set_col
            [("center_id"%string, ks); ("Center_Std_Dev"%string, r l1);
             ("Center_Skewness"%string, r l2); ("Center_Kurtosis"%string, l3)]
            "Center_Kurtosis" (r l3)
          = Ok [("center_id"%string, ks); ("Center_Std_Dev"%string, r l1);
                ("Center_Skewness"%string, r l2); ("Center_Kurtosis"%string, r l3)]).
  { unfold set_col, r. cbn [nrows]. rewrite length_map, H3, Nat.eqb_refl. reflexivity. }
  cbn [round_columns].
  change (get_col _ "Center_Std_Dev") with (Ok l1). cbn [bind]. fold r. rewrite S1. cbn [bind].
  change (get_col _ "Center_Skewness") with (Ok l2). cbn [bind]. fold r. rewrite S2. cbn [bind].
  change (get_col _ "Center_Kurtosis") with (Ok l3). cbn [bind]. fold r. rewrite S3. reflexivity.
Qed.

Lemma rounded_moments_ok (df_marks : DataFrame) (keys cells : Series)
    (vals : list float) :
  get_col df_marks "center_id" = Ok keys ->
  get_col df_marks "marks" = Ok cells ->
  mapM (to_float not_numeric) cells = Ok vals ->
  master_data.rounded_moments df_marks =
  Ok [("center_id"%string, group_keys keys);
      ("Center_Std_Dev"%string,
       map (fun k => Num (round_float 3 (nanstd (group_of k keys vals))))
           (group_keys keys));
      ("Center_Skewness"%string,
       map (fun k => Num (round_float 3 (nanskew (group_of k keys vals))))
           (group_keys keys));
      ("Center_Kurtosis"%string,
       map (fun k => Num (round_float 3 (nankurt (group_of k keys vals))))
           (group_keys keys))].
Proof.
  intros Hk Hc Hv. unfold master_data.rounded_moments.
  rewrite (aggregate_ok df_marks keys cells vals Hk Hc Hv). cbn [bind].
  rewrite round_moments_ok by apply length_map.
  rewrite !map_map. reflexivity.
Qed.

End MomentFacts.

(** C4. In the aggregated frame a moment of a center is missing (NaN, not
    zero) exactly when the center has too few marks: the standard deviation
    for fewer than 2 marks, the skewness for fewer than 3, the kurtosis for
    fewer than 4; a center with two marks has a standard deviation and
    neither skewness nor kurtosis.  The marks counted are the non-missing
    ones, all of them finite numbers. *)
Theorem moments_missing_exactly_for_small_groups
    (rt : Runtime) (df_marks : DataFrame) (keys cells : Series) (vals : list float) :
  get_col df_marks "center_id" = Ok keys ->
  get_col df_marks "marks" = Ok cells ->
  mapM (to_float not_numeric) cells = Ok vals ->
  forallb (fun x => negb (isinf x)) vals = true ->
  exists agg,
    master_data.rounded_moments df_marks = Ok agg /\
    lookup_col "center_id" agg = Some (group_keys keys) /\
    forall i k, nth_error (group_keys keys) i = Some k ->
      let n := length (dropna (group_of k keys vals)) in
      exists sd sk ku,
        at_ agg i "Center_Std_Dev" = Some (Num sd) /\
        at_ agg i "Center_Skewness" = Some (Num sk) /\
        at_ agg i "Center_Kurtosis" = Some (Num ku) /\
        (sd = NaN <-> (n < 2)%nat) /\
        (sk = NaN <-> (n < 3)%nat) /\
        (ku = NaN <-> (n < 4)%nat) /\
        (n = 2%nat -> sd <> NaN /\ sk = NaN /\ ku = NaN).
Proof.
  intros Hk Hc Hv Hfin. eexists.
  split; [apply (rounded_moments_ok df_marks keys cells vals Hk Hc Hv)|].
  split; [reflexivity|].
  intros i k Hi n.
  pose proof (group_of_no_inf k keys vals Hfin) as Hg.
  exists (round_float 3 (nanstd (group_of k keys vals))),
         (round_float 3 (nanskew (group_of k keys vals))),
         (round_float 3 (nankurt (group_of k keys vals))).
  assert (Hsd : round_float 3 (nanstd (group_of k keys vals)) = NaN <-> (n < 2)%nat)
    by (rewrite round_float_nan; apply nanstd_missing; exact Hg).
  assert (Hsk : round_float 3 (nanskew (group_of k keys vals)) = NaN <-> (n < 3)%nat)
    by (rewrite round_float_nan; apply nanskew_missing; exact Hg).
  assert (Hku : round_float 3 (nankurt (group_of k keys vals)) = NaN <-> (n < 4)%nat)
    by (rewrite round_float_nan; apply nankurt_missing; exact Hg).
  unfold at_. cbn [lookup_col String.eqb Ascii.eqb Bool.eqb].
  rewrite !nth_error_map, Hi. cbn [option_map].
  repeat split; try tauto.
  - intros E. apply Hsd in E. lia.
  - apply Hsk. lia.
  - apply Hku. lia.
Qed.

Lemma moments_missing_exactly_for_small_groups_witness :
  exists agg,
    master_data.rounded_moments (rt := Reference.runtime true) Examples.student_marks
      = Ok agg /\
    exists sd, at_ agg 1 "Center_Std_Dev" = Some (Num sd) /\ sd <> NaN /\
    at_ agg 1 "Center_Skewness" = Some (Num NaN) /\
    at_ agg 1 "Center_Kurtosis" = Some (Num NaN).
Proof.
  destruct (moments_missing_exactly_for_small_groups (Reference.runtime true)
              Examples.student_marks
              (map Examples.num [10; 10; 10; 10; 20; 20; 30; 30; 30]%Z)
              (map Examples.num [100; 200; 400; 800; 300; 500; 600; 610; 650]%Z)
              (map (fun z => Finite (inject_Z z))
                   [100; 200; 400; 800; 300; 500; 600; 610; 650]%Z)
              eq_refl eq_refl eq_refl eq_refl)
    as (agg & Hagg & _ & H).
  exists agg. split; [exact Hagg|].
  destruct (H 1%nat (Examples.num 20) eq_refl) as (sd & sk & ku & H1 & H2 & H3 & _ & _ & _ & H4).
  destruct (H4 eq_refl) as (Hsd & -> & ->).
  exists sd. auto.
Defined.

(** ** The left merge onto group-by output *)

Lemma float_eqb_sym (x y : float) : float_eqb x y = float_eqb y x.
Proof.
  destruct x as [a|s|], y as [b|t|]; simpl; try reflexivity.
  - destruct (Qeq_bool a b) eqn:E, (Qeq_bool b a) eqn:E'; try reflexivity.
    + apply Qeq_bool_iff in E. apply Qeq_bool_neq in E'. exfalso. apply E'. symmetry. exact E.
    + apply Qeq_bool_iff in E'. apply Qeq_bool_neq in E. exfalso. apply E. symmetry. exact E'.
  - destruct s, t; reflexivity.
Qed.

Lemma float_eqb_trans (x y z : float) :
  float_eqb x y = true -> float_eqb y z = true -> float_eqb x z = true.
Proof.
  destruct x as [a|s|], y as [b|t|], z as [c|u|]; simpl; try discriminate.
  - rewrite !Qeq_bool_iff. intros H1 H2. rewrite H1. exact H2.
  - destruct s, t, u; simpl; congruence.
Qed.

Lemma cell_eqb_sym (a b : cell) : cell_eqb a b = cell_eqb b a.
Proof.
  destruct a as [x|s|p], b as [y|t|q]; simpl; try reflexivity.
  - apply float_eqb_sym.
  - apply String.eqb_sym.
  - destruct p, q; reflexivity.
Qed.

Lemma cell_eqb_trans (a b c : cell) :
  cell_eqb a b = true -> cell_eqb b c = true -> cell_eqb a c = true.
Proof.
  destruct a as [x|s|p], b as [y|t|q], c as [z|u|r]; simpl; try discriminate.
  - apply float_eqb_trans.
  - rewrite !String.eqb_eq. congruence.
  - destruct p, q, r; simpl; congruence.
Qed.

Lemma filter_length_le {A} (f : A -> bool) (l : list A) :
  (length (filter f l) <= length l)%nat.
Proof. induction l as [|a l IH]; simpl; [lia|]. destruct (f a); simpl; lia. Qed.

Lemma filter_filter_length {A} (f g : A -> bool) (l : list A) :
  (length (filter f (filter g l)) <= length (filter f l))%nat.
Proof.
  induction l as [|a l IH]; simpl; [lia|].
  destruct (g a), (f a) eqn:E; simpl; try rewrite E; simpl; lia.
Qed.

(** A key matches at most one of the distinct values. *)
Lemma unique_matches_once (k : cell) (l : list cell) :
  (length (filter (cell_eqb k) (unique cell_eqb l)) <= 1)%nat.
Proof.
  induction l as [|x l IH]; simpl; [lia|].
  destruct (cell_eqb k x) eqn:E; simpl.
  - assert (H : filter (cell_eqb k) (filter (fun y => negb (cell_eqb x y)) (unique cell_eqb l)) = []).
    { induction (unique cell_eqb l) as [|y u IHu]; simpl; [reflexivity|].
      destruct (cell_eqb x y) eqn:Exy; simpl.
      - apply IHu. simpl in IH. destruct (cell_eqb k y); simpl in IH; lia.
      - destruct (cell_eqb k y) eqn:Eky.
        + rewrite cell_eqb_sym in E. rewrite (cell_eqb_trans x k y E Eky) in Exy.
          discriminate.
        + apply IHu. simpl in IH. rewrite Eky in IH. exact IH. }
    rewrite H. simpl. lia.
  - pose proof (filter_filter_length (cell_eqb k) (fun y => negb (cell_eqb x y))
                  (unique cell_eqb l)). lia.
Qed.

Lemma filter_perm_length {A} (f : A -> bool) (l l' : list A) :
  Permutation l l' -> length (filter f l) = length (filter f l').
Proof.
  induction 1; simpl; try congruence.
  - destruct (f x); simpl; congruence.
  - destruct (f x), (f y); reflexivity.
Qed.

Lemma find_all_length {A} (p : A -> bool) (l : list A) (j : nat) :
  length (find_all p l j) = length (filter p l).
Proof.
  revert j. induction l as [|x l IH]; intros j; simpl; [reflexivity|].
  destruct (p x); simpl; rewrite IH; reflexivity.
Qed.

Lemma group_keys_notna (keys : Series) (r : cell) :
  In r (group_keys keys) -> isna r = false /\ In r keys.
Proof.
  unfold group_keys. rewrite sort_In. intros H.
  assert (Hin : forall l, In r (unique cell_eqb l) -> In r l).
  { induction l as [|x l IH]; simpl; [tauto|].
    intros [->|Hf]; [auto|]. apply filter_In in Hf. right. apply IH. tauto. }
  apply Hin in H. apply filter_In in H. destruct H as [H1 H2].
  apply negb_true_iff in H2. auto.
Qed.

Lemma group_keys_match_once (k : cell) (keys : Series) :
  (length (find_all (merge_key_eqb k) (group_keys keys) 0) <= 1)%nat.
Proof.
  rewrite find_all_length.
  assert (E : filter (merge_key_eqb k) (group_keys keys)
              = filter (cell_eqb k) (group_keys keys)).
  { apply filter_ext_in. intros r Hr. apply group_keys_notna in Hr.
    unfold merge_key_eqb. destruct Hr as [-> _]. rewrite andb_false_r. reflexivity. }
  rewrite E. unfold group_keys.
  rewrite (filter_perm_length (cell_eqb k) _ _ (sort_perm cell_leb _)).
  apply unique_matches_once.
Qed.

Lemma group_keys_no_match (k : cell) (keys : Series) :
  (forall r, In r keys -> cell_eqb k r = false) ->
  find_all (merge_key_eqb k) (group_keys keys) 0 = [].
Proof.
  intros H. apply length_zero_iff_nil. rewrite find_all_length.
  apply length_zero_iff_nil.
  assert (Hall : forall l, (forall r, In r l -> merge_key_eqb k r = false) ->
                           filter (merge_key_eqb k) l = []).
  { induction l as [|x l IH]; simpl; intros Hl; [reflexivity|].
    rewrite (Hl x (or_introl eq_refl)). apply IH. intros; apply Hl; auto. }
  apply Hall. intros r Hr. apply group_keys_notna in Hr. destruct Hr as [Hna Hin].
  unfold merge_key_eqb. rewrite Hna, andb_false_r. simpl. apply H. exact Hin.
Qed.

Lemma indexed_fst {A} (l : list A) : map fst (indexed l) = seq 0 (length l).
Proof.
  unfold indexed. generalize 0%nat as j.
  induction l as [|x l IH]; intros j; simpl; [reflexivity|]. rewrite IH. reflexivity.
Qed.

Lemma indexed_nth_error {A} (l : list A) (i : nat) (x : A) :
  nth_error l i = Some x -> nth_error (indexed l) i = Some (i, x).
Proof.
  unfold indexed.
  assert (H : forall j, nth_error l i = Some x ->
                        nth_error (combine (seq j (length l)) l) i = Some ((j + i)%nat, x)).
  { revert i. induction l as [|y l IH]; intros i j Hi; destruct i as [|i];
      simpl in *; try discriminate.
    - injection Hi as ->. rewrite Nat.add_0_r. reflexivity.
    - rewrite (IH i (S j) Hi). f_equal. f_equal. lia. }
  apply (H 0%nat).
Qed.

Lemma map_nth_seq {A} (s : list A) (d : A) :
  map (fun i => nth i s d) (seq 0 (length s)) = s.
Proof.
  induction s as [|a s IH]; simpl; [reflexivity|].
  f_equal. rewrite <- seq_shift, map_map. exact IH.
Qed.

Lemma flat_map_singleton {A B} (f : A -> list B) (g : A -> B) (l : list A) :
  (forall x, f x = [g x]) -> flat_map f l = map g l.
Proof.
  intros H. induction l as [|x l IH]; simpl; [reflexivity|].
  rewrite H, IH. reflexivity.
Qed.

(** When every key has at most one match, the plan has one entry per left
    row, in order. *)
Lemma join_plan_single (lk rk : Series) :
  (forall k, (length (find_all (merge_key_eqb k) rk 0) <= 1)%nat) ->
  join_plan lk rk =
  map (fun ik => (fst ik, hd_error (find_all (merge_key_eqb (snd ik)) rk 0)))
      (indexed lk).
Proof.
  intros H. unfold join_plan. apply flat_map_singleton.
  intros ik. specialize (H (snd ik)).
  destruct (find_all (merge_key_eqb (snd ik)) rk 0) as [|j [|j' js]]; simpl in *;
    [reflexivity | reflexivity | lia].
Qed.

Lemma take_left_single (lk rk s : Series) :
  (forall k, (length (find_all (merge_key_eqb k) rk 0) <= 1)%nat) ->
  length s = length lk ->
  take_left (join_plan lk rk) s = s.
Proof.
  intros H Hlen. unfold take_left. rewrite (join_plan_single lk rk H), map_map.
  simpl. rewrite <- (map_map fst (fun i => nth i s missing)), indexed_fst, <- Hlen.
  apply map_nth_seq.
Qed.

Lemma take_right_unmatched (lk rk s : Series) (i : nat) (k : cell) :
  (forall k, (length (find_all (merge_key_eqb k) rk 0) <= 1)%nat) ->
  nth_error lk i = Some k ->
  find_all (merge_key_eqb k) rk 0 = [] ->
  nth_error (take_right (join_plan lk rk) s) i = Some missing.
Proof.
  intros H Hi Hk. unfold take_right. rewrite (join_plan_single lk rk H), map_map.
  rewrite nth_error_map, (indexed_nth_error lk i k Hi). simpl. rewrite Hk. reflexivity.
Qed.

Lemma take_right_length (plan : list (nat * option nat)) (s : Series) :
  length (take_right plan s) = length plan.
Proof. apply length_map. Qed.

Lemma app_nonempty {A} (l d : list A) : l <> [] -> l ++ d <> [].
Proof. intros H E. apply app_eq_nil in E. tauto. Qed.

(** The derived metrics are appended to a frame that has none of them. *)
Lemma add_metrics_fresh (df df' : DataFrame) :
  forallb (fun c => negb (has_col df c)) master_data.metric_columns = true ->
  master_data.add_metrics df = Ok df' ->
  exists v1 v2 v3 v4,
    df' = df ++ [("Ultra_High_Score_Ratio"%string, v1); ("High_Score_Ratio"%string, v2);
                 ("Center_v_National_Gap"%string, v3); ("Center_v_State_Gap"%string, v4)] /\
    length v1 = nrows df /\ length v2 = nrows df /\
    length v3 = nrows df /\ length v4 = nrows df /\
    exists a700 tot,
      get_col df "above_700_marks" = Ok a700 /\
      get_col df "total_students" = Ok tot /\
      series_div a700 tot = Ok v1.
Proof.
  intros Hfresh H. simpl in Hfresh.
  rewrite !andb_true_iff, !negb_true_iff in Hfresh.
  destruct Hfresh as (F1 & F2 & F3 & F4 & _).
  unfold master_data.add_metrics in H.
  apply bind_ok in H. destruct H as (a700 & Ea & H).
  assert (Hne : df <> []) by (eapply get_col_nonempty; exact Ea).
  apply bind_ok in H. destruct H as (tot & Et & H).
  apply bind_ok in H. destruct H as (v1 & Ev & H).
  apply bind_ok in H. destruct H as (df1 & S1 & H).
  pose proof (set_col_length _ _ _ _ Hne S1) as L1.
  apply set_col_fresh in S1; [|exact F1]. subst df1.
  apply bind_ok in H. destruct H as (a600 & _ & H).
  apply bind_ok in H. destruct H as (a700' & _ & H).
  apply bind_ok in H. destruct H as (sm & _ & H).
  apply bind_ok in H. destruct H as (tot' & _ & H).
  apply bind_ok in H. destruct H as (v2 & _ & H).
  apply bind_ok in H. destruct H as (df2 & S2 & H).
  assert (N1 : forall d, nrows (df ++ d) = nrows df)
    by (intros d; destruct df; [congruence | reflexivity]).
  pose proof (set_col_length _ _ _ _ (app_nonempty _ _ Hne) S2) as L2.
  rewrite N1 in L2.
  apply set_col_fresh in S2; [|rewrite has_col_app, F2; reflexivity]. subst df2.
  apply bind_ok in H. destruct H as (ca & _ & H).
  apply bind_ok in H. destruct H as (na & _ & H).
  apply bind_ok in H. destruct H as (v3 & _ & H).
  apply bind_ok in H. destruct H as (df3 & S3 & H).
  pose proof (set_col_length _ _ _ _ (app_nonempty _ _ (app_nonempty _ _ Hne)) S3) as L3.
  rewrite <- app_assoc, N1 in L3.
  apply set_col_fresh in S3; [|rewrite !has_col_app, F3; reflexivity]. subst df3.
  apply bind_ok in H. destruct H as (ca' & _ & H).
  apply bind_ok in H. destruct H as (sa & _ & H).
  apply bind_ok in H. destruct H as (v4 & _ & S4).
  pose proof (set_col_length _ _ _ _
    (app_nonempty _ _ (app_nonempty _ _ (app_nonempty _ _ Hne))) S4) as L4.
  rewrite <- !app_assoc, N1 in L4.
  apply set_col_fresh in S4; [|rewrite !has_col_app, F4; reflexivity]. subst df'.
  exists v1, v2, v3, v4. rewrite <- !app_assoc. simpl.
  repeat split; try assumption. exists a700, tot. auto.
Qed.

Lemma lookup_filter_other (c : string) (cs : list string) (df : DataFrame) :
  mem_string c cs = false ->
  lookup_col c (filter (fun p => negb (mem_string (fst p) cs)) df) = lookup_col c df.
Proof.
  intros Hc. induction df as [|[c' s'] df IH]; simpl; [reflexivity|].
  destruct (mem_string c' cs) eqn:E; simpl.
  - destruct (String.eqb_spec c c') as [->|Hne]; [congruence | exact IH].
  - destruct (String.eqb c c'); [reflexivity | exact IH].
Qed.

Lemma drop_columns_get (df df' : DataFrame) (cs : list string) (c : string) :
  drop_columns df cs = Ok df' -> mem_string c cs = false ->
  get_col df' c = get_col df c.
Proof.
  unfold drop_columns. intros H Hc. inv_bind. subst df'.
  unfold get_col. rewrite lookup_filter_other by exact Hc. reflexivity.
Qed.

Lemma rounded_moments_inv {rt : Runtime} (dm agg : DataFrame) :
  master_data.rounded_moments dm = Ok agg ->
  exists keys cells vals,
    get_col dm "center_id" = Ok keys /\
    get_col dm "marks" = Ok cells /\
    mapM (to_float not_numeric) cells = Ok vals /\
    agg = [("center_id"%string, group_keys keys);
           ("Center_Std_Dev"%string,
            map (fun k => Num (round_float 3 (nanstd (group_of k keys vals))))
                (group_keys keys));
           ("Center_Skewness"%string,
            map (fun k => Num (round_float 3 (nanskew (group_of k keys vals))))
                (group_keys keys));
           ("Center_Kurtosis"%string,
            map (fun k => Num (round_float 3 (nankurt (group_of k keys vals))))
                (group_keys keys))].
Proof.
  intros H. pose proof H as H'.
  unfold master_data.rounded_moments, master_data.aggregate, groupby_agg in H'.
  apply bind_ok in H'. destruct H' as (a & Ha & _).
  apply bind_ok in Ha. destruct Ha as (keys & Hk & Ha).
  apply bind_ok in Ha. destruct Ha as (cells & Hc & Ha).
  apply bind_ok in Ha. destruct Ha as (vals & Hv & _).
  exists keys, cells, vals. repeat split; try assumption.
  rewrite (rounded_moments_ok dm keys cells vals Hk Hc Hv) in H.
  injection H as <-. reflexivity.
Qed.

Lemma aligned_length (df : DataFrame) (c : string) (s : Series) :
  aligned df = true -> lookup_col c df = Some s -> length s = nrows df.
Proof.
  unfold aligned. rewrite forallb_forall. intros H Hc.
  apply lookup_col_In in Hc. specialize (H _ Hc). simpl in H.
  apply Nat.eqb_eq. exact H.
Qed.

(** Merging a frame onto the aggregated moments keeps the frame as it is
    and appends the three moment columns, row by row. *)
Lemma merge_onto_moments (left : DataFrame) (ids ks l1 l2 l3 : Series) :
  get_col left "center_id" = Ok ids ->
  aligned left = true ->
  forallb (fun c => negb (has_col left c)) master_data.moment_columns = true ->
  (forall k, (length (find_all (merge_key_eqb k) ks 0) <= 1)%nat) ->
  merge_left left
    [("center_id"%string, ks); ("Center_Std_Dev"%string, l1);
     ("Center_Skewness"%string, l2); ("Center_Kurtosis"%string, l3)] "center_id"
  = Ok (left ++ [("Center_Std_Dev"%string, take_right (join_plan ids ks) l1);
                 ("Center_Skewness"%string, take_right (join_plan ids ks) l2);
                 ("Center_Kurtosis"%string, take_right (join_plan ids ks) l3)]).
Proof.
  intros Hids Hal Hfresh Hone. simpl in Hfresh.
  rewrite !andb_true_iff, !negb_true_iff in Hfresh. destruct Hfresh as (F1 & F2 & F3 & _).
  unfold merge_left. rewrite Hids. cbn [bind].
  change (get_col _ "center_id") with (Ok ks). cbn [bind].
  f_equal. f_equal.
  - assert (Hn : length ids = nrows left)
      by (apply (aligned_length left "center_id"); [exact Hal | apply get_col_ok; exact Hids]).
    assert (Hmap : forall l : DataFrame,
      (forall p, In p l -> has_col left (fst p) = true /\ length (snd p) = length ids) ->
      map (fun p =>
             ((if has_col left (fst p)
                  && has_col [("center_id"%string, ks); ("Center_Std_Dev"%string, l1);
                              ("Center_Skewness"%string, l2);
                              ("Center_Kurtosis"%string, l3)] (fst p)
                  && negb (String.eqb (fst p) "center_id")
               then (fst p ++ "_x")%string else fst p),
              take_left (join_plan ids ks) (snd p))) l = l).
    { induction l as [|[c s] l IH]; intros Hl; [reflexivity|].
      cbn [map fst snd]. rewrite IH by (intros; apply Hl; right; assumption).
      destruct (Hl (c, s) (or_introl eq_refl)) as [Hc Hs]. cbn [fst snd] in Hc, Hs.
      rewrite (take_left_single ids ks s Hone Hs).
      replace (has_col left c && _ && _) with false; [reflexivity|].
      unfold has_col at 2. cbn [lookup_col].
      destruct (String.eqb_spec c "center_id") as [->|N0];
        [rewrite andb_false_r; reflexivity|].
      destruct (String.eqb_spec c "Center_Std_Dev") as [->|N1]; [congruence|].
      destruct (String.eqb_spec c "Center_Skewness") as [->|N2]; [congruence|].
      destruct (String.eqb_spec c "Center_Kurtosis") as [->|N3]; [congruence|].
      rewrite andb_false_r. reflexivity. }
    apply Hmap. intros [c s] Hp. cbn [fst snd]. split.
    + unfold has_col. destruct (lookup_col c left) eqn:E; [reflexivity|].
      apply lookup_col_columns in E. exfalso. apply E.
      change c with (fst (c, s)). apply in_map. exact Hp.
    + unfold aligned in Hal. rewrite forallb_forall in Hal.
      specialize (Hal _ Hp). apply Nat.eqb_eq in Hal. simpl in Hal. lia.
  - cbn [filter fst snd String.eqb Ascii.eqb Bool.eqb negb map].
    rewrite F1, F2, F3. reflexivity.
Qed.

Lemma aligned_app (df extra : DataFrame) :
  df <> [] -> aligned df = true ->
  forallb (fun p => Nat.eqb (length (snd p)) (nrows df)) extra = true ->
  aligned (df ++ extra) = true.
Proof.
  intros Hne Hal Hex. unfold aligned in *.
  assert (N : nrows (df ++ extra) = nrows df)
    by (destruct df; [congruence | reflexivity]).
  rewrite forallb_forall in *. intros p Hp. rewrite N.
  apply in_app_or in Hp. destruct Hp; auto.
Qed.

(** The shape of the master frame: the center-stats frame, the four
    metrics, the three rounded moments. *)
Lemma master_run_inv {rt : Runtime} (df_marks df_center_stats df_master : DataFrame) :
  master_data.run df_marks df_center_stats = Ok df_master ->
  aligned df_center_stats = true ->
  forallb (fun c => negb (has_col df_center_stats c))
          (master_data.metric_columns ++ master_data.moment_columns) = true ->
  exists ids keys cells vals metrics,
    get_col df_center_stats "center_id" = Ok ids /\
    get_col df_marks "center_id" = Ok keys /\
    get_col df_marks "marks" = Ok cells /\
    mapM (to_float not_numeric) cells = Ok vals /\
    master_data.add_metrics df_center_stats = Ok (df_center_stats ++ metrics) /\
    columns metrics = master_data.metric_columns /\
    df_master =
      (df_center_stats ++ metrics)
      ++ [("Center_Std_Dev"%string,
           take_right (join_plan ids (group_keys keys))
             (map (fun k => Num (round_float 3 (nanstd (group_of k keys vals))))
                  (group_keys keys)));
          ("Center_Skewness"%string,
           take_right (join_plan ids (group_keys keys))
             (map (fun k => Num (round_float 3 (nanskew (group_of k keys vals))))
                  (group_keys keys)));
          ("Center_Kurtosis"%string,
           take_right (join_plan ids (group_keys keys))
             (map (fun k => Num (round_float 3 (nankurt (group_of k keys vals))))
                  (group_keys keys)))].
Proof.
  intros Hrun Hal Hfresh. rewrite forallb_app, andb_true_iff in Hfresh.
  destruct Hfresh as [Fmet Fmom].
  unfold master_data.run in Hrun.
  apply bind_ok in Hrun. destruct Hrun as (dm & Hdrop & Hrun).
  apply bind_ok in Hrun. destruct Hrun as (agg & Hagg & Hrun).
  apply bind_ok in Hrun. destruct Hrun as (cs' & Hmet & Hrun).
  apply bind_ok in Hrun. destruct Hrun as (merged & Hmerge & Hrun).
  apply bind_ok in Hrun. destruct Hrun as (shown & _ & Hrun).
  apply bind_ok in Hrun. destruct Hrun as (u & _ & Hrun). injection Hrun as <-.
  destruct (rounded_moments_inv dm agg Hagg) as (keys & cells & vals & Hk & Hc & Hv & ->).
  rewrite (drop_columns_get df_marks dm _ "center_id" Hdrop eq_refl) in Hk.
  rewrite (drop_columns_get df_marks dm _ "marks" Hdrop eq_refl) in Hc.
  destruct (add_metrics_fresh _ _ Fmet Hmet)
    as (v1 & v2 & v3 & v4 & -> & L1 & L2 & L3 & L4 & _).
  pose proof Hmerge as Hm. unfold merge_left in Hm.
  apply bind_ok in Hm. destruct Hm as (ids & Hids & _).
  assert (Hne : df_center_stats <> []).
  { intros ->. simpl in Hmet. discriminate. }
  assert (Hids0 : get_col df_center_stats "center_id" = Ok ids).
  { unfold get_col in *. rewrite lookup_col_app in Hids.
    destruct (lookup_col "center_id" df_center_stats); [exact Hids | discriminate]. }
  exists ids, keys, cells, vals. eexists.
  repeat split; try eassumption; try reflexivity.
  rewrite merge_onto_moments with (ids := ids) in Hmerge.
  - injection Hmerge as <-. reflexivity.
  - exact Hids.
  - apply aligned_app; [exact Hne | exact Hal |].
    simpl. rewrite L1, L2, L3, L4, !Nat.eqb_refl. reflexivity.
  - simpl in Fmom. rewrite !andb_true_iff, !negb_true_iff in Fmom.
    destruct Fmom as (F1 & F2 & F3 & _).
    simpl. rewrite !has_col_app, F1, F2, F3. reflexivity.
  - intros k. apply group_keys_match_once.
Qed.

Lemma master_frame_aligned {rt : Runtime}
    (df_marks df_center_stats df_master : DataFrame) :
  master_data.run df_marks df_center_stats = Ok df_master ->
  aligned df_center_stats = true ->
  forallb (fun c => negb (has_col df_center_stats c))
          (master_data.metric_columns ++ master_data.moment_columns) = true ->
  aligned df_master = true /\ nrows df_master = nrows df_center_stats.
Proof.
  intros Hrun Hal Hfresh.
  destruct (master_run_inv df_marks df_center_stats df_master Hrun Hal Hfresh)
    as (ids & keys & cells & vals & metrics & Hids & Hk & Hc & Hv & Hmet & Hcols & ->).
  rewrite forallb_app, andb_true_iff in Hfresh. destruct Hfresh as [Fmet Fmom].
  assert (Hne : df_center_stats <> []) by (eapply get_col_nonempty; exact Hids).
  assert (Hlen : length ids = nrows df_center_stats)
    by (apply (aligned_length _ "center_id"); [exact Hal | apply get_col_ok; exact Hids]).
  assert (Hplan : length (join_plan ids (group_keys keys)) = length ids).
  { rewrite join_plan_single by (intros; apply group_keys_match_once).
    rewrite length_map. unfold indexed. rewrite length_combine, length_seq. lia. }
  split.
  - destruct (add_metrics_fresh _ _ Fmet Hmet)
      as (v1 & v2 & v3 & v4 & E & L1 & L2 & L3 & L4 & _).
    apply app_inv_head in E. subst metrics.
    rewrite <- app_assoc. apply aligned_app; [exact Hne | exact Hal |].
    simpl. rewrite !take_right_length, Hplan, Hlen, L1, L2, L3, L4, !Nat.eqb_refl.
    reflexivity.
  - rewrite <- app_assoc. destruct df_center_stats; [congruence | reflexivity].
Qed.

(** C10. The master merge keeps every center-stats row exactly once, in
    order and with its values: a center without any student mark is in the
    master frame with its three moments missing, and the [center_id] column
    of the master frame is that of the center-stats frame, so no aggregated
    row without a center-stats row gets in.  This holds whether or not the
    [center_id] values of the center-stats frame are distinct. *)
Theorem master_merge_keeps_center_rows
    (rt : Runtime) (df_marks df_center_stats df_master : DataFrame) :
  master_data.run df_marks df_center_stats = Ok df_master ->
  aligned df_center_stats = true ->
  forallb (fun c => negb (has_col df_center_stats c))
          (master_data.metric_columns ++ master_data.moment_columns) = true ->
  exists ids keys,
    get_col df_center_stats "center_id" = Ok ids /\
    get_col df_marks "center_id" = Ok keys /\
    nrows df_master = nrows df_center_stats /\
    aligned df_master = true /\
    (forall c s, lookup_col c df_center_stats = Some s -> lookup_col c df_master = Some s) /\
    lookup_col "center_id" df_master = Some ids /\
    (forall i k, at_ df_master i "center_id" = Some k -> nth_error ids i = Some k) /\
    (forall i id, nth_error ids i = Some id ->
       (forall k, In k keys -> cell_eqb id k = false) ->
       at_ df_master i "Center_Std_Dev" = Some missing /\
       at_ df_master i "Center_Skewness" = Some missing /\
       at_ df_master i "Center_Kurtosis" = Some missing).
Proof.
  intros Hrun Hal Hfresh.
  destruct (master_run_inv df_marks df_center_stats df_master Hrun Hal Hfresh)
    as (ids & keys & cells & vals & metrics & Hids & Hk & Hc & Hv & Hmet & Hcols & ->).
  rewrite forallb_app, andb_true_iff in Hfresh. destruct Hfresh as [Fmet Fmom].
  simpl in Fmom. rewrite !andb_true_iff, !negb_true_iff in Fmom.
  destruct Fmom as (F1 & F2 & F3 & _).
  assert (Hne : df_center_stats <> []) by (eapply get_col_nonempty; exact Hids).
  assert (Hmetrics : forall c, In c master_data.moment_columns ->
                               lookup_col c metrics = None).
  { intros c Hc'. apply lookup_col_columns. rewrite Hcols.
    simpl in Hc'. simpl. intuition (subst; discriminate). }
  assert (Hlen : length ids = nrows df_center_stats)
    by (apply (aligned_length _ "center_id"); [exact Hal | apply get_col_ok; exact Hids]).
  assert (Hplan : length (join_plan ids (group_keys keys)) = length ids).
  { rewrite join_plan_single by (intros; apply group_keys_match_once).
    rewrite length_map. unfold indexed. rewrite length_combine, length_seq. lia. }
  exists ids, keys. split; [exact Hids|]. split; [exact Hk|].
  match goal with
  | |- context [(df_center_stats ++ metrics) ++ ?m] => set (moments := m) in *
  end.
  assert (Hcenter : lookup_col "center_id"
            ((df_center_stats ++ metrics) ++ moments) = Some ids).
  { rewrite <- app_assoc, lookup_col_app. apply get_col_ok in Hids. rewrite Hids. reflexivity. }
  split; [|split; [|split; [|split; [exact Hcenter |split]]]].
  - rewrite <- app_assoc. destruct df_center_stats; [congruence | reflexivity].
  - apply (master_frame_aligned df_marks df_center_stats _ Hrun Hal).
    rewrite forallb_app, Fmet. simpl. rewrite F1, F2, F3. reflexivity.
  - intros c s Hcs. rewrite <- app_assoc, lookup_col_app, Hcs. reflexivity.
  - intros i k Hi. unfold at_ in Hi. rewrite Hcenter in Hi. exact Hi.
  - intros i id Hi Hun.
    assert (Hnone : find_all (merge_key_eqb id) (group_keys keys) 0 = [])
      by (apply group_keys_no_match; exact Hun).
    assert (Hone : forall k, (length (find_all (merge_key_eqb k) (group_keys keys) 0) <= 1)%nat)
      by (intros; apply group_keys_match_once).
    unfold at_. rewrite !lookup_col_app.
    unfold has_col in F1, F2, F3.
    destruct (lookup_col "Center_Std_Dev" df_center_stats); [discriminate|].
    destruct (lookup_col "Center_Skewness" df_center_stats); [discriminate|].
    destruct (lookup_col "Center_Kurtosis" df_center_stats); [discriminate|].
    rewrite !Hmetrics by (simpl; auto).
    subst moments. cbn [lookup_col String.eqb Ascii.eqb Bool.eqb].
    repeat split; apply (take_right_unmatched ids _ _ i id Hone Hi Hnone).
Qed.

Lemma master_merge_keeps_center_rows_witness :
  match master_data.run (rt := Reference.runtime true)
          Examples.student_marks Examples.center_stats with
  | Ok df_master =>
      nrows df_master = 4%nat /\
      at_ df_master 3 "center_id" = Some (Examples.num 40) /\
      at_ df_master 3 "Center_Skewness" = Some missing
  | Raise _ => False
  end.
Proof.
  destruct (master_data.run (rt := Reference.runtime true)
              Examples.student_marks Examples.center_stats) as [m|e] eqn:E.
  - destruct (master_merge_keeps_center_rows (Reference.runtime true)
                Examples.student_marks Examples.center_stats m E eq_refl eq_refl)
      as (ids & keys & Hids & Hk & Hn & _ & _ & Hc & _ & Hun).
    injection Hids as <-. injection Hk as <-.
    split; [exact Hn|]. split.
    + unfold at_. rewrite Hc. reflexivity.
    + apply (Hun 3%nat (Examples.num 40) eq_refl).
      intros k Hin. simpl in Hin.
      repeat (destruct Hin as [<-|Hin]; [reflexivity|]). contradiction.
  - vm_compute in E. discriminate E.
Defined.

(** ** Rounded moments reach the scoring stage *)

Lemma find_all_In {A} (p : A -> bool) (l : list A) (j0 j : nat) (x : A) :
  nth_error l j = Some x -> p x = true -> In (j0 + j)%nat (find_all p l j0).
Proof.
  revert j0 j. induction l as [|y l IH]; intros j0 j Hj Hp; destruct j as [|j];
    simpl in *; try discriminate.
  - injection Hj as ->. rewrite Hp, Nat.add_0_r. left. reflexivity.
  - replace (j0 + S j)%nat with (S j0 + j)%nat by lia.
    destruct (p y); [right|]; apply IH; assumption.
Qed.

Lemma take_right_matched (lk rk s : Series) (i j : nat) (k r : cell) :
  (forall k, (length (find_all (merge_key_eqb k) rk 0) <= 1)%nat) ->
  nth_error lk i = Some k ->
  nth_error rk j = Some r ->
  merge_key_eqb k r = true ->
  nth_error (take_right (join_plan lk rk) s) i = Some (nth j s missing).
Proof.
  intros H Hi Hj Hm. unfold take_right. rewrite (join_plan_single lk rk H), map_map.
  rewrite nth_error_map, (indexed_nth_error lk i k Hi). simpl.
  pose proof (find_all_In (merge_key_eqb k) rk 0 j r Hj Hm) as Hin.
  specialize (H k).
  destruct (find_all (merge_key_eqb k) rk 0) as [|j1 [|j2 js]]; simpl in *;
    [contradiction | | lia].
  destruct Hin as [->|[]]. reflexivity.
Qed.

Lemma select_lookup (df sel : DataFrame) (cs : list string) (c : string) :
  select df cs = Ok sel -> In c cs -> lookup_col c sel = lookup_col c df.
Proof.
  revert sel. induction cs as [|c0 cs IH]; intros sel H Hin; [contradiction|].
  apply select_cons in H. destruct H as (s & sel' & Hs & Hsel & ->).
  simpl. destruct (String.eqb_spec c c0) as [->|Hne].
  - apply get_col_ok in Hs. congruence.
  - destruct Hin as [E|Hin]; [congruence|]. apply IH; assumption.
Qed.

(** C7 (as the code has it).  The moments are rounded to three decimals in
    the aggregated frame itself: for a center with marks, each moment in the
    master frame is the rounded value of the full-precision aggregate, and
    the scoring stage reads the moment columns of the master frame as they
    are.  No unrounded copy reaches the scoring stage. *)
Theorem scoring_uses_rounded_moments
    (rt : Runtime) (df_marks df_center_stats df_master : DataFrame) :
  master_data.run df_marks df_center_stats = Ok df_master ->
  aligned df_center_stats = true ->
  forallb (fun c => negb (has_col df_center_stats c))
          (master_data.metric_columns ++ master_data.moment_columns) = true ->
  exists ids keys agg_full,
    get_col df_center_stats "center_id" = Ok ids /\
    get_col df_marks "center_id" = Ok keys /\
    master_data.aggregate df_marks = Ok agg_full /\
    (forall c i j id k,
       In c master_data.moment_columns ->
       nth_error ids i = Some id ->
       nth_error (group_keys keys) j = Some k ->
       merge_key_eqb id k = true ->
       exists full,
         at_ agg_full j c = Some full /\
         at_ df_master i c = Some (round_cell 3 full)) /\
    (forall sel c,
       anomaly_detection.scoring_input df_master = Ok sel ->
       In c anomaly_detection.features ->
       lookup_col c sel = lookup_col c df_master).
Proof.
  intros Hrun Hal Hfresh.
  destruct (master_run_inv df_marks df_center_stats df_master Hrun Hal Hfresh)
    as (ids & keys & cells & vals & metrics & Hids & Hk & Hc & Hv & Hmet & Hcols & ->).
  rewrite forallb_app, andb_true_iff in Hfresh. destruct Hfresh as [Fmet Fmom].
  simpl in Fmom. rewrite !andb_true_iff, !negb_true_iff in Fmom.
  destruct Fmom as (F1 & F2 & F3 & _).
  exists ids, keys. eexists.
  split; [exact Hids|]. split; [exact Hk|].
  split; [apply (aggregate_ok df_marks keys cells vals Hk Hc Hv)|].
  split.
  - intros c i j id k Hc' Hi Hj Hm.
    assert (Hone : forall k, (length (find_all (merge_key_eqb k) (group_keys keys) 0) <= 1)%nat)
      by (intros; apply group_keys_match_once).
    assert (Hmetrics : forall c, In c master_data.moment_columns ->
                                 lookup_col c metrics = None).
    { intros c0 H0. apply lookup_col_columns. rewrite Hcols.
      simpl in H0. simpl. intuition (subst; discriminate). }
    unfold has_col in F1, F2, F3.
    destruct (lookup_col "Center_Std_Dev" df_center_stats) eqn:G1; [discriminate|].
    destruct (lookup_col "Center_Skewness" df_center_stats) eqn:G2; [discriminate|].
    destruct (lookup_col "Center_Kurtosis" df_center_stats) eqn:G3; [discriminate|].
    pose proof (Hmetrics c Hc') as Hmc.
    simpl in Hc'. destruct Hc' as [<-|[<-|[<-|[]]]];
      eexists; unfold at_; rewrite !lookup_col_app, ?G1, ?G2, ?G3, Hmc;
      cbn [lookup_col String.eqb Ascii.eqb Bool.eqb];
      (split;
       [ rewrite nth_error_map, Hj; reflexivity
       | rewrite (take_right_matched ids _ _ i j id k Hone Hi Hj Hm);
         erewrite nth_error_nth by (rewrite nth_error_map, Hj; reflexivity);
         reflexivity ]).
  - intros sel c Hsel Hc'. unfold anomaly_detection.scoring_input in Hsel.
    apply (select_lookup _ _ _ c Hsel). apply in_or_app. left. exact Hc'.
Qed.

Lemma scoring_uses_rounded_moments_witness :
  match master_data.run (rt := Reference.runtime true)
          Examples.student_marks Examples.center_stats with
  | Ok df_master =>
      exists full,
        cell_of (master_data.aggregate (rt := Reference.runtime true)
                   Examples.student_marks) 0 "Center_Kurtosis" = Some full /\
        at_ df_master 0 "Center_Kurtosis" = Some (round_cell 3 full)
  | Raise _ => False
  end.
Proof.
  destruct (master_data.run (rt := Reference.runtime true)
              Examples.student_marks Examples.center_stats) as [m|e] eqn:E.
  - destruct (scoring_uses_rounded_moments (Reference.runtime true)
                Examples.student_marks Examples.center_stats m E eq_refl eq_refl)
      as (ids & keys & agg & Hids & Hk & Hagg & H & _).
    injection Hids as <-. injection Hk as <-.
    destruct (H "Center_Kurtosis"%string 0%nat 0%nat (Examples.num 10) (Examples.num 10)
                (or_intror (or_intror (or_introl eq_refl))) eq_refl eq_refl eq_refl)
      as (full & Hfull & Hm).
    exists full. rewrite Hagg. split; assumption.
  - vm_compute in E. discriminate E.
Defined.

(** C7 fails as stated: the kurtosis of the marks 100, 200, 400, 800 is
    2004/2645 = 0.75765..., and what the scoring stage reads for that center
    is 0.758. *)
Lemma scoring_reads_rounded_kurtosis :
  match cell_of (master_data.aggregate (rt := Reference.runtime true)
                   Examples.student_marks) 0 "Center_Kurtosis" with
  | Some (Num (Finite full)) => full == 2004 # 2645 /\ ~ full == 758 # 1000
  | _ => False
  end /\
  cell_of (m <- master_data.run (rt := Reference.runtime true)
                  Examples.student_marks Examples.center_stats ;;
           anomaly_detection.scoring_input m) 0 "Center_Kurtosis"
  = Some (Num (Finite (758 # 1000))).
Proof.
  vm_compute. split; [split|]; [reflexivity | discriminate | reflexivity].
Qed.

(** ** Missing and infinite feature values *)

Section FeatureMatrix.
Context {rt : Runtime}.

Lemma dummy_columns_keep (drop_first : bool) (st : Series) :
  filter (fun p => negb (mem_string (fst p) ["total_students"%string]))
         (dummy_columns "state" drop_first st)
  = dummy_columns "state" drop_first st.
Proof.
  unfold dummy_columns.
  induction (dummy_levels drop_first st) as [|level l IH]; [reflexivity|].
  cbn [map filter fst]. rewrite IH. reflexivity.
Qed.

(** The frame that is scaled: four feature columns, then the indicators. *)
Lemma scaled_frame_inv (df X_frame : DataFrame) :
  (df_ml <- anomaly_detection.encode df ;;
   drop_columns df_ml ["total_students"%string]) = Ok X_frame ->
  exists s1 s2 s3 s4 st,
    lookup_col "Center_v_National_Gap" df = Some s1 /\
    lookup_col "Center_Skewness" df = Some s2 /\
    lookup_col "Center_Kurtosis" df = Some s3 /\
    lookup_col "Ultra_High_Score_Ratio" df = Some s4 /\
    lookup_col "state" df = Some st /\
    X_frame = [("Center_v_National_Gap"%string, s1); ("Center_Skewness"%string, s2);
               ("Center_Kurtosis"%string, s3); ("Ultra_High_Score_Ratio"%string, s4)]
              ++ dummy_columns "state" true st.
Proof.
  intros H. apply bind_ok in H. destruct H as (df_ml & Henc & Hdrop).
  unfold anomaly_detection.encode, anomaly_detection.scoring_input in Henc.
  apply bind_ok in Henc. destruct Henc as (sel & Hsel & Hgd).
  unfold anomaly_detection.features in Hsel. cbn [app] in Hsel.
  apply select_cons in Hsel. destruct Hsel as (s1 & r1 & G1 & Hsel & ->).
  apply select_cons in Hsel. destruct Hsel as (s2 & r2 & G2 & Hsel & ->).
  apply select_cons in Hsel. destruct Hsel as (s3 & r3 & G3 & Hsel & ->).
  apply select_cons in Hsel. destruct Hsel as (s4 & r4 & G4 & Hsel & ->).
  apply select_cons in Hsel. destruct Hsel as (s5 & r5 & G5 & Hsel & ->).
  apply select_cons in Hsel. destruct Hsel as (st & r6 & G6 & Hsel & ->).
  injection Hsel as <-.
  unfold get_dummies, get_col in Hgd.
  cbn [lookup_col String.eqb Ascii.eqb Bool.eqb bind filter fst negb] in Hgd.
  injection Hgd as <-.
  unfold drop_columns in Hdrop. apply bind_ok in Hdrop. destruct Hdrop as (u & _ & Hdrop).
  injection Hdrop as <-.
  exists s1, s2, s3, s4, st. rewrite <- !get_col_ok.
  repeat split; try assumption.
  cbn [app]. do 4 f_equal. exact (dummy_columns_keep true st).
Qed.

Lemma scaled_matrix_inv (df : DataFrame) (X : list sample) :
  anomaly_detection.scaled_matrix df = Ok X ->
  exists s1 s2 s3 s4 x1 x2 x3 x4 rest,
    lookup_col "Center_v_National_Gap" df = Some s1 /\
    lookup_col "Center_Skewness" df = Some s2 /\
    lookup_col "Center_Kurtosis" df = Some s3 /\
    lookup_col "Ultra_High_Score_Ratio" df = Some s4 /\
    check_column s1 = Ok x1 /\ check_column s2 = Ok x2 /\
    check_column s3 = Ok x3 /\ check_column s4 = Ok x4 /\
    length s1 <> O /\
    Forall (fun xs => existsb isinf xs = false) (x1 :: x2 :: x3 :: x4 :: rest) /\
    X = rows_of (length s1) (map scale_column (x1 :: x2 :: x3 :: x4 :: rest)).
Proof.
  unfold anomaly_detection.scaled_matrix. intros H.
  destruct (df_ml <- anomaly_detection.encode df ;;
            drop_columns df_ml ["total_students"%string]) as [X_frame|e] eqn:Hf.
  - destruct (scaled_frame_inv df X_frame Hf) as (s1 & s2 & s3 & s4 & st & L1 & L2 & L3 & L4 & _ & ->).
    apply bind_ok in Hf. destruct Hf as (df_ml & Henc & Hdrop).
    rewrite Henc in H. cbn [bind] in H. rewrite Hdrop in H. cbn [bind] in H.
    apply bind_ok in H. destruct H as (cols & Hcols & H).
    unfold fit_transform in Hcols. apply bind_ok in Hcols.
    destruct Hcols as (checked & Hchk & Hcols).
    cbn [app mapM snd] in Hchk.
    apply bind_ok in Hchk. destruct Hchk as (x1 & C1 & Hchk).
    apply bind_ok in Hchk. destruct Hchk as (bs1 & Hchk & E1). injection E1 as <-.
    apply bind_ok in Hchk. destruct Hchk as (x2 & C2 & Hchk).
    apply bind_ok in Hchk. destruct Hchk as (bs2 & Hchk & E2). injection E2 as <-.
    apply bind_ok in Hchk. destruct Hchk as (x3 & C3 & Hchk).
    apply bind_ok in Hchk. destruct Hchk as (bs3 & Hchk & E3). injection E3 as <-.
    apply bind_ok in Hchk. destruct Hchk as (x4 & C4 & Hchk).
    apply bind_ok in Hchk. destruct Hchk as (bs4 & Hchk & E4). injection E4 as <-.
    cbn [app nrows] in Hcols.
    destruct (Nat.eqb_spec (length s1) 0) as [|Hn]; [discriminate|].
    injection Hcols as <-. injection H as <-.
    exists s1, s2, s3, s4, x1, x2, x3, x4, bs4.
    assert (Hfin : forall s xs, check_column s = Ok xs -> existsb isinf xs = false).
    { unfold check_column. intros s xs Hs. apply bind_ok in Hs.
      destruct Hs as (ys & _ & Hs). destruct (existsb isinf ys) eqn:E; [discriminate|].
      injection Hs as <-. exact E. }
    repeat split; try eassumption.
    repeat (constructor; [eapply Hfin; eassumption|]).
    clear - Hchk Hfin. revert bs4 Hchk.
    induction (dummy_columns "state" true st) as [|p l IH]; intros bs Hb.
    + injection Hb as <-. constructor.
    + cbn [mapM] in Hb. apply bind_ok in Hb. destruct Hb as (b & Hb0 & Hb).
      apply bind_ok in Hb. destruct Hb as (bs' & Hb & E). injection E as <-.
      constructor; [eapply Hfin; exact Hb0 | apply IH; exact Hb].
  - destruct (anomaly_detection.encode df) as [df_ml|e']; cbn [bind] in *;
      [|discriminate].
    destruct (drop_columns df_ml ["total_students"%string]); cbn [bind] in *;
      discriminate.
Qed.

Lemma check_column_nth (s : Series) (xs : list float) (i : nat) (x : float) :
  check_column s = Ok xs -> nth_error s i = Some (Num x) ->
  nth_error xs i = Some x /\ isinf x = false.
Proof.
  unfold check_column. intros H Hi.
  apply bind_ok in H. destruct H as (ys & Hys & H).
  destruct (existsb isinf ys) eqn:E; [discriminate|]. injection H as <-.
  destruct (mapM_nth_error _ _ _ Hys i (Num x) Hi) as (b & Hb & Hf).
  simpl in Hf. injection Hf as <-. split; [exact Hb|].
  destruct (isinf x) eqn:Ex; [|reflexivity].
  assert (existsb isinf ys = true)
    by (apply existsb_exists; exists x; split; [eapply nth_error_In; exact Hb | exact Ex]).
  congruence.
Qed.

Lemma scale_column_nan (xs : list float) (i : nat) :
  nth_error xs i = Some NaN -> nth i (scale_column xs) NaN = NaN.
Proof.
  intros H. unfold scale_column. destruct (present xs).
  - destruct (nth_in_or_default i (map (fun _ : float => NaN) xs) NaN) as [Hin|E];
      [|exact E].
    apply in_map_iff in Hin. destruct Hin as (y & E & _). congruence.
  - apply nth_error_nth. rewrite nth_error_map, H. reflexivity.
Qed.

Lemma rows_of_nth (n : nat) (cols : list (list float)) (i : nat) :
  (i < n)%nat ->
  nth_error (rows_of n cols) i = Some (map (fun col => nth i col NaN) cols).
Proof.
  intros H. unfold rows_of. rewrite nth_error_map.
  rewrite (nth_error_nth' _ 0%nat) by (rewrite length_seq; exact H).
  rewrite seq_nth by exact H. reflexivity.
Qed.

Lemma nth_error_length {A} (l : list A) (i : nat) (x : A) :
  nth_error l i = Some x -> (i < length l)%nat.
Proof. intros H. apply nth_error_Some. congruence. Qed.

End FeatureMatrix.

Section MissingValues.
Context {rt : Runtime} {rs : RandomState}.

(** A missing feature of a center is still missing in its row of the
    scaled matrix. *)
Lemma matrix_keeps_missing (df : DataFrame) (X : list sample)
    (c : string) (idx i : nat) :
  anomaly_detection.scaled_matrix df = Ok X ->
  aligned df = true ->
  In (c, idx) anomaly_detection.feature_positions ->
  at_ df i c = Some (Num NaN) ->
  exists row, nth_error X i = Some row /\ nth_error row idx = Some NaN.
Proof.
  intros HX Hal Hc Hi.
  destruct (scaled_matrix_inv df X HX)
    as (s1 & s2 & s3 & s4 & x1 & x2 & x3 & x4 & rest
        & L1 & L2 & L3 & L4 & C1 & C2 & C3 & C4 & Hn & _ & ->).
  pose proof (aligned_length df _ s1 Hal L1) as A1.
  pose proof (aligned_length df _ s2 Hal L2) as A2.
  pose proof (aligned_length df _ s3 Hal L3) as A3.
  pose proof (aligned_length df _ s4 Hal L4) as A4.
  unfold at_ in Hi. eexists.
  simpl in Hc.
  destruct Hc as [E|[E|[E|[E|[]]]]]; injection E as <- <-.
  - rewrite L1 in Hi. pose proof (nth_error_length _ _ _ Hi).
    split; [apply rows_of_nth; lia|]. cbn [map nth_error]. f_equal.
    apply scale_column_nan. eapply check_column_nth; eassumption.
  - rewrite L2 in Hi. pose proof (nth_error_length _ _ _ Hi).
    split; [apply rows_of_nth; lia|]. cbn [map nth_error]. f_equal.
    apply scale_column_nan. eapply check_column_nth; eassumption.
  - rewrite L3 in Hi. pose proof (nth_error_length _ _ _ Hi).
    split; [apply rows_of_nth; lia|]. cbn [map nth_error]. f_equal.
    apply scale_column_nan. eapply check_column_nth; eassumption.
  - rewrite L4 in Hi. pose proof (nth_error_length _ _ _ Hi).
    split; [apply rows_of_nth; lia|]. cbn [map nth_error]. f_equal.
    apply scale_column_nan. eapply check_column_nth; eassumption.
Qed.

(** An infinite feature makes the scaler refuse the whole matrix. *)
Lemma matrix_rejects_infinity (df : DataFrame) (c : string) (idx i : nat) (b : bool) :
  In (c, idx) anomaly_detection.feature_positions ->
  at_ df i c = Some (Num (Inf b)) ->
  exists e, anomaly_detection.scaled_matrix df = Raise e.
Proof.
  intros Hc Hi.
  destruct (anomaly_detection.scaled_matrix df) as [X|e] eqn:HX; [|eauto].
  exfalso.
  destruct (scaled_matrix_inv df X HX)
    as (s1 & s2 & s3 & s4 & x1 & x2 & x3 & x4 & rest
        & L1 & L2 & L3 & L4 & C1 & C2 & C3 & C4 & _).
  unfold at_ in Hi. simpl in Hc.
  destruct Hc as [E|[E|[E|[E|[]]]]]; injection E as <- <-.
  - rewrite L1 in Hi. destruct (check_column_nth _ _ _ _ C1 Hi). discriminate.
  - rewrite L2 in Hi. destruct (check_column_nth _ _ _ _ C2 Hi). discriminate.
  - rewrite L3 in Hi. destruct (check_column_nth _ _ _ _ C3 Hi). discriminate.
  - rewrite L4 in Hi. destruct (check_column_nth _ _ _ _ C4 Hi). discriminate.
Qed.

Lemma run_raises_with_matrix (global : rng) (df : DataFrame) (e : exn) :
  anomaly_detection.scaled_matrix df = Raise e ->
  anomaly_detection.run global df = Raise e.
Proof. unfold anomaly_detection.run. intros ->. reflexivity. Qed.

(** A forest that takes no missing value stops the run on the first NaN. *)
Lemma run_raises_on_nan (global : rng) (df : DataFrame) (X : list sample) :
  anomaly_detection.scaled_matrix df = Ok X ->
  existsb (existsb isnan) X = true ->
  iforest_allow_nan = false ->
  exists e, anomaly_detection.run global df = Raise e.
Proof.
  intros HX Hnan Hpol. unfold anomaly_detection.run. rewrite HX. cbn [bind].
  unfold fit, validate. rewrite Hnan, Hpol.
  destruct (existsb (existsb isinf) X); cbn; eauto.
Qed.

Lemma row_has_nan (X : list sample) (i idx : nat) (row : sample) :
  nth_error X i = Some row -> nth_error row idx = Some NaN ->
  existsb (existsb isnan) X = true.
Proof.
  intros Hi Hr. apply existsb_exists. exists row.
  split; [eapply nth_error_In; exact Hi|].
  apply existsb_exists. exists NaN. split; [eapply nth_error_In; exact Hr | reflexivity].
Qed.

End MissingValues.

Section RunSucceeds.
Context {rt : Runtime} {rs : RandomState}.

Lemma set_col_succeeds (df : DataFrame) (c : string) (s : Series) :
  df <> [] -> length s = nrows df ->
  exists df', set_col df c s = Ok df' /\ df' <> [] /\ nrows df' = nrows df.
Proof.
  intros Hne Hlen.
  assert (H : exists df', set_col df c s = Ok df').
  { unfold set_col. destruct df as [|p df]; [congruence|].
    rewrite Hlen, Nat.eqb_refl. eauto. }
  destruct H as (df' & H). exists df'. split; [exact H|].
  split; [|eapply set_col_nrows; eassumption].
  intros ->. apply set_col_lookup_same in H. discriminate.
Qed.

Lemma has_col_set_other (df df' : DataFrame) (c c0 : string) (s : Series) :
  c0 <> c -> set_col df c s = Ok df' -> has_col df' c0 = has_col df c0.
Proof.
  intros Hne H. unfold has_col. rewrite (set_col_lookup_other df df' c c0 s Hne H).
  reflexivity.
Qed.

Lemma scaled_matrix_has_state (df : DataFrame) (X : list sample) :
  anomaly_detection.scaled_matrix df = Ok X -> has_col df "state" = true.
Proof.
  unfold anomaly_detection.scaled_matrix. intros H.
  destruct (df_ml <- anomaly_detection.encode df ;;
            drop_columns df_ml ["total_students"%string]) as [X_frame|e] eqn:Hf.
  - destruct (scaled_frame_inv df X_frame Hf) as (s1 & s2 & s3 & s4 & st & _ & _ & _ & _ & L & _).
    unfold has_col. rewrite L. reflexivity.
  - destruct (anomaly_detection.encode df) as [df_ml|e']; cbn [bind] in *;
      [|discriminate].
    destruct (drop_columns df_ml ["total_students"%string]); cbn [bind] in *;
      discriminate.
Qed.

Lemma rows_of_length (n : nat) (cols : list (list float)) :
  length (rows_of n cols) = n.
Proof. unfold rows_of. rewrite length_map, length_seq. reflexivity. Qed.

(** When the matrix passes the forest's validation, the script runs to its
    end and saves a score for every row. *)
Lemma run_ok (global : rng) (df : DataFrame) (X : list sample) :
  anomaly_detection.scaled_matrix df = Ok X ->
  aligned df = true ->
  existsb (existsb isinf) X = false ->
  existsb (existsb isnan) X = false \/ iforest_allow_nan = true ->
  has_col df "city" = true ->
  has_col df "center_name" = true ->
  exists o, anomaly_detection.run global df = Ok o.
Proof.
  intros HX Hal Hinf Hnan Hcity Hname.
  pose proof (scaled_matrix_has_state df X HX) as Hstate.
  destruct (scaled_matrix_inv df X HX)
    as (s1 & s2 & s3 & s4 & x1 & x2 & x3 & x4 & rest
        & L1 & L2 & L3 & L4 & _ & _ & _ & _ & Hn & _ & EX).
  assert (HlenX : length X = nrows df).
  { rewrite EX, rows_of_length. apply (aligned_length df _ s1 Hal L1). }
  assert (Hne : df <> []) by (intros ->; discriminate).
  assert (HXne : X <> []).
  { intros ->. simpl in HlenX. rewrite <- (aligned_length df _ s1 Hal L1) in HlenX. lia. }
  unfold anomaly_detection.run. rewrite HX. cbn [bind].
  assert (Hfit : exists m, fit anomaly_detection.n_estimators
                   anomaly_detection.contamination anomaly_detection.random_state
                   global X = Ok m).
  { unfold fit, validate. rewrite Hinf.
    replace (existsb (existsb isnan) X && negb iforest_allow_nan) with false
      by (destruct Hnan as [-> | ->]; [reflexivity | rewrite andb_false_r; reflexivity]).
    cbn [bind]. destruct X; [congruence | eauto]. }
  destruct Hfit as (m & ->). cbn [bind].
  destruct (set_col_succeeds df "Anomaly_Flag"
              (map (fun z => Num (float_of_Z z)) (predict m X)) Hne)
    as (df1 & S1 & Hne1 & N1).
  { unfold predict, decision_function, score_samples. rewrite !length_map. exact HlenX. }
  rewrite S1. cbn [bind].
  destruct (set_col_succeeds df1 "Anomaly_Score"
              (map (fun q => Num (Finite q)) (decision_function m X)) Hne1)
    as (df2 & S2 & Hne2 & N2).
  { unfold decision_function, score_samples. rewrite !length_map. congruence. }
  rewrite S2. cbn [bind].
  destruct (set_col_succeeds df2 "Anomaly_Type"
              (map (fun z => Str (anomaly_detection.anomaly_type z)) (predict m X)) Hne2)
    as (df3 & S3 & Hne3 & N3).
  { unfold predict, decision_function, score_samples. rewrite !length_map. congruence. }
  rewrite S3. cbn [bind].
  assert (Hkeep : forall c, c <> "Anomaly_Flag"%string -> c <> "Anomaly_Score"%string ->
                            c <> "Anomaly_Type"%string ->
                            has_col df c = true -> has_col df3 c = true).
  { intros c D1 D2 D3 Hc.
    rewrite (has_col_set_other df2 df3 _ c _ D3 S3),
            (has_col_set_other df1 df2 _ c _ D2 S2),
            (has_col_set_other df df1 _ c _ D1 S1). exact Hc. }
  assert (Hscore : has_col df3 "Anomaly_Score" = true).
  { assert (D : "Anomaly_Score"%string <> "Anomaly_Type"%string) by discriminate.
    rewrite (has_col_set_other df2 df3 _ _ _ D S3).
    unfold has_col. rewrite (set_col_lookup_same _ _ _ _ S2). reflexivity. }
  destruct (select_has_cols df3 anomaly_detection.report_columns) as (shown & ->).
  { assert (H1 : has_col df "Center_v_National_Gap" = true)
      by (unfold has_col; rewrite L1; reflexivity).
    assert (H2 : has_col df "Center_Skewness" = true)
      by (unfold has_col; rewrite L2; reflexivity).
    assert (H4 : has_col df "Ultra_High_Score_Ratio" = true)
      by (unfold has_col; rewrite L4; reflexivity).
    unfold anomaly_detection.report_columns. cbn [forallb].
    rewrite (Hkeep "state"%string), (Hkeep "city"%string),
      (Hkeep "center_name"%string), (Hkeep "Center_v_National_Gap"%string),
      (Hkeep "Ultra_High_Score_Ratio"%string), (Hkeep "Center_Skewness"%string),
      Hscore; try discriminate; try assumption; reflexivity. }
  cbn [bind]. eauto.
Qed.

(** With a square root that does not vanish on non-zero variances the
    scaled matrix has no infinite entry. *)
Lemma scale_column_finite (xs : list float) :
  (forall v, ~ v == 0 -> ~ fsqrt v == 0) ->
  existsb isinf xs = false ->
  forall i, isinf (nth i (scale_column xs) NaN) = false.
Proof.
  intros Hsqrt Hxs i.
  destruct (nth_in_or_default i (scale_column xs) NaN) as [Hin|E];
    [|rewrite E; reflexivity].
  revert Hin. generalize (nth i (scale_column xs) NaN). intros y Hy.
  unfold scale_column in Hy. destruct (present xs) as [|p0 ps] eqn:Ep.
  - apply in_map_iff in Hy. destruct Hy as (_ & <- & _). reflexivity.
  - apply in_map_iff in Hy. destruct Hy as (x & <- & Hx).
    destruct x as [q|b|]; simpl.
    + assert (Hs : Qeq_bool (column_scale xs) 0 = false).
      { unfold column_scale. destruct (Qeq_bool (column_var xs) 0) eqn:Ev;
          [reflexivity|].
        apply Qeq_bool_neq in Ev. specialize (Hsqrt _ Ev).
        destruct (Qeq_bool (fsqrt (column_var xs)) 0) eqn:E0; [|reflexivity].
        apply Qeq_bool_iff in E0. contradiction. }
      rewrite Hs. reflexivity.
    + assert (existsb isinf xs = true)
        by (apply existsb_exists; exists (Inf b); auto).
      congruence.
    + reflexivity.
Qed.

Lemma scaled_matrix_finite (df : DataFrame) (X : list sample) :
  (forall v, ~ v == 0 -> ~ fsqrt v == 0) ->
  anomaly_detection.scaled_matrix df = Ok X ->
  existsb (existsb isinf) X = false.
Proof.
  intros Hsqrt HX.
  destruct (scaled_matrix_inv df X HX)
    as (s1 & s2 & s3 & s4 & x1 & x2 & x3 & x4 & rest
        & _ & _ & _ & _ & _ & _ & _ & _ & _ & Hfin & ->).
  destruct (existsb (existsb isinf) _) eqn:E; [|reflexivity].
  apply existsb_exists in E. destruct E as (row & Hrow & E).
  apply existsb_exists in E. destruct E as (y & Hy & E).
  unfold rows_of in Hrow. apply in_map_iff in Hrow. destruct Hrow as (i & <- & _).
  apply in_map_iff in Hy. destruct Hy as (col & <- & Hcol).
  apply in_map_iff in Hcol. destruct Hcol as (xs & <- & Hxs).
  rewrite Forall_forall in Hfin.
  rewrite (scale_column_finite xs Hsqrt (Hfin xs Hxs) i) in E. discriminate.
Qed.

End RunSucceeds.

Lemma map2M_nth {A B C} (f : A -> B -> result C) (l1 : list A) (l2 : list B)
    (r : list C) (i : nat) (a : A) (b : B) :
  map2M f l1 l2 = Ok r ->
  nth_error l1 i = Some a -> nth_error l2 i = Some b ->
  exists c, nth_error r i = Some c /\ f a b = Ok c.
Proof.
  revert l2 r i. induction l1 as [|x l1 IH]; intros l2 r i H H1 H2.
  - destruct i; discriminate.
  - destruct l2 as [|y l2]; [destruct i; discriminate|].
    cbn [map2M] in H. apply bind_ok in H. destruct H as (c & Hc & H).
    apply bind_ok in H. destruct H as (cs & Hcs & H). injection H as <-.
    destruct i as [|i]; simpl in *.
    + injection H1 as ->. injection H2 as ->. eauto.
    + eapply IH; eassumption.
Qed.

(** The ratio of a center without students, as the master frame has it. *)
Lemma master_ratio_cell {rt : Runtime}
    (df_marks df_center_stats df_master : DataFrame) (i : nat) (a t : Q) :
  master_data.run df_marks df_center_stats = Ok df_master ->
  aligned df_center_stats = true ->
  forallb (fun c => negb (has_col df_center_stats c))
          (master_data.metric_columns ++ master_data.moment_columns) = true ->
  at_ df_center_stats i "above_700_marks" = Some (Num (Finite a)) ->
  at_ df_center_stats i "total_students" = Some (Num (Finite t)) ->
  at_ df_master i "Ultra_High_Score_Ratio"
  = Some (Num (fdiv (Finite a) (Finite t))).
Proof.
  intros Hrun Hal Hfresh Ha Ht.
  destruct (master_run_inv df_marks df_center_stats df_master Hrun Hal Hfresh)
    as (ids & keys & cells & vals & metrics & Hids & Hk & Hc & Hv & Hmet & Hcols & ->).
  rewrite forallb_app, andb_true_iff in Hfresh. destruct Hfresh as [Fmet Fmom].
  destruct (add_metrics_fresh _ _ Fmet Hmet)
    as (v1 & v2 & v3 & v4 & E & _ & _ & _ & _ & a700 & tot & Ga & Gt & Hdiv).
  apply app_inv_head in E. subst metrics.
  simpl in Fmet. rewrite !andb_true_iff, !negb_true_iff in Fmet.
  destruct Fmet as (F1 & _). unfold has_col in F1.
  unfold at_ in *. rewrite !lookup_col_app.
  destruct (lookup_col "Ultra_High_Score_Ratio" df_center_stats); [discriminate|].
  cbn [lookup_col String.eqb Ascii.eqb Bool.eqb].
  apply get_col_ok in Ga, Gt. rewrite Ga in Ha. rewrite Gt in Ht.
  destruct (map2M_nth _ _ _ _ i _ _ Hdiv Ha Ht) as (c & Hc' & Hf).
  simpl in Hf. injection Hf as <-. exact Hc'.
Qed.

(** ** The ratio column under the scaler *)

Section ScaledRatio.
Context {rt : Runtime}.

(** The values of a numeric column that are there: neither missing nor
    infinite. *)
Lemma present_of_cells (e : exn) (s : Series) (xs : list float) :
  mapM (to_float e) s = Ok xs ->
  Forall (fun c => exists x, c = Num x) s ->
  present xs = flat_map (fun c => match c with Num (Finite q) => [q] | _ => [] end) s.
Proof.
  revert xs. induction s as [|c s IH]; intros xs H Hs.
  - injection H as <-. reflexivity.
  - cbn [mapM] in H. apply bind_ok in H. destruct H as (x & Hx & H).
    apply bind_ok in H. destruct H as (xs' & Hxs & H). injection H as <-.
    apply Forall_cons_iff in Hs. destruct Hs as [(y & ->) Hs].
    cbn in Hx. injection Hx as <-.
    cbn [flat_map]. rewrite <- (IH xs' Hxs Hs).
    destruct y; reflexivity.
Qed.

Lemma map2M_binop_numbers (op : float -> float -> float) (l1 l2 r : Series) :
  map2M (cell_binop op) l1 l2 = Ok r -> Forall (fun c => exists x, c = Num x) r.
Proof.
  revert l2 r. induction l1 as [|a l1 IH]; intros l2 r H.
  - injection H as <-. constructor.
  - destruct l2 as [|b l2]; [injection H as <-; constructor|].
    cbn [map2M] in H. apply bind_ok in H. destruct H as (c & Hc & H).
    apply bind_ok in H. destruct H as (cs & Hcs & H). injection H as <-.
    constructor; [|eapply IH; exact Hcs].
    unfold cell_binop in Hc. apply bind_ok in Hc. destruct Hc as (x & _ & Hc).
    apply bind_ok in Hc. destruct Hc as (y & _ & Hc). injection Hc as <-. eauto.
Qed.

(** The scaled ratio of a center: its ratio less the mean of the ratios
    that are there, over their deviation. *)
Lemma scaled_ratio (df : DataFrame) (X : list sample) (ratios : Series) (j : nat) (q : Q) :
  anomaly_detection.scaled_matrix df = Ok X ->
  aligned df = true ->
  lookup_col "Ultra_High_Score_Ratio" df = Some ratios ->
  Forall (fun c => exists x, c = Num x) ratios ->
  nth_error ratios j = Some (Num (Finite q)) ->
  let there := flat_map (fun c => match c with Num (Finite v) => [v] | _ => [] end) ratios in
  let n := Qof_nat (length there) in
  let mean := Qsum there / n in
  let var := Qsum (map (fun v => (v - mean) * (v - mean)) there) / n in
  let scale := if Qeq_bool var 0 then 1 else fsqrt var in
  exists row,
    nth_error X j = Some row /\
    nth_error row 3 = Some (fdiv (Finite (q - mean)) (Finite scale)).
Proof.
  intros HX Hal Hr Hnum Hj. cbv zeta.
  set (there := flat_map (fun c => match c with Num (Finite v) => [v] | _ => [] end)
                         ratios).
  destruct (scaled_matrix_inv df X HX)
    as (s1 & s2 & s3 & s4 & x1 & x2 & x3 & x4 & rest
        & L1 & _ & _ & L4 & _ & _ & _ & C4 & _ & _ & ->).
  rewrite Hr in L4. injection L4 as <-.
  pose proof (aligned_length df _ s1 Hal L1) as A1.
  pose proof (aligned_length df _ ratios Hal Hr) as A4.
  pose proof (nth_error_length _ _ _ Hj) as Hlt.
  destruct (check_column_nth ratios x4 j (Finite q) C4 Hj) as [Hx _].
  assert (Hp : present x4 = there).
  { unfold check_column in C4. apply bind_ok in C4. destruct C4 as (ys & Hys & C4).
    destruct (existsb isinf ys); [discriminate|]. injection C4 as <-.
    apply (present_of_cells _ _ _ Hys Hnum). }
  assert (Hin : In q there).
  { rewrite <- Hp. clear - Hx. revert j Hx.
    induction x4 as [|y ys IH]; intros [|j] H; try discriminate; simpl in H.
    - injection H as ->. left. reflexivity.
    - specialize (IH j H). destruct y; simpl; auto. }
  eexists. split; [apply rows_of_nth; lia|].
  cbn [map nth_error]. f_equal.
  erewrite nth_error_nth.
  2:{ unfold scale_column. rewrite Hp.
      destruct there as [|v0 vs] eqn:Et; [contradiction|].
      rewrite nth_error_map, Hx. reflexivity. }
  unfold scale_value, column_mean, column_scale, column_var, dev_sum2, Qmean.
  rewrite Hp. reflexivity.
Qed.

End ScaledRatio.

Lemma master_ratio_column {rt : Runtime}
    (df_marks df_center_stats df_master : DataFrame) :
  master_data.run df_marks df_center_stats = Ok df_master ->
  aligned df_center_stats = true ->
  forallb (fun c => negb (has_col df_center_stats c))
          (master_data.metric_columns ++ master_data.moment_columns) = true ->
  exists ratios,
    lookup_col "Ultra_High_Score_Ratio" df_master = Some ratios /\
    Forall (fun c => exists x, c = Num x) ratios.
Proof.
  intros Hrun Hal Hfresh.
  destruct (master_run_inv df_marks df_center_stats df_master Hrun Hal Hfresh)
    as (ids & keys & cells & vals & metrics & _ & _ & _ & _ & Hmet & _ & ->).
  rewrite forallb_app, andb_true_iff in Hfresh. destruct Hfresh as [Fmet _].
  destruct (add_metrics_fresh _ _ Fmet Hmet)
    as (v1 & v2 & v3 & v4 & E & _ & _ & _ & _ & a700 & tot & _ & _ & Hdiv).
  apply app_inv_head in E. subst metrics.
  simpl in Fmet. rewrite !andb_true_iff, !negb_true_iff in Fmet.
  destruct Fmet as (F1 & _). unfold has_col in F1.
  exists v1. split.
  - rewrite !lookup_col_app.
    destruct (lookup_col "Ultra_High_Score_Ratio" df_center_stats); [discriminate|].
    cbn [lookup_col String.eqb Ascii.eqb Bool.eqb]. reflexivity.
  - eapply map2M_binop_numbers. exact Hdiv.
Qed.

Lemma fewer_present_ratios (ratios : Series) (i : nat) :
  nth_error ratios i = Some (Num NaN) ->
  (length (flat_map (fun c => match c with Num (Finite v) => [v] | _ => [] end) ratios)
   < length ratios)%nat.
Proof.
  assert (Hle : forall s : Series,
    (length (flat_map (fun c => match c with Num (Finite v) => [v] | _ => [] end) s)
     <= length s)%nat).
  { induction s as [|c s IH]; [simpl; lia|].
    cbn [flat_map]. rewrite length_app. destruct c as [[v|b|]|w|b]; simpl; lia. }
  revert i. induction ratios as [|c s IH]; intros [|i] H; try discriminate.
  - injection H as ->. cbn [flat_map app length]. specialize (Hle s). lia.
  - specialize (IH i H). cbn [flat_map]. rewrite length_app.
    destruct c as [[v|b|]|w|b]; simpl; lia.
Qed.

(** C6 (as the code has it).  For a center with [total_students = 0] the
    ratio is the plain quotient: NaN when [above_700_marks] is zero, an
    infinity otherwise, and the script guards neither.  An infinite ratio
    makes the scaler refuse the matrix and the scoring script abort.  A NaN
    ratio is left out of the column's mean and deviation: these are taken
    over the ratios that are there, fewer than the centers, and every
    center with a ratio gets that ratio less this mean, over this deviation
    (over one when the deviation is zero).  The NaN itself is still NaN in
    the center's row of the scaled matrix handed to the forest; a forest
    that takes no missing value then aborts the script. *)
Theorem zero_students_ratio_is_unguarded
    (rt : Runtime) (rs : RandomState)
    (df_marks df_center_stats df_master : DataFrame) (i : nat) (a t : Q) :
  master_data.run df_marks df_center_stats = Ok df_master ->
  aligned df_center_stats = true ->
  forallb (fun c => negb (has_col df_center_stats c))
          (master_data.metric_columns ++ master_data.moment_columns) = true ->
  at_ df_center_stats i "above_700_marks" = Some (Num (Finite a)) ->
  at_ df_center_stats i "total_students" = Some (Num (Finite t)) ->
  t == 0 ->
  at_ df_master i "Ultra_High_Score_Ratio"
    = Some (Num (if Qeq_bool a 0 then NaN else Inf (Qlt_bool a 0))) /\
  (~ a == 0 ->
   forall global, exists e, anomaly_detection.run global df_master = Raise e) /\
  (a == 0 ->
   (forall X, anomaly_detection.scaled_matrix df_master = Ok X ->
      exists row, nth_error X i = Some row /\ nth_error row 3 = Some NaN) /\
   (forall X ratios,
      anomaly_detection.scaled_matrix df_master = Ok X ->
      lookup_col "Ultra_High_Score_Ratio" df_master = Some ratios ->
      let there :=
        flat_map (fun c => match c with Num (Finite v) => [v] | _ => [] end) ratios in
      let n := Qof_nat (length there) in
      let mean := Qsum there / n in
      let var := Qsum (map (fun v => (v - mean) * (v - mean)) there) / n in
      let scale := if Qeq_bool var 0 then 1 else fsqrt var in
      (length there < length ratios)%nat /\
      forall j q, nth_error ratios j = Some (Num (Finite q)) ->
        exists row,
          nth_error X j = Some row /\
          nth_error row 3 = Some (fdiv (Finite (q - mean)) (Finite scale))) /\
   (iforest_allow_nan = false ->
    forall global, exists e, anomaly_detection.run global df_master = Raise e)).
Proof.
  intros Hrun Hal Hfresh Ha Ht Ht0.
  pose proof (master_ratio_cell df_marks df_center_stats df_master i a t
                Hrun Hal Hfresh Ha Ht) as Hcell.
  destruct (master_frame_aligned df_marks df_center_stats df_master Hrun Hal Hfresh)
    as [Halm _].
  assert (Hq : Qeq_bool t 0 = true) by (apply Qeq_bool_iff; exact Ht0).
  simpl in Hcell. rewrite Hq in Hcell.
  split; [exact Hcell|]. split.
  - intros Hne global.
    assert (Ea : Qeq_bool a 0 = false).
    { destruct (Qeq_bool a 0) eqn:E; [|reflexivity].
      apply Qeq_bool_iff in E. contradiction. }
    rewrite Ea in Hcell.
    destruct (matrix_rejects_infinity df_master "Ultra_High_Score_Ratio" 3 i _
                (or_intror (or_intror (or_intror (or_introl eq_refl)))) Hcell)
      as (e & He).
    exists e. apply run_raises_with_matrix. exact He.
  - intros Ha0.
    assert (Ea : Qeq_bool a 0 = true) by (apply Qeq_bool_iff; exact Ha0).
    rewrite Ea in Hcell.
    assert (Hrow : forall X, anomaly_detection.scaled_matrix df_master = Ok X ->
                     exists row, nth_error X i = Some row /\ nth_error row 3 = Some NaN).
    { intros X HX.
      apply (matrix_keeps_missing df_master X "Ultra_High_Score_Ratio" 3 i HX Halm);
        [|exact Hcell].
      right. right. right. left. reflexivity. }
    split; [exact Hrow|]. split.
    + intros X ratios HX Hr. cbv zeta.
      destruct (master_ratio_column df_marks df_center_stats df_master Hrun Hal Hfresh)
        as (ratios' & Hr' & Hnum).
      rewrite Hr in Hr'. injection Hr' as <-.
      split.
      * apply (fewer_present_ratios ratios i).
        unfold at_ in Hcell. rewrite Hr in Hcell. exact Hcell.
      * intros j q Hj.
        apply (scaled_ratio df_master X ratios j q HX Halm Hr Hnum Hj).
    + intros Hpol global.
      destruct (anomaly_detection.scaled_matrix df_master) as [X|e] eqn:HX.
      * destruct (Hrow X eq_refl) as (row & H1 & H2).
        apply (run_raises_on_nan global df_master X HX); [|exact Hpol].
        eapply row_has_nan; eassumption.
      * exists e. apply run_raises_with_matrix. exact HX.
Qed.

Lemma zero_students_ratio_is_unguarded_witness :
  match master_data.run (rt := Reference.runtime true)
          Examples.student_marks Examples.center_stats with
  | Ok df_master =>
      at_ df_master 3 "Ultra_High_Score_Ratio" = Some (Num NaN) /\
      forall X, anomaly_detection.scaled_matrix (rt := Reference.runtime true) df_master
                = Ok X ->
        exists row shifted scale,
          nth_error X 0 = Some row /\
          nth_error row 3 = Some (fdiv (Finite shifted) (Finite scale)) /\
          shifted == (1 # 4) - (1 # 12)
  | Raise _ => False
  end.
Proof.
  destruct (master_data.run (rt := Reference.runtime true)
              Examples.student_marks Examples.center_stats) as [m|e] eqn:E.
  - destruct (zero_students_ratio_is_unguarded (Reference.runtime true)
                Reference.lcg Examples.student_marks Examples.center_stats m 3 0 0
                E eq_refl eq_refl eq_refl eq_refl (Qeq_refl 0)) as (H1 & _ & H3).
    split; [exact H1|].
    destruct (H3 (Qeq_refl 0)) as (_ & Hmean & _).
    intros X HX.
    vm_compute in E. injection E as <-.
    destruct (Hmean X _ HX eq_refl) as (_ & Hj).
    destruct (Hj 0%nat (1 # 4) eq_refl) as (row & R1 & R2).
    exists row. eexists. eexists. split; [exact R1|]. split; [exact R2|].
    vm_compute. reflexivity.
  - vm_compute in E. discriminate E.
Defined.

(** C6 fails as stated: a center with no student and one mark above 700
    gets the ratio [+inf], which is neither missing nor left out: the
    scaler refuses the matrix and no center is scored, whether or not the
    forest takes missing values.  With no mark above 700 the ratio is NaN,
    and a forest that takes no missing value stops the run as well. *)
Lemma zero_students_ratio_aborts_scoring :
  cell_of (master_data.run (rt := Reference.runtime true)
             Examples.student_marks Examples.center_stats_inconsistent)
          3 "Ultra_High_Score_Ratio" = Some (Num (Inf false)) /\
  (m <- master_data.run (rt := Reference.runtime true)
          Examples.student_marks Examples.center_stats_inconsistent ;;
   o <- anomaly_detection.run (rt := Reference.runtime true) (rs := Reference.lcg) 0%Z m ;;
   Ok (anomaly_detection.scores o)) = Raise infinity_error /\
  (m <- master_data.run (rt := Reference.runtime false)
          Examples.student_marks Examples.center_stats_inconsistent ;;
   o <- anomaly_detection.run (rt := Reference.runtime false) (rs := Reference.lcg) 0%Z m ;;
   Ok (anomaly_detection.scores o)) = Raise infinity_error /\
  cell_of (master_data.run (rt := Reference.runtime false)
             Examples.student_marks Examples.center_stats)
          3 "Ultra_High_Score_Ratio" = Some (Num NaN) /\
  (m <- master_data.run (rt := Reference.runtime false)
          Examples.student_marks Examples.center_stats ;;
   o <- anomaly_detection.run (rt := Reference.runtime false) (rs := Reference.lcg) 0%Z m ;;
   Ok (anomaly_detection.scores o)) = Raise nan_error.
Proof. vm_compute. repeat split. Qed.

(** C5 (as the code has it).  The scoring script has no recovery of its
    own for a center whose skewness or kurtosis is missing: the missing
    value is neither dropped nor imputed and is still NaN in the center's
    row of the scaled matrix handed to the forest.  With a forest that
    takes no missing value the script aborts and no center is scored; with
    one that does, the script runs to its end and the center gets a score
    and a flag. *)
Theorem missing_moments_reach_the_forest
    (rt : Runtime) (rs : RandomState) (global : rng)
    (df_results : DataFrame) (i idx : nat) (c : string) :
  aligned df_results = true ->
  In (c, idx) [("Center_Skewness"%string, 1%nat); ("Center_Kurtosis"%string, 2%nat)] ->
  at_ df_results i c = Some (Num NaN) ->
  (forall X, anomaly_detection.scaled_matrix df_results = Ok X ->
     exists row, nth_error X i = Some row /\ nth_error row idx = Some NaN) /\
  (iforest_allow_nan = false ->
   exists e, anomaly_detection.run global df_results = Raise e) /\
  (iforest_allow_nan = true ->
   (forall v, ~ v == 0 -> ~ fsqrt v == 0) ->
   has_col df_results "city" = true ->
   has_col df_results "center_name" = true ->
   forall X, anomaly_detection.scaled_matrix df_results = Ok X ->
   exists o d z,
     anomaly_detection.run global df_results = Ok o /\
     nth_error (anomaly_detection.scores o) i = Some d /\
     nth_error (anomaly_detection.flags o) i = Some z /\
     (z = (-1)%Z \/ z = 1%Z)).
Proof.
  intros Hal Hc Hi.
  assert (Hpos : In (c, idx) anomaly_detection.feature_positions).
  { simpl in Hc. simpl. tauto. }
  assert (Hrow : forall X, anomaly_detection.scaled_matrix df_results = Ok X ->
                   exists row, nth_error X i = Some row /\ nth_error row idx = Some NaN).
  { intros X HX. exact (matrix_keeps_missing df_results X c idx i HX Hal Hpos Hi). }
  split; [exact Hrow|]. split.
  - intros Hpol.
    destruct (anomaly_detection.scaled_matrix df_results) as [X|e] eqn:HX.
    + destruct (Hrow X eq_refl) as (row & H1 & H2).
      apply (run_raises_on_nan global df_results X HX); [|exact Hpol].
      eapply row_has_nan; eassumption.
    + exists e. apply run_raises_with_matrix. exact HX.
  - intros Hpol Hsqrt Hcity Hname X HX.
    destruct (run_ok global df_results X HX Hal
                (scaled_matrix_finite df_results X Hsqrt HX)
                (or_intror Hpol) Hcity Hname) as (o & Ho).
    destruct (run_inv global df_results o Ho) as (X' & HX' & _ & Hfl & Hsc & Hlen).
    assert (X' = X) by congruence. subst X'.
    destruct (Hrow X HX) as (row & Hr & _).
    pose proof (nth_error_length _ _ _ Hr) as Hlt.
    destruct (nth_error (anomaly_detection.scores o) i) as [d|] eqn:Hd.
    + exists o, d. eexists. split; [exact Ho|]. split; [exact Hd|].
      rewrite Hsc in Hd. rewrite Hfl.
      split; [apply flag_of_decision; exact Hd|].
      destruct (Qlt_bool d 0); auto.
    + exfalso. apply nth_error_None in Hd. rewrite Hsc in Hd.
      unfold decision_function, score_samples in Hd. rewrite !length_map in Hd. lia.
Qed.

Lemma missing_moments_reach_the_forest_witness :
  exists e,
    anomaly_detection.run (rt := Reference.runtime false) (rs := Reference.lcg)
      0%Z Examples.master_example = Raise e.
Proof.
  exact (proj1 (proj2 (missing_moments_reach_the_forest (Reference.runtime false)
           Reference.lcg 0%Z Examples.master_example 1 1 "Center_Skewness"
           eq_refl (or_introl eq_refl) eq_refl)) eq_refl).
Defined.

(** C5 fails as stated on a platform whose forest takes no missing value:
    the center with two marks has no skewness, and the script stops with
    [ValueError] before any center is scored. *)
Lemma missing_moment_aborts_scoring :
  at_ Examples.master_example 1 "Center_Skewness" = Some (Num NaN) /\
  anomaly_detection.run (rt := Reference.runtime false) (rs := Reference.lcg)
    0%Z Examples.master_example = Raise nan_error.
Proof. vm_compute. split; reflexivity. Qed.

(** On a platform whose forest takes missing values the same center is
    scored. *)
Lemma missing_moment_scored_when_supported :
  match anomaly_detection.run (rt := Reference.runtime true) (rs := Reference.lcg)
          0%Z Examples.master_example with
  | Ok o => exists d, nth_error (anomaly_detection.scores o) 1 = Some d
  | Raise _ => False
  end.
Proof. vm_compute. eexists. reflexivity. Qed.

(* ================================================================== *)
(** * Further properties of the three programs *)

(* ================================================================== *)
(** ** master_data.py: the sheets, the metrics and the final check *)

(** ** Stacking the sheets *)

Lemma lookup_col_map_key (f : string -> Series) (cs : list string) (c : string) :
  lookup_col c (map (fun c0 => (c0, f c0)) cs)
  = if mem_string c cs then Some (f c) else None.
Proof.
  induction cs as [|c0 cs IH]; [reflexivity|].
  cbn [map lookup_col mem_string existsb]. fold (mem_string c cs).
  destruct (String.eqb_spec c c0) as [->|]; [reflexivity | exact IH].
Qed.

Lemma mem_string_In (c : string) (cs : list string) :
  mem_string c cs = true <-> In c cs.
Proof.
  unfold mem_string. rewrite existsb_exists. split.
  - intros (x & Hx & E). apply String.eqb_eq in E. subst. exact Hx.
  - intros H. exists c. split; [exact H | apply String.eqb_refl].
Qed.

Lemma has_col_In (df : DataFrame) (c : string) :
  has_col df c = true <-> In c (columns df).
Proof.
  unfold has_col. destruct (lookup_col c df) eqn:E.
  - split; [intros _ | reflexivity].
    apply lookup_col_In in E. change c with (fst (c, s)). apply in_map. exact E.
  - split; [discriminate|]. intros H. apply lookup_col_columns in E. contradiction.
Qed.

Lemma column_or_missing_length (c : string) (df : DataFrame) :
  aligned df = true -> df <> [] -> length (column_or_missing c df) = nrows df.
Proof.
  intros Hal Hne. unfold column_or_missing.
  destruct (lookup_col c df) eqn:E.
  - apply (aligned_length df c s Hal E).
  - apply repeat_length.
Qed.

Lemma concat_inv (frames : list DataFrame) (df : DataFrame) :
  concat frames = Ok df ->
  frames <> [] /\
  df = map (fun c => (c, flat_map (column_or_missing c) frames))
           (unique String.eqb (flat_map columns frames)).
Proof.
  unfold concat. destruct frames; [discriminate|].
  intros H. injection H as <-. split; [discriminate | reflexivity].
Qed.

Lemma concat_lookup (frames : list DataFrame) (df : DataFrame) (c : string) :
  concat frames = Ok df ->
  lookup_col c df
  = if existsb (fun sh => has_col sh c) frames
    then Some (flat_map (column_or_missing c) frames) else None.
Proof.
  intros H. apply concat_inv in H. destruct H as [_ ->].
  rewrite lookup_col_map_key.
  assert (E : mem_string c (unique String.eqb (flat_map columns frames))
              = existsb (fun sh => has_col sh c) frames).
  { apply eq_true_iff_eq. rewrite mem_string_In, unique_In, in_flat_map, existsb_exists.
    split; intros (sh & Hsh & Hc); exists sh; (split; [exact Hsh|]);
      apply has_col_In; exact Hc. }
  rewrite E. reflexivity.
Qed.

Lemma stacked_column_length (c : string) (frames : list DataFrame) :
  Forall (fun sh => aligned sh = true) frames ->
  length (flat_map (column_or_missing c) frames) = list_sum (map nrows frames).
Proof.
  induction 1 as [|sh frames Hal _ IH]; [reflexivity|].
  cbn [flat_map map list_sum fold_right]. rewrite length_app, IH.
  change (fold_right Nat.add 0%nat (map nrows frames)) with (list_sum (map nrows frames)).
  f_equal.
  unfold column_or_missing. destruct (lookup_col c sh) eqn:E.
  - apply (aligned_length sh c s Hal E).
  - apply repeat_length.
Qed.

Lemma no_columns_no_rows (frames : list DataFrame) :
  flat_map columns frames = [] -> list_sum (map nrows frames) = 0%nat.
Proof.
  induction frames as [|sh frames IH]; [reflexivity|].
  cbn [flat_map]. intros H. apply app_eq_nil in H. destruct H as [H1 H2].
  destruct sh; [|discriminate]. simpl. auto.
Qed.

Lemma unique_nil (l : list string) : unique String.eqb l = [] -> l = [].
Proof. destruct l; [reflexivity | discriminate]. Qed.

(** X1. Stacking the sheets keeps every row: the stacked table has as many
    rows as all sheets together, every column it has is that long, its
    columns are those that occur in some sheet, each once, and a column
    holds the values of the sheets one after the other, with missing
    values for a sheet that lacks it. *)
Theorem stacked_sheets_keep_every_row (sheets : list DataFrame) (df_marks : DataFrame) :
  concat sheets = Ok df_marks ->
  Forall (fun sh => aligned sh = true) sheets ->
  nrows df_marks = list_sum (map nrows sheets) /\
  aligned df_marks = true /\
  NoDup (columns df_marks) /\
  (forall c, has_col df_marks c = true
             <-> exists sh, In sh sheets /\ has_col sh c = true) /\
  (forall c s, lookup_col c df_marks = Some s ->
     s = flat_map (column_or_missing c) sheets /\
     length s = list_sum (map nrows sheets)).
Proof.
  intros Hc Hal.
  assert (Hcol : forall c s, lookup_col c df_marks = Some s ->
     s = flat_map (column_or_missing c) sheets /\
     length s = list_sum (map nrows sheets)).
  { intros c s Hs. rewrite (concat_lookup sheets df_marks c Hc) in Hs.
    destruct (existsb (fun sh => has_col sh c) sheets); [|discriminate].
    injection Hs as <-. split; [reflexivity | apply stacked_column_length; exact Hal]. }
  assert (Hn : nrows df_marks = list_sum (map nrows sheets)).
  { destruct df_marks as [|[c s] rest] eqn:E.
    - apply concat_inv in Hc. destruct Hc as [_ Hc]. symmetry in Hc.
      apply map_eq_nil, unique_nil in Hc. symmetry. apply no_columns_no_rows. exact Hc.
    - cbn [nrows]. apply (Hcol c s). cbn [lookup_col]. rewrite String.eqb_refl. reflexivity. }
  split; [exact Hn|]. split; [|split; [|split; [|exact Hcol]]].
  - unfold aligned. apply forallb_forall. intros [c s] Hp. cbn [snd].
    apply Nat.eqb_eq. rewrite Hn.
    pose proof Hc as Hc'. apply concat_inv in Hc'. destruct Hc' as [_ E].
    rewrite E in Hp. apply in_map_iff in Hp. destruct Hp as (c0 & E0 & _).
    injection E0 as <- <-. apply stacked_column_length. exact Hal.
  - apply concat_inv in Hc. destruct Hc as [_ ->].
    unfold columns. rewrite map_map. cbn [fst]. rewrite map_id. apply unique_NoDup.
  - intros c. unfold has_col at 1. rewrite (concat_lookup sheets df_marks c Hc).
    destruct (existsb (fun sh => has_col sh c) sheets) eqn:E.
    + split; [intros _ | reflexivity]. apply existsb_exists in E. exact E.
    + split; [discriminate|]. intros Hex. apply existsb_exists in Hex. congruence.
Qed.

Lemma stacked_sheets_keep_every_row_witness :
  match concat Examples.sheets with
  | Ok df_marks => nrows df_marks = 9%nat /\ aligned df_marks = true
  | Raise _ => False
  end.
Proof.
  destruct (concat Examples.sheets) as [df|e] eqn:E.
  - destruct (stacked_sheets_keep_every_row Examples.sheets df E) as (H1 & H2 & _).
    + repeat constructor.
    + split; [exact H1 | exact H2].
  - discriminate E.
Defined.

(** X2. When no sheet of the marks workbook has a [sno] column, the
    script stops at the removal of that column with a [KeyError]: the
    handler around the loading step catches a missing file only. *)
Theorem missing_sno_column_stops_the_script
    (rt : Runtime) (sheets : list DataFrame) (df_center_stats : DataFrame) :
  sheets <> [] ->
  (forall sh, In sh sheets -> has_col sh "sno" = false) ->
  master_data.main sheets df_center_stats = Raise (KeyError "sno").
Proof.
  intros Hne Hno. unfold master_data.main.
  destruct (concat sheets) as [df_marks|e] eqn:Hc.
  - cbn [bind]. unfold master_data.run, drop_columns.
    cbn [mapM]. unfold get_col at 1.
    rewrite (concat_lookup sheets df_marks "sno" Hc).
    replace (existsb (fun sh => has_col sh "sno") sheets) with false; [reflexivity|].
    symmetry. apply not_true_is_false. intros E. apply existsb_exists in E.
    destruct E as (sh & Hsh & E). rewrite (Hno sh Hsh) in E. discriminate.
  - destruct sheets; [congruence | discriminate].
Qed.

Lemma missing_sno_column_stops_the_script_witness :
  master_data.main (rt := Reference.runtime true)
    Examples.sheets_without_sno Examples.center_stats = Raise (KeyError "sno").
Proof.
  apply missing_sno_column_stops_the_script.
  - discriminate.
  - intros sh Hsh. simpl in Hsh. destruct Hsh as [<-|[<-|[]]]; reflexivity.
Defined.

(** ** One group per center, whatever the sheet *)

Lemma group_of_app {A} (k : cell) (k1 k2 : Series) (v1 v2 : list A) :
  length k1 = length v1 ->
  group_of k (k1 ++ k2) (v1 ++ v2) = group_of k k1 v1 ++ group_of k k2 v2.
Proof.
  intros H. unfold group_of.
  assert (E : combine (k1 ++ k2) (v1 ++ v2) = combine k1 v1 ++ combine k2 v2).
  { revert v1 H. induction k1 as [|x k1 IH]; intros [|y v1] H; simpl in *;
      try discriminate; [reflexivity|].
    f_equal. apply IH. lia. }
  rewrite E, filter_app, map_app. reflexivity.
Qed.

Lemma group_of_stacked {A} (k : cell) (frames : list DataFrame)
    (keys_of : DataFrame -> Series) (vals_of : DataFrame -> list A) :
  (forall sh, In sh frames -> length (keys_of sh) = length (vals_of sh)) ->
  group_of k (flat_map keys_of frames) (flat_map vals_of frames)
  = flat_map (fun sh => group_of k (keys_of sh) (vals_of sh)) frames.
Proof.
  induction frames as [|sh frames IH]; intros H; [reflexivity|].
  cbn [flat_map]. rewrite group_of_app by (apply H; left; reflexivity).
  rewrite IH by (intros; apply H; right; assumption). reflexivity.
Qed.

Lemma to_float_numbers (cells : Series) :
  forallb (fun c => negb (is_text c)) cells = true ->
  mapM (to_float not_numeric) cells = Ok (map as_number cells).
Proof.
  induction cells as [|c cells IH]; [reflexivity|].
  cbn [forallb]. rewrite andb_true_iff. intros [Hc Hr].
  cbn [mapM map]. rewrite (IH Hr).
  destruct c; [reflexivity | discriminate | reflexivity].
Qed.

Lemma map_flat_map {A B C} (g : B -> C) (f : A -> list B) (l : list A) :
  map g (flat_map f l) = flat_map (fun a => map g (f a)) l.
Proof.
  induction l as [|a l IH]; [reflexivity|].
  cbn [flat_map]. rewrite map_app, IH. reflexivity.
Qed.

Lemma forallb_flat_map {A B} (p : B -> bool) (f : A -> list B) (l : list A) :
  (forall a, In a l -> forallb p (f a) = true) -> forallb p (flat_map f l) = true.
Proof.
  intros H. apply forallb_forall. intros b Hb. apply in_flat_map in Hb.
  destruct Hb as (a & Ha & Hb).
  specialize (H a Ha). rewrite forallb_forall in H. auto.
Qed.

(** X3. A center whose students are listed on several sheets is one group:
    its three moments are computed over all its marks, taken sheet after
    sheet in the order of the workbook. *)
Theorem center_on_several_sheets_is_one_group
    (rt : Runtime) (sheets : list DataFrame) (df_marks : DataFrame) :
  concat sheets = Ok df_marks ->
  Forall (fun sh => aligned sh = true) sheets ->
  (forall sh, In sh sheets ->
     exists ks ms, lookup_col "center_id" sh = Some ks /\
                   lookup_col "marks" sh = Some ms /\
                   forallb (fun c => negb (is_text c)) ms = true) ->
  (exists sh, In sh sheets /\ has_col sh "sno" = true) ->
  exists dm agg keys,
    drop_columns df_marks ["sno"%string] = Ok dm /\
    master_data.rounded_moments dm = Ok agg /\
    lookup_col "center_id" df_marks = Some keys /\
    lookup_col "center_id" agg = Some (group_keys keys) /\
    forall i k, nth_error (group_keys keys) i = Some k ->
      let marks_of sh :=
        group_of k (column_or_missing "center_id" sh)
                   (map as_number (column_or_missing "marks" sh)) in
      let all_marks := flat_map marks_of sheets in
      at_ agg i "Center_Std_Dev" = Some (Num (round_float 3 (nanstd all_marks))) /\
      at_ agg i "Center_Skewness" = Some (Num (round_float 3 (nanskew all_marks))) /\
      at_ agg i "Center_Kurtosis" = Some (Num (round_float 3 (nankurt all_marks))).
Proof.
  intros Hc Hal Hcols (sh0 & Hsh0 & Hsno).
  assert (Hhas : forall c, (forall sh, In sh sheets -> has_col sh c = true) ->
            lookup_col c df_marks = Some (flat_map (column_or_missing c) sheets)).
  { intros c H. rewrite (concat_lookup sheets df_marks c Hc).
    replace (existsb (fun sh => has_col sh c) sheets) with true; [reflexivity|].
    symmetry. apply existsb_exists. exists sh0. auto. }
  assert (Hid : forall sh, In sh sheets -> has_col sh "center_id" = true).
  { intros sh Hsh. destruct (Hcols sh Hsh) as (ks & ms & E & _). unfold has_col.
    rewrite E. reflexivity. }
  assert (Hmk : forall sh, In sh sheets -> has_col sh "marks" = true).
  { intros sh Hsh. destruct (Hcols sh Hsh) as (ks & ms & _ & E & _). unfold has_col.
    rewrite E. reflexivity. }
  set (keys := flat_map (column_or_missing "center_id") sheets).
  set (cells := flat_map (column_or_missing "marks") sheets).
  assert (Hsnocol : exists s, lookup_col "sno" df_marks = Some s).
  { rewrite (concat_lookup sheets df_marks _ Hc).
    replace (existsb (fun sh => has_col sh "sno") sheets) with true; [eauto|].
    symmetry. apply existsb_exists. exists sh0. auto. }
  destruct Hsnocol as (snocol & Hsnocol).
  assert (Hdrop : exists dm, drop_columns df_marks ["sno"%string] = Ok dm).
  { unfold drop_columns. cbn [mapM]. unfold get_col. rewrite Hsnocol. cbn [bind]. eauto. }
  destruct Hdrop as (dm & Hdrop).
  assert (Hk : get_col dm "center_id" = Ok keys).
  { rewrite (drop_columns_get df_marks dm _ "center_id" Hdrop eq_refl).
    apply get_col_ok. apply Hhas. exact Hid. }
  assert (Hm : get_col dm "marks" = Ok cells).
  { rewrite (drop_columns_get df_marks dm _ "marks" Hdrop eq_refl).
    apply get_col_ok. apply Hhas. exact Hmk. }
  assert (Hnum : forallb (fun c => negb (is_text c)) cells = true).
  { apply forallb_flat_map. intros sh Hsh.
    destruct (Hcols sh Hsh) as (ks & ms & _ & E & Hn).
    unfold column_or_missing. rewrite E. exact Hn. }
  pose proof (to_float_numbers cells Hnum) as Hv.
  exists dm. eexists. exists keys.
  split; [exact Hdrop|].
  split; [exact (rounded_moments_ok dm keys cells _ Hk Hm Hv)|].
  split; [apply Hhas; exact Hid|]. split; [reflexivity|].
  intros i k Hi marks_of all_marks.
  assert (Hg : group_of k keys (map as_number cells) = all_marks).
  { unfold keys, cells, all_marks, marks_of. rewrite map_flat_map.
    apply group_of_stacked. intros sh Hsh. rewrite length_map.
    destruct (Hcols sh Hsh) as (ks & ms & E1 & E2 & _).
    rewrite Forall_forall in Hal. specialize (Hal sh Hsh).
    unfold column_or_missing. rewrite E1, E2.
    rewrite (aligned_length sh _ ks Hal E1), (aligned_length sh _ ms Hal E2). reflexivity. }
  unfold at_. cbn [lookup_col String.eqb Ascii.eqb Bool.eqb].
  rewrite !nth_error_map, Hi. cbn [option_map]. rewrite Hg. auto.
Qed.

Lemma center_on_several_sheets_is_one_group_witness :
  match concat Examples.sheets with
  | Ok df_marks =>
      exists dm agg,
        drop_columns df_marks ["sno"%string] = Ok dm /\
        master_data.rounded_moments (rt := Reference.runtime true) dm = Ok agg /\
        at_ agg 1 "Center_Std_Dev"
        = Some (Num (round_float 3
                       (nanstd (rt := Reference.runtime true)
                          [Finite (inject_Z 300); Finite (inject_Z 500)])))
  | Raise _ => False
  end.
Proof.
  destruct (concat Examples.sheets) as [df|e] eqn:E; [|discriminate E].
  destruct (center_on_several_sheets_is_one_group (Reference.runtime true)
              Examples.sheets df E) as (dm & agg & keys & Hd & Hr & Hk & _ & Hrows).
  - repeat constructor.
  - intros sh Hsh. simpl in Hsh.
    destruct Hsh as [<-|[<-|[]]]; eexists; eexists; repeat split; reflexivity.
  - eexists. split; [left; reflexivity | reflexivity].
  - exists dm, agg. split; [exact Hd|]. split; [exact Hr|].
    vm_compute in E. injection E as <-.
    vm_compute in Hk. injection Hk as <-.
    destruct (Hrows 1%nat (Examples.num 20) eq_refl) as (H1 & _).
    exact H1.
Defined.

(** ** Rounding to three decimals *)

Lemma Qlt_bool_false_le (x y : Q) : Qlt_bool x y = false -> y <= x.
Proof.
  unfold Qlt_bool. rewrite negb_false_iff. apply Qle_bool_iff.
Qed.

Lemma rint_close (y : Q) : Qabs (inject_Z (rint y) - y) <= 1 # 2.
Proof.
  pose proof (Qfloor_le y) as Hlo. pose proof (Qlt_floor y) as Hhi.
  rewrite inject_Z_plus in Hhi. change (inject_Z 1) with 1 in Hhi.
  apply Qabs_Qle_condition. unfold rint.
  destruct (Qlt_bool (y - inject_Z (Qfloor y)) (1 # 2)) eqn:E1.
  - apply Qlt_bool_iff in E1.
    generalize dependent (inject_Z (Qfloor y)). intros f; intros. split; lra.
  - apply Qlt_bool_false_le in E1.
    destruct (Qlt_bool (1 # 2) (y - inject_Z (Qfloor y))) eqn:E2.
    + rewrite inject_Z_plus. change (inject_Z 1) with 1.
      generalize dependent (inject_Z (Qfloor y)). intros f; intros. split; lra.
    + apply Qlt_bool_false_le in E2.
      destruct (Z.even (Qfloor y));
        [|rewrite inject_Z_plus; change (inject_Z 1) with 1];
        generalize dependent (inject_Z (Qfloor y)); intros f; intros; split; lra.
Qed.

Lemma rint_bounds (y : Q) :
  (Qfloor y <= rint y <= Qfloor y + 1)%Z.
Proof.
  unfold rint.
  destruct (Qlt_bool (y - inject_Z (Qfloor y)) (1 # 2)); [lia|].
  destruct (Qlt_bool (1 # 2) (y - inject_Z (Qfloor y))); [lia|].
  destruct (Z.even (Qfloor y)); lia.
Qed.

Lemma rint_monotone (y y' : Q) : y <= y' -> (rint y <= rint y')%Z.
Proof.
  intros H. pose proof (Qfloor_resp_le y y' H) as Hf.
  destruct (Z.eq_dec (Qfloor y) (Qfloor y')) as [E|N].
  - unfold rint. rewrite <- E.
    destruct (Qlt_bool (y - inject_Z (Qfloor y)) (1 # 2)) eqn:A.
    + destruct (Qlt_bool (y' - inject_Z (Qfloor y)) (1 # 2)); [lia|].
      destruct (Qlt_bool (1 # 2) (y' - inject_Z (Qfloor y))); [lia|].
      destruct (Z.even (Qfloor y)); lia.
    + apply Qlt_bool_false_le in A.
      assert (A' : Qlt_bool (y' - inject_Z (Qfloor y)) (1 # 2) = false).
      { destruct (Qlt_bool (y' - inject_Z (Qfloor y)) (1 # 2)) eqn:B; [|reflexivity].
        apply Qlt_bool_iff in B.
        generalize dependent (inject_Z (Qfloor y)). intros f; intros. lra. }
      rewrite A'.
      destruct (Qlt_bool (1 # 2) (y - inject_Z (Qfloor y))) eqn:C.
      * apply Qlt_bool_iff in C.
        assert (C' : Qlt_bool (1 # 2) (y' - inject_Z (Qfloor y)) = true).
        { apply Qlt_bool_iff.
          generalize dependent (inject_Z (Qfloor y)). intros f; intros. lra. }
        rewrite C'. lia.
      * destruct (Qlt_bool (1 # 2) (y' - inject_Z (Qfloor y)));
          destruct (Z.even (Qfloor y)); lia.
  - pose proof (rint_bounds y). pose proof (rint_bounds y'). lia.
Qed.

Lemma round_float_3_value (q : Q) :
  round_float 3 (Finite q) = Finite (inject_Z (rint (q * 1000)) / 1000).
Proof. reflexivity. Qed.

Lemma round_float_3_monotone (q q' : Q) :
  q <= q' ->
  inject_Z (rint (q * 1000)) / 1000 <= inject_Z (rint (q' * 1000)) / 1000.
Proof.
  intros H.
  assert (Hm : q * 1000 <= q' * 1000) by lra.
  apply rint_monotone in Hm. rewrite Zle_Qle in Hm.
  apply Qmult_le_compat_r; [exact Hm | discriminate].
Qed.

Lemma round_float_3_near (q : Q) :
  Qabs (inject_Z (rint (q * 1000)) / 1000 - q) < 1 # 1000.
Proof.
  pose proof (rint_close (q * 1000)) as H.
  apply Qabs_Qle_condition in H. apply Qabs_Qlt_condition.
  set (r := inject_Z (rint (q * 1000))) in *.
  assert (E : r / 1000 - q == (r - q * 1000) / 1000) by (field).
  rewrite E. destruct H as [H1 H2]. split.
  - apply Qlt_shift_div_l; [reflexivity|]. lra.
  - apply Qlt_shift_div_r; [reflexivity|]. lra.
Qed.

Lemma aggregate_inv {rt : Runtime} (df_marks agg : DataFrame) :
  master_data.aggregate df_marks = Ok agg ->
  exists keys cells vals,
    get_col df_marks "center_id" = Ok keys /\
    get_col df_marks "marks" = Ok cells /\
    mapM (to_float not_numeric) cells = Ok vals.
Proof.
  unfold master_data.aggregate, groupby_agg. intros H.
  apply bind_ok in H. destruct H as (keys & Hk & H).
  apply bind_ok in H. destruct H as (cells & Hc & H).
  apply bind_ok in H. destruct H as (vals & Hv & H).
  exists keys, cells, vals. auto.
Qed.

Lemma moment_cell_rounded {K : Type} (f : list float -> float) (g : K -> list float)
    (ks : list K) (i : nat) (x : float) :
  nth_error (map (fun k => Num (f (g k))) ks) i = Some (Num x) ->
  nth_error (map (fun k => Num (round_float 3 (f (g k)))) ks) i
    = Some (Num (round_float 3 x)).
Proof.
  rewrite !nth_error_map.
  destruct (nth_error ks i) as [k|]; [|discriminate].
  cbn [option_map]. intros H. injection H as ->. reflexivity.
Qed.

(** X4.  Rounding the aggregated frame touches the three moment columns
    only, and a missing or infinite moment stays as it is.  A finite moment
    of size at most a million is replaced by a value less than one
    thousandth away from it, of the same sign or zero; and rounding keeps
    the order: of two centers the one with the smaller moment never gets
    the larger rounded one.  These are the properties of rounding that do
    not depend on the products and quotients being exact. *)
Theorem saved_moments_stay_within_a_thousandth
    (rt : Runtime) (df_marks exact : DataFrame) :
  master_data.aggregate df_marks = Ok exact ->
  exists agg,
    master_data.rounded_moments df_marks = Ok agg /\
    columns agg = columns exact /\
    lookup_col "center_id" agg = lookup_col "center_id" exact /\
    (forall c i x, In c master_data.moment_columns ->
       at_ exact i c = Some (Num x) ->
       match x with
       | Finite q =>
           exists r : Q,
             at_ agg i c = Some (Num (Finite r)) /\
             (Qabs q <= 1000000 -> Qabs (r - q) < 1 # 1000) /\
             (0 <= q -> 0 <= r) /\
             (q <= 0 -> r <= 0)
       | _ => at_ agg i c = Some (Num x)
       end) /\
    (forall c i j q q', In c master_data.moment_columns ->
       at_ exact i c = Some (Num (Finite q)) ->
       at_ exact j c = Some (Num (Finite q')) ->
       q <= q' ->
       exists r r' : Q,
         at_ agg i c = Some (Num (Finite r)) /\
         at_ agg j c = Some (Num (Finite r')) /\
         r <= r').
Proof.
  intros Hagg.
  destruct (aggregate_inv df_marks exact Hagg) as (keys & cells & vals & Hk & Hc & Hv).
  rewrite (aggregate_ok df_marks keys cells vals Hk Hc Hv) in Hagg.
  injection Hagg as <-.
  eexists. split; [exact (rounded_moments_ok df_marks keys cells vals Hk Hc Hv)|].
  split; [reflexivity|]. split; [reflexivity|].
  assert (Hcell : forall c i x, In c master_data.moment_columns ->
    at_ [("center_id"%string, group_keys keys);
         ("Center_Std_Dev"%string,
          map (fun k => Num (nanstd (group_of k keys vals))) (group_keys keys));
         ("Center_Skewness"%string,
          map (fun k => Num (nanskew (group_of k keys vals))) (group_keys keys));
         ("Center_Kurtosis"%string,
          map (fun k => Num (nankurt (group_of k keys vals))) (group_keys keys))] i c
      = Some (Num x) ->
    at_ [("center_id"%string, group_keys keys);
         ("Center_Std_Dev"%string,
          map (fun k => Num (round_float 3 (nanstd (group_of k keys vals))))
              (group_keys keys));
         ("Center_Skewness"%string,
          map (fun k => Num (round_float 3 (nanskew (group_of k keys vals))))
              (group_keys keys));
         ("Center_Kurtosis"%string,
          map (fun k => Num (round_float 3 (nankurt (group_of k keys vals))))
              (group_keys keys))] i c
      = Some (Num (round_float 3 x))).
  { intros c i x Hin Hx. unfold at_ in *. simpl in Hin.
    destruct Hin as [<-|[<-|[<-|[]]]];
      cbn [lookup_col String.eqb Ascii.eqb Bool.eqb] in *;
      apply moment_cell_rounded; exact Hx. }
  split.
  - intros c i x Hin Hx. pose proof (Hcell c i x Hin Hx) as Hr.
    destruct x as [q|b|]; [|exact Hr|exact Hr].
    rewrite round_float_3_value in Hr.
    eexists. split; [exact Hr|]. split; [|split].
    + intros _. apply round_float_3_near.
    + intros H0. pose proof (round_float_3_monotone 0 q H0) as M.
      eapply Qle_trans; [|exact M]. discriminate.
    + intros H0. pose proof (round_float_3_monotone q 0 H0) as M.
      eapply Qle_trans; [exact M|]. discriminate.
  - intros c i j q q' Hin Hi Hj Hle.
    pose proof (Hcell c i _ Hin Hi) as Ri. pose proof (Hcell c j _ Hin Hj) as Rj.
    rewrite round_float_3_value in Ri, Rj.
    eexists. eexists. split; [exact Ri|]. split; [exact Rj|].
    apply round_float_3_monotone. exact Hle.
Qed.

Lemma saved_moments_stay_within_a_thousandth_witness :
  match master_data.aggregate (rt := Reference.runtime true) Examples.student_marks with
  | Ok exact =>
      exists agg q r,
        master_data.rounded_moments (rt := Reference.runtime true) Examples.student_marks
          = Ok agg /\
        columns agg = columns exact /\
        at_ exact 2 "Center_Std_Dev" = Some (Num (Finite q)) /\
        at_ agg 2 "Center_Std_Dev" = Some (Num (Finite r)) /\
        Qabs (r - q) < 1 # 1000
  | Raise _ => False
  end.
Proof.
  destruct (master_data.aggregate (rt := Reference.runtime true) Examples.student_marks)
    as [exact|e] eqn:E.
  - destruct (saved_moments_stay_within_a_thousandth (Reference.runtime true)
                Examples.student_marks exact E) as (agg & H1 & H2 & _ & Hc & _).
    vm_compute in E. injection E as <-.
    pose proof (Hc "Center_Std_Dev"%string 2%nat _
                  (or_introl eq_refl) eq_refl) as (r & R1 & R2 & _).
    exists agg. eexists. exists r.
    split; [exact H1|]. split; [exact H2|]. split; [reflexivity|].
    split; [exact R1|]. apply R2. vm_compute. discriminate.
  - vm_compute in E. discriminate E.
Defined.

(** ** The derived metrics *)

(** What [add_metrics] reads and writes, whether or not the frame already
    has columns with the names of the metrics. *)
Lemma add_metrics_inv (df df' : DataFrame) :
  master_data.add_metrics df = Ok df' ->
  exists a700 tot a600 ca na sa sm v1 v2 v3 v4,
    lookup_col "above_700_marks" df = Some a700 /\
    lookup_col "total_students" df = Some tot /\
    lookup_col "above_600_marks" df = Some a600 /\
    lookup_col "center_average_marks" df = Some ca /\
    lookup_col "national_average_marks" df = Some na /\
    lookup_col "state_average_marks" df = Some sa /\
    series_div a700 tot = Ok v1 /\
    series_add a600 a700 = Ok sm /\ series_div sm tot = Ok v2 /\
    series_sub ca na = Ok v3 /\ series_sub ca sa = Ok v4 /\
    lookup_col "Ultra_High_Score_Ratio" df' = Some v1 /\
    lookup_col "High_Score_Ratio" df' = Some v2 /\
    lookup_col "Center_v_National_Gap" df' = Some v3 /\
    lookup_col "Center_v_State_Gap" df' = Some v4 /\
    (forall c, mem_string c master_data.metric_columns = false ->
               lookup_col c df' = lookup_col c df).
Proof.
  unfold master_data.add_metrics. intros H.
  apply bind_ok in H. destruct H as (a700 & Ea & H).
  apply bind_ok in H. destruct H as (tot & Et & H).
  apply bind_ok in H. destruct H as (v1 & Ev1 & H).
  apply bind_ok in H. destruct H as (df1 & S1 & H).
  apply bind_ok in H. destruct H as (a600 & Ea6 & H).
  apply bind_ok in H. destruct H as (a700' & Ea' & H).
  apply bind_ok in H. destruct H as (sm & Esm & H).
  apply bind_ok in H. destruct H as (tot' & Et' & H).
  apply bind_ok in H. destruct H as (v2 & Ev2 & H).
  apply bind_ok in H. destruct H as (df2 & S2 & H).
  apply bind_ok in H. destruct H as (ca & Eca & H).
  apply bind_ok in H. destruct H as (na & Ena & H).
  apply bind_ok in H. destruct H as (v3 & Ev3 & H).
  apply bind_ok in H. destruct H as (df3 & S3 & H).
  apply bind_ok in H. destruct H as (ca' & Eca' & H).
  apply bind_ok in H. destruct H as (sa & Esa & S4).
  apply bind_ok in S4. destruct S4 as (v4 & Ev4 & S4).
  apply get_col_ok in Ea, Et, Ea6, Ea', Et', Eca, Ena, Eca', Esa.
  pose proof (fun c N => set_col_lookup_other df df1 _ c v1 N S1) as O1.
  pose proof (fun c N => set_col_lookup_other df1 df2 _ c v2 N S2) as O2.
  pose proof (fun c N => set_col_lookup_other df2 df3 _ c v3 N S3) as O3.
  pose proof (fun c N => set_col_lookup_other df3 df' _ c v4 N S4) as O4.
  rewrite O1 in Ea6, Ea', Et' by discriminate.
  rewrite O2, O1 in Eca, Ena by discriminate.
  rewrite O3, O2, O1 in Eca', Esa by discriminate.
  assert (a700' = a700) by congruence. assert (tot' = tot) by congruence.
  assert (ca' = ca) by congruence. subst a700' tot' ca'.
  exists a700, tot, a600, ca, na, sa, sm, v1, v2, v3, v4.
  repeat (split; [assumption|]).
  split; [rewrite O4, O3, O2 by discriminate; eapply set_col_lookup_same; exact S1|].
  split; [rewrite O4, O3 by discriminate; eapply set_col_lookup_same; exact S2|].
  split; [rewrite O4 by discriminate; eapply set_col_lookup_same; exact S3|].
  split; [eapply set_col_lookup_same; exact S4|].
  intros c Hc. cbn [mem_string master_data.metric_columns existsb] in Hc.
  rewrite !orb_false_iff in Hc. destruct Hc as (N1 & N2 & N3 & N4 & _).
  apply String.eqb_neq in N1, N2, N3, N4.
  rewrite O4, O3, O2, O1 by assumption. reflexivity.
Qed.

Lemma Qeq_bool_pos (t : Q) : 0 < t -> Qeq_bool t 0 = false.
Proof.
  intros H. destruct (Qeq_bool t 0) eqn:E; [|reflexivity].
  apply Qeq_bool_eq in E. rewrite E in H. discriminate H.
Qed.

(** X5. For a center with students and with consistent counts (none
    negative, not more high scorers than students) both score ratios are
    fractions, and the high-score ratio, which counts the marks above 600
    and those above 700, is never below the ultra-high one. *)
Theorem score_ratios_are_nested_fractions
    (df_center_stats df : DataFrame) (i : nat) (a6 a7 t : Q) :
  master_data.add_metrics df_center_stats = Ok df ->
  at_ df_center_stats i "above_600_marks" = Some (Num (Finite a6)) ->
  at_ df_center_stats i "above_700_marks" = Some (Num (Finite a7)) ->
  at_ df_center_stats i "total_students" = Some (Num (Finite t)) ->
  0 <= a6 -> 0 <= a7 -> a6 + a7 <= t -> 0 < t ->
  exists u h,
    at_ df i "Ultra_High_Score_Ratio" = Some (Num (Finite u)) /\
    at_ df i "High_Score_Ratio" = Some (Num (Finite h)) /\
    u == a7 / t /\ h == (a6 + a7) / t /\
    0 <= u /\ u <= h /\ h <= 1.
Proof.
  intros Hm H6 H7 Ht P6 P7 Hsum Hpos.
  destruct (add_metrics_inv df_center_stats df Hm)
    as (a700 & tot & a600 & ca & na & sa & sm & v1 & v2 & v3 & v4
        & L7 & Lt & L6 & _ & _ & _ & D1 & A & D2 & _ & _ & R1 & R2 & _).
  unfold at_ in *. rewrite L6 in H6. rewrite L7 in H7. rewrite Lt in Ht.
  rewrite R1, R2.
  destruct (map2M_nth _ _ _ _ i _ _ D1 H7 Ht) as (c1 & N1 & F1).
  destruct (map2M_nth _ _ _ _ i _ _ A H6 H7) as (c2 & N2 & F2).
  cbn in F2. injection F2 as <-.
  destruct (map2M_nth _ _ _ _ i _ _ D2 N2 Ht) as (c3 & N3 & F3).
  cbn [cell_binop to_float bind fdiv] in F1, F3.
  rewrite (Qeq_bool_pos t Hpos) in F1, F3.
  injection F1 as <-. injection F3 as <-.
  exists (a7 / t), ((a6 + a7) / t).
  split; [exact N1|]. split; [exact N3|].
  split; [reflexivity|]. split; [reflexivity|].
  split; [|split].
  - apply Qle_shift_div_l; [exact Hpos | lra].
  - apply Qle_shift_div_l; [exact Hpos|].
    assert (E : a7 / t * t == a7) by (field; lra). lra.
  - apply Qle_shift_div_r; [exact Hpos | lra].
Qed.

Lemma score_ratios_are_nested_fractions_witness :
  match master_data.add_metrics Examples.center_stats with
  | Ok df =>
      exists u h,
        at_ df 2 "Ultra_High_Score_Ratio" = Some (Num (Finite u)) /\
        at_ df 2 "High_Score_Ratio" = Some (Num (Finite h)) /\
        u <= h /\ h <= 1
  | Raise _ => False
  end.
Proof.
  destruct (master_data.add_metrics Examples.center_stats)
    as [df|e] eqn:E.
  - destruct (score_ratios_are_nested_fractions
                Examples.center_stats df 2 (inject_Z 2) (inject_Z 0) (inject_Z 3)
                E eq_refl eq_refl eq_refl)
      as (u & h & H1 & H2 & _ & _ & _ & H3 & H4);
      try (unfold Qle; simpl; lia); try reflexivity.
    exists u, h. auto.
  - vm_compute in E. discriminate E.
Defined.

(** X6.  The two gaps of a center tell on which side of the national and
    of the state average its own average lies: a gap is positive, zero or
    negative as the center's average is above, at or below the other one.
    The gap to the lower of the two averages is the larger one.  A center
    without a finite average has that same value as both gaps.  Only the
    sign and the order of the differences are used, which the rounding of a
    float64 difference keeps. *)
Theorem performance_gaps_tell_above_from_below
    (df_center_stats df : DataFrame) (i : nat) (c : float) (n s : Q) :
  master_data.add_metrics df_center_stats = Ok df ->
  at_ df_center_stats i "center_average_marks" = Some (Num c) ->
  at_ df_center_stats i "national_average_marks" = Some (Num (Finite n)) ->
  at_ df_center_stats i "state_average_marks" = Some (Num (Finite s)) ->
  match c with
  | Finite a =>
      exists gn gs,
        at_ df i "Center_v_National_Gap" = Some (Num (Finite gn)) /\
        at_ df i "Center_v_State_Gap" = Some (Num (Finite gs)) /\
        (0 < gn <-> n < a) /\ (gn == 0 <-> a == n) /\ (gn < 0 <-> a < n) /\
        (0 < gs <-> s < a) /\ (gs == 0 <-> a == s) /\ (gs < 0 <-> a < s) /\
        (n <= s -> gs <= gn) /\ (s <= n -> gn <= gs)
  | _ =>
      at_ df i "Center_v_National_Gap" = Some (Num c) /\
      at_ df i "Center_v_State_Gap" = Some (Num c)
  end.
Proof.
  intros Hm Hc Hn Hs.
  destruct (add_metrics_inv df_center_stats df Hm)
    as (a700 & tot & a600 & ca & na & sa & sm & v1 & v2 & v3 & v4
        & _ & _ & _ & Lc & Ln & Ls & _ & _ & _ & S1 & S2 & _ & _ & R3 & R4 & _).
  unfold at_ in *. rewrite Lc in Hc. rewrite Ln in Hn. rewrite Ls in Hs.
  rewrite R3, R4.
  destruct (map2M_nth _ _ _ _ i _ _ S1 Hc Hn) as (c1 & N1 & F1).
  destruct (map2M_nth _ _ _ _ i _ _ S2 Hc Hs) as (c2 & N2 & F2).
  cbn [cell_binop to_float bind] in F1, F2.
  injection F1 as <-. injection F2 as <-.
  destruct c as [a|b|].
  - exists (a + - n), (a + - s). cbn [fsub fadd fopp] in N1, N2.
    split; [exact N1|]. split; [exact N2|].
    repeat split; intros; lra.
  - split; [exact N1 | exact N2].
  - split; [exact N1 | exact N2].
Qed.

Lemma performance_gaps_tell_above_from_below_witness :
  match master_data.add_metrics Examples.center_stats with
  | Ok df =>
      exists gn gs,
        at_ df 0 "Center_v_National_Gap" = Some (Num (Finite gn)) /\
        at_ df 0 "Center_v_State_Gap" = Some (Num (Finite gs)) /\
        0 < gs /\ gs <= gn
  | Raise _ => False
  end.
Proof.
  destruct (master_data.add_metrics Examples.center_stats)
    as [df|e] eqn:E.
  - destruct (performance_gaps_tell_above_from_below
                Examples.center_stats df 0 (Finite (inject_Z 375)) (inject_Z 300)
                (inject_Z 350) E eq_refl eq_refl eq_refl)
      as (gn & gs & H1 & H2 & _ & _ & _ & H3 & _ & _ & H4 & _).
    exists gn, gs. split; [exact H1|]. split; [exact H2|]. split.
    + apply H3. reflexivity.
    + apply H4. discriminate.
  - vm_compute in E. discriminate E.
Defined.

(** ** Column names after the merge *)

Lemma string_length_app (a b : string) :
  String.length (a ++ b) = (String.length a + String.length b)%nat.
Proof. induction a as [|x a IH]; simpl; [reflexivity | f_equal; exact IH]. Qed.

(** A name that ends in a suffix has the first character of the suffix
    where the suffix starts. *)
Lemma suffix_start (c suffix name : string) :
  (c ++ suffix)%string = name ->
  String.get (String.length name - String.length suffix) name = String.get 0 suffix.
Proof.
  intros <-. rewrite string_length_app.
  replace (String.length c + String.length suffix - String.length suffix)%nat
    with (0 + String.length c)%nat by lia.
  symmetry. apply append_correct2.
Qed.

Lemma lookup_col_renamed (ren : string -> string) (g : Series -> Series)
    (df : DataFrame) (c : string) (s : Series) :
  lookup_col c (map (fun p => (ren (fst p), g (snd p))) df) = Some s ->
  exists c0 s0, In (c0, s0) df /\ ren c0 = c /\ s = g s0.
Proof.
  intros H. apply lookup_col_In in H. apply in_map_iff in H.
  destruct H as ([c0 s0] & E & Hin). cbn [fst snd] in E. injection E as E1 E2.
  exists c0, s0. auto.
Qed.

Lemma In_has_col (df : DataFrame) (c : string) (s : Series) :
  In (c, s) df -> has_col df c = true.
Proof.
  intros H. apply has_col_In. change c with (fst (c, s)). apply in_map. exact H.
Qed.

(** Where a column of a left merge comes from. *)
Lemma merge_left_lookup (left right merged : DataFrame) (on c : string) (s : Series) :
  merge_left left right on = Ok merged ->
  lookup_col c merged = Some s ->
  exists lk rk c0 s0,
    get_col left on = Ok lk /\ get_col right on = Ok rk /\
    let overlap := has_col left c0 && has_col right c0 && negb (String.eqb c0 on) in
    c = (if overlap then c0 ++ "_x" else c0)%string /\ In (c0, s0) left /\
      s = take_left (join_plan lk rk) s0
    \/
    c = (if overlap then c0 ++ "_y" else c0)%string /\ In (c0, s0) right /\
      c0 <> on /\ s = take_right (join_plan lk rk) s0.
Proof.
  unfold merge_left. intros H Hc.
  apply bind_ok in H. destruct H as (lk & Hlk & H).
  apply bind_ok in H. destruct H as (rk & Hrk & H). injection H as <-.
  rewrite lookup_col_app in Hc.
  match type of Hc with
  | match lookup_col c ?l with _ => _ end = _ => destruct (lookup_col c l) eqn:El
  end.
  - injection Hc as ->.
    apply (lookup_col_renamed
             (fun c0 => if has_col left c0 && has_col right c0 && negb (String.eqb c0 on)
                        then (c0 ++ "_x")%string else c0)
             (take_left (join_plan lk rk))) in El.
    destruct El as (c0 & s0 & Hin & E & ->).
    exists lk, rk, c0, s0. split; [exact Hlk|]. split; [exact Hrk|].
    left. auto.
  - apply (lookup_col_renamed
             (fun c0 => if has_col left c0 && has_col right c0 && negb (String.eqb c0 on)
                        then (c0 ++ "_y")%string else c0)
             (take_right (join_plan lk rk))) in Hc.
    destruct Hc as (c0 & s0 & Hin & E & ->).
    apply filter_In in Hin. destruct Hin as [Hin Hne]. cbn [fst] in Hne.
    apply negb_true_iff, String.eqb_neq in Hne.
    exists lk, rk, c0, s0. split; [exact Hlk|]. split; [exact Hrk|].
    right. auto.
Qed.

(** The steps of a successful run of [master_data.py]. *)
Lemma master_run_steps {rt : Runtime} (df_marks df_center_stats df_master : DataFrame) :
  master_data.run df_marks df_center_stats = Ok df_master ->
  exists dm keys cells vals left shown,
    drop_columns df_marks ["sno"%string] = Ok dm /\
    get_col dm "center_id" = Ok keys /\
    get_col dm "marks" = Ok cells /\
    mapM (to_float not_numeric) cells = Ok vals /\
    master_data.add_metrics df_center_stats = Ok left /\
    merge_left left
      [("center_id"%string, group_keys keys);
       ("Center_Std_Dev"%string,
        map (fun k => Num (round_float 3 (nanstd (group_of k keys vals))))
            (group_keys keys));
       ("Center_Skewness"%string,
        map (fun k => Num (round_float 3 (nanskew (group_of k keys vals))))
            (group_keys keys));
       ("Center_Kurtosis"%string,
        map (fun k => Num (round_float 3 (nankurt (group_of k keys vals))))
            (group_keys keys))] "center_id" = Ok df_master /\
    select df_master ["center_name"; "Center_Skewness"; "Center_Kurtosis"]%string
      = Ok shown /\
    sample_check 3 shown = Ok tt.
Proof.
  unfold master_data.run. intros H.
  apply bind_ok in H. destruct H as (dm & Hdrop & H).
  apply bind_ok in H. destruct H as (agg & Hagg & H).
  apply bind_ok in H. destruct H as (left & Hmet & H).
  apply bind_ok in H. destruct H as (merged & Hmerge & H).
  apply bind_ok in H. destruct H as (shown & Hsel & H).
  apply bind_ok in H. destruct H as ([] & Hchk & H). injection H as <-.
  destruct (rounded_moments_inv dm agg Hagg) as (keys & cells & vals & Hk & Hc & Hv & ->).
  exists dm, keys, cells, vals, left, shown. auto 10.
Qed.

(** A column of the master frame called [center_name] is that column of
    the center-stats frame, row by row. *)
Lemma master_center_name (left merged : DataFrame)
    (ks l1 l2 l3 s : Series) :
  merge_left left
    [("center_id"%string, ks); ("Center_Std_Dev"%string, l1);
     ("Center_Skewness"%string, l2); ("Center_Kurtosis"%string, l3)] "center_id"
    = Ok merged ->
  lookup_col "center_name" merged = Some s ->
  exists lk s0,
    get_col left "center_id" = Ok lk /\
    In ("center_name"%string, s0) left /\
    s = take_left (join_plan lk ks) s0.
Proof.
  intros Hm Hs.
  destruct (merge_left_lookup _ _ _ _ _ _ Hm Hs) as (lk & rk & c0 & s0 & Hlk & Hrk & H).
  injection Hrk as <-. cbn zeta in H.
  destruct H as [(E & Hin & ->) | (E & Hin & Hne & ->)].
  - exists lk, s0. split; [exact Hlk|]. split; [|reflexivity].
    destruct (has_col left c0 && _ && _).
    + symmetry in E. apply suffix_start in E. discriminate E.
    + subst c0. exact Hin.
  - exfalso. simpl in Hin.
    destruct Hin as [Hin|[Hin|[Hin|[Hin|[]]]]]; injection Hin as <- _;
      try congruence;
      match type of E with
      | _ = (if ?b then _ else _) => destruct b; discriminate E
      end.
Qed.

(** X7. The script runs to its end only on a marks table that has the
    columns [sno], [center_id] and [marks] and a center-stats sheet that
    has the key, the six inputs of the metrics, and [center_name], which
    is read by the final check alone. *)
Theorem master_script_needs_its_columns
    (rt : Runtime) (df_marks df_center_stats df_master : DataFrame) :
  master_data.run df_marks df_center_stats = Ok df_master ->
  forallb (has_col df_marks) ["sno"; "center_id"; "marks"]%string = true /\
  forallb (has_col df_center_stats)
    ["center_id"; "center_name"; "total_students"; "above_600_marks";
     "above_700_marks"; "center_average_marks"; "state_average_marks";
     "national_average_marks"]%string = true.
Proof.
  intros Hrun.
  destruct (master_run_steps _ _ _ Hrun)
    as (dm & keys & cells & vals & left & shown
        & Hdrop & Hk & Hc & _ & Hmet & Hmerge & Hsel & _).
  rewrite (drop_columns_get _ _ _ "center_id" Hdrop eq_refl) in Hk.
  rewrite (drop_columns_get _ _ _ "marks" Hdrop eq_refl) in Hc.
  apply get_col_ok in Hk, Hc.
  unfold drop_columns in Hdrop. apply bind_ok in Hdrop. destruct Hdrop as (l & Hsno & _).
  cbn [mapM] in Hsno. apply bind_ok in Hsno. destruct Hsno as (sno & Hsno & _).
  apply get_col_ok in Hsno.
  apply select_cons in Hsel. destruct Hsel as (s & rest & Hs & _ & _).
  apply get_col_ok in Hs.
  destruct (master_center_name _ _ _ _ _ _ _ Hmerge Hs) as (lk & s0 & Hlk & Hin & _).
  apply In_has_col in Hin. apply get_col_ok in Hlk.
  destruct (add_metrics_inv _ _ Hmet)
    as (a700 & tot & a600 & ca & na & sa & sm & v1 & v2 & v3 & v4
        & L1 & L2 & L3 & L4 & L5 & L6 & _ & _ & _ & _ & _ & _ & _ & _ & _ & Hkeep).
  rewrite (Hkeep "center_id"%string eq_refl) in Hlk.
  unfold has_col in Hin. rewrite (Hkeep "center_name"%string eq_refl) in Hin.
  split; cbn [forallb]; unfold has_col.
  - rewrite Hsno, Hk, Hc. reflexivity.
  - rewrite Hlk, L1, L2, L3, L4, L5, L6.
    destruct (lookup_col "center_name" df_center_stats); [reflexivity | discriminate].
Qed.

Lemma master_script_needs_its_columns_witness :
  match master_data.run (rt := Reference.runtime true)
          Examples.student_marks Examples.center_stats with
  | Ok _ => has_col Examples.center_stats "center_name" = true
  | Raise _ => False
  end.
Proof.
  destruct (master_data.run (rt := Reference.runtime true)
              Examples.student_marks Examples.center_stats) as [m|e] eqn:E.
  - destruct (master_script_needs_its_columns (Reference.runtime true) _ _ m E) as [_ H].
    cbn [forallb] in H. rewrite !andb_true_iff in H. apply H.
  - vm_compute in E. discriminate E.
Defined.

(** A moment name that the center-stats frame already uses is no column
    of the merged frame: both columns get a suffix. *)
Lemma merged_moment_hidden (left merged : DataFrame) (ks l1 l2 l3 : Series) (c : string) :
  c = "Center_Skewness"%string \/ c = "Center_Kurtosis"%string ->
  has_col left c = true ->
  merge_left left
    [("center_id"%string, ks); ("Center_Std_Dev"%string, l1);
     ("Center_Skewness"%string, l2); ("Center_Kurtosis"%string, l3)] "center_id"
    = Ok merged ->
  lookup_col c merged = None.
Proof.
  intros Hc Hleft Hm.
  destruct (lookup_col c merged) as [s|] eqn:Hs; [exfalso | reflexivity].
  destruct (merge_left_lookup _ _ _ _ _ _ Hm Hs) as (lk & rk & c0 & s0 & _ & _ & H).
  cbn zeta in H.
  destruct H as [(E & Hin & _) | (E & Hin & Hne & _)].
  - destruct (has_col left c0 && _ && _) eqn:Ho.
    + symmetry in E. apply suffix_start in E.
      destruct Hc as [-> | ->]; discriminate E.
    + subst c0. rewrite Hleft in Ho. destruct Hc as [-> | ->]; discriminate Ho.
  - simpl in Hin.
    destruct Hin as [Hin|[Hin|[Hin|[Hin|[]]]]]; injection Hin as <- _;
      try congruence.
    + destruct (has_col left "Center_Std_Dev" && _ && _);
        destruct Hc as [-> | ->]; discriminate E.
    + destruct Hc as [-> | ->].
      * rewrite Hleft in E. discriminate E.
      * destruct (has_col left "Center_Skewness" && _ && _); discriminate E.
    + destruct Hc as [-> | ->].
      * destruct (has_col left "Center_Kurtosis" && _ && _); discriminate E.
      * rewrite Hleft in E. discriminate E.
Qed.

(** X8. A center-stats sheet that already has a column called
    [Center_Skewness] or [Center_Kurtosis] makes the script raise: after
    the merge both columns of that name carry a suffix, and the final check
    asks for the plain name. *)
Theorem moment_named_column_stops_the_script
    (rt : Runtime) (df_marks df_center_stats : DataFrame) :
  has_col df_center_stats "Center_Skewness" = true
  \/ has_col df_center_stats "Center_Kurtosis" = true ->
  exists e, master_data.run df_marks df_center_stats = Raise e.
Proof.
  intros Hhas.
  destruct (master_data.run df_marks df_center_stats) as [m|e] eqn:Hrun; [|eauto].
  exfalso.
  destruct (master_run_steps _ _ _ Hrun)
    as (dm & keys & cells & vals & left & shown & _ & _ & _ & _ & Hmet & Hmerge & Hsel & _).
  apply select_cons in Hsel. destruct Hsel as (s1 & r1 & _ & Hsel & _).
  apply select_cons in Hsel. destruct Hsel as (s2 & r2 & Hsk & Hsel & _).
  apply select_cons in Hsel. destruct Hsel as (s3 & r3 & Hku & _ & _).
  apply get_col_ok in Hsk, Hku.
  destruct (add_metrics_inv _ _ Hmet)
    as (a700 & tot & a600 & ca & na & sa & sm & v1 & v2 & v3 & v4
        & _ & _ & _ & _ & _ & _ & _ & _ & _ & _ & _ & _ & _ & _ & _ & Hkeep).
  destruct Hhas as [H|H].
  - assert (Hl : has_col left "Center_Skewness" = true)
      by (unfold has_col in *; rewrite (Hkeep "Center_Skewness"%string eq_refl); exact H).
    pose proof (merged_moment_hidden left m _ _ _ _ _ (or_introl eq_refl) Hl Hmerge) as N.
    congruence.
  - assert (Hl : has_col left "Center_Kurtosis" = true)
      by (unfold has_col in *; rewrite (Hkeep "Center_Kurtosis"%string eq_refl); exact H).
    pose proof (merged_moment_hidden left m _ _ _ _ _ (or_intror eq_refl) Hl Hmerge) as N.
    congruence.
Qed.

Lemma moment_named_column_stops_the_script_witness :
  exists e, master_data.run (rt := Reference.runtime true)
              Examples.student_marks Examples.center_stats_with_skewness = Raise e.
Proof.
  apply moment_named_column_stops_the_script. left. reflexivity.
Defined.

(** X9. The master frame has the columns of the center-stats sheet, then
    the four metrics, then the three moments: seven columns more, so the
    eighteen that the script announces when the sheet has eleven.  The
    count is printed and not enforced. *)
Theorem master_frame_has_seven_more_columns
    (rt : Runtime) (df_marks df_center_stats df_master : DataFrame) :
  master_data.run df_marks df_center_stats = Ok df_master ->
  aligned df_center_stats = true ->
  forallb (fun c => negb (has_col df_center_stats c))
          (master_data.metric_columns ++ master_data.moment_columns) = true ->
  columns df_master
  = columns df_center_stats ++ master_data.metric_columns ++ master_data.moment_columns /\
  length (columns df_master) = (length (columns df_center_stats) + 7)%nat /\
  (length (columns df_center_stats) = 11%nat -> length (columns df_master) = 18%nat).
Proof.
  intros Hrun Hal Hfresh.
  destruct (master_run_inv df_marks df_center_stats df_master Hrun Hal Hfresh)
    as (ids & keys & cells & vals & metrics & _ & _ & _ & _ & _ & Hcols & ->).
  assert (E : columns ((df_center_stats ++ metrics) ++
                [("Center_Std_Dev"%string,
                  take_right (join_plan ids (group_keys keys))
                    (map (fun k => Num (round_float 3 (nanstd (group_of k keys vals))))
                         (group_keys keys)));
                 ("Center_Skewness"%string,
                  take_right (join_plan ids (group_keys keys))
                    (map (fun k => Num (round_float 3 (nanskew (group_of k keys vals))))
                         (group_keys keys)));
                 ("Center_Kurtosis"%string,
                  take_right (join_plan ids (group_keys keys))
                    (map (fun k => Num (round_float 3 (nankurt (group_of k keys vals))))
                         (group_keys keys)))])
           = columns df_center_stats ++ master_data.metric_columns
             ++ master_data.moment_columns).
  { unfold columns in *. rewrite !map_app, Hcols, <- app_assoc. reflexivity. }
  rewrite E. split; [reflexivity|].
  rewrite !length_app. cbn [master_data.metric_columns master_data.moment_columns length].
  split; lia.
Qed.

Lemma master_frame_has_seven_more_columns_witness :
  match master_data.run (rt := Reference.runtime true)
          Examples.student_marks Examples.center_stats with
  | Ok df_master => length (columns df_master) = 17%nat
  | Raise _ => False
  end.
Proof.
  destruct (master_data.run (rt := Reference.runtime true)
              Examples.student_marks Examples.center_stats) as [m|e] eqn:E.
  - destruct (master_frame_has_seven_more_columns (Reference.runtime true) _ _ m E
                eq_refl eq_refl) as (_ & H & _).
    exact H.
  - vm_compute in E. discriminate E.
Defined.

Lemma join_plan_onto_groups_length (lk keys : Series) :
  length (join_plan lk (group_keys keys)) = length lk.
Proof.
  rewrite join_plan_single by (intros; apply group_keys_match_once).
  rewrite length_map. unfold indexed. rewrite length_combine, length_seq. lia.
Qed.

(** X10. The final check draws three rows of the master frame, so the
    script raises, and writes no file, whenever the center-stats sheet has
    fewer than three rows. *)
Theorem fewer_than_three_centers_stop_the_script
    (rt : Runtime) (df_marks df_center_stats : DataFrame) :
  aligned df_center_stats = true ->
  (nrows df_center_stats < 3)%nat ->
  exists e, master_data.run df_marks df_center_stats = Raise e.
Proof.
  intros Hal Hn.
  destruct (master_data.run df_marks df_center_stats) as [m|e] eqn:Hrun; [|eauto].
  exfalso.
  destruct (master_run_steps _ _ _ Hrun)
    as (dm & keys & cells & vals & left & shown & _ & _ & _ & _ & Hmet & Hmerge & Hsel & Hchk).
  apply select_cons in Hsel. destruct Hsel as (s & rest & Hs & _ & ->).
  apply get_col_ok in Hs.
  destruct (master_center_name _ _ _ _ _ _ _ Hmerge Hs) as (lk & s0 & Hlk & _ & ->).
  destruct (add_metrics_inv _ _ Hmet)
    as (a700 & tot & a600 & ca & na & sa & sm & v1 & v2 & v3 & v4
        & _ & _ & _ & _ & _ & _ & _ & _ & _ & _ & _ & _ & _ & _ & _ & Hkeep).
  apply get_col_ok in Hlk. rewrite (Hkeep "center_id"%string eq_refl) in Hlk.
  pose proof (aligned_length _ _ _ Hal Hlk) as Hlen.
  unfold sample_check in Hchk. cbn [nrows] in Hchk.
  unfold take_left in Hchk. rewrite length_map, join_plan_onto_groups_length, Hlen in Hchk.
  destruct (Nat.ltb_spec (nrows df_center_stats) 3); [discriminate | lia].
Qed.

Lemma fewer_than_three_centers_stop_the_script_witness :
  exists e, master_data.run (rt := Reference.runtime true)
              Examples.student_marks Examples.two_centers = Raise e.
Proof.
  apply fewer_than_three_centers_stop_the_script.
  - reflexivity.
  - simpl. lia.
Defined.

(* ================================================================== *)
(** ** anomaly_detection.py: the printed table and the inputs *)

(** ** Rows kept by a mask, rows taken by position *)

Lemma kept_cons (b : bool) (mask : list bool) :
  kept (b :: mask) = (if b then [O] else []) ++ map S (kept mask).
Proof.
  unfold kept. cbn [length seq filter nth].
  rewrite <- seq_shift, filter_map_comm.
  destruct b; reflexivity.
Qed.

Lemma take_map_S (idx : list nat) (x : cell) (s : Series) :
  take (map S idx) (x :: s) = take idx s.
Proof. unfold take. rewrite map_map. reflexivity. Qed.

Lemma keep_where_take (mask : list bool) (s : Series) :
  length s = length mask -> keep_where mask s = take (kept mask) s.
Proof.
  revert s. induction mask as [|b mask IH]; intros [|x s] H; simpl in H;
    try discriminate; [reflexivity|].
  rewrite kept_cons. unfold take. rewrite map_app. fold (take (map S (kept mask)) (x :: s)).
  rewrite take_map_S, <- IH by lia.
  unfold keep_where. destruct b; reflexivity.
Qed.

Lemma keep_where_length {A} (mask : list bool) (l : list A) :
  length l = length mask -> length (keep_where mask l) = length (kept mask).
Proof.
  revert l. induction mask as [|b mask IH]; intros [|x l] H; simpl in H;
    try discriminate; [reflexivity|].
  rewrite kept_cons, length_app, length_map, <- (IH l) by lia.
  unfold keep_where. destruct b; reflexivity.
Qed.

Lemma kept_In (mask : list bool) (i : nat) :
  In i (kept mask) <-> nth_error mask i = Some true.
Proof.
  unfold kept. rewrite filter_In, in_seq. split.
  - intros [[_ Hi] Hb]. rewrite (nth_error_nth' mask false) by exact Hi.
    rewrite Hb. reflexivity.
  - intros H. assert (Hi : (i < length mask)%nat) by (eapply nth_error_length; exact H).
    split; [lia|]. apply (nth_error_nth _ _ false) in H. exact H.
Qed.

Lemma kept_NoDup (mask : list bool) : NoDup (kept mask).
Proof. apply NoDup_filter, seq_NoDup. Qed.

Lemma kept_bound (mask : list bool) (i : nat) :
  In i (kept mask) -> (i < length mask)%nat.
Proof. unfold kept. rewrite filter_In, in_seq. lia. Qed.

(** Taking rows of taken rows. *)
Lemma take_take (idx1 idx2 : list nat) (s : Series) :
  (forall j, In j idx2 -> (j < length idx1)%nat) ->
  take idx2 (take idx1 s) = take (map (fun j => nth j idx1 O) idx2) s.
Proof.
  intros H. unfold take. rewrite map_map. apply map_ext_in. intros j Hj.
  specialize (H j Hj).
  rewrite (nth_indep _ missing (nth O s missing)) by (rewrite length_map; exact H).
  rewrite (map_nth (fun i => nth i s missing) idx1 O j). reflexivity.
Qed.

Lemma take_rows_columns (idx : list nat) (df : DataFrame) :
  columns (take_rows idx df) = columns df.
Proof. unfold columns, take_rows. rewrite map_map. reflexivity. Qed.

Lemma lookup_col_mapped (g : Series -> Series) (df : DataFrame) (c : string) :
  lookup_col c (map (fun p => (fst p, g (snd p))) df) = option_map g (lookup_col c df).
Proof.
  induction df as [|[c0 s0] df IH]; [reflexivity|].
  cbn [map lookup_col fst snd]. destruct (String.eqb c c0); [reflexivity | exact IH].
Qed.

(** ** The order of [sort_values] *)

Lemma StronglySorted_map_in {A B} (R : A -> A -> Prop) (R' : B -> B -> Prop)
    (f : A -> B) (l : list A) :
  (forall a b, In a l -> In b l -> R a b -> R' (f a) (f b)) ->
  StronglySorted R l -> StronglySorted R' (map f l).
Proof.
  intros H Hs. induction Hs as [|a l Hs IH Ha]; [constructor|].
  cbn [map]. constructor.
  - apply IH. intros x y Hx Hy. apply H; right; assumption.
  - apply Forall_forall. intros y Hy. apply in_map_iff in Hy.
    destruct Hy as (b & <- & Hb). rewrite Forall_forall in Ha.
    apply H; [left; reflexivity | right; exact Hb | apply Ha; exact Hb].
Qed.

Lemma StronglySorted_app {A} (R : A -> A -> Prop) (l1 l2 : list A) :
  StronglySorted R l1 -> StronglySorted R l2 ->
  (forall a b, In a l1 -> In b l2 -> R a b) ->
  StronglySorted R (l1 ++ l2).
Proof.
  intros H1 H2 H. induction H1 as [|a l1 H1 IH Ha]; [exact H2|].
  cbn [app]. constructor.
  - apply IH. intros x y Hx Hy. apply H; [right; exact Hx | exact Hy].
  - apply Forall_app. split; [exact Ha|].
    apply Forall_forall. intros y Hy. apply H; [left; reflexivity | exact Hy].
Qed.

Lemma StronglySorted_app_inv {A} (R : A -> A -> Prop) (l1 l2 : list A) :
  StronglySorted R (l1 ++ l2) ->
  StronglySorted R l1 /\ StronglySorted R l2 /\
  (forall a b, In a l1 -> In b l2 -> R a b).
Proof.
  induction l1 as [|a l1 IH]; cbn [app]; intros H.
  - split; [constructor|]. split; [exact H|]. intros a b [].
  - apply StronglySorted_inv in H. destruct H as [Hs Ha].
    destruct (IH Hs) as (S1 & S2 & S12).
    apply Forall_app in Ha. destruct Ha as [Ha1 Ha2].
    split; [constructor; assumption|]. split; [exact S2|].
    intros x y [<-|Hx] Hy.
    + rewrite Forall_forall in Ha2. auto.
    + auto.
Qed.

Lemma StronglySorted_rev {A} (R : A -> A -> Prop) (l : list A) :
  StronglySorted R l -> StronglySorted (fun a b => R b a) (rev l).
Proof.
  induction 1 as [|a l Hs IH Ha]; [constructor|].
  cbn [rev]. apply StronglySorted_app; [exact IH | repeat constructor|].
  intros x y Hx [<-|[]]. apply in_rev in Hx. rewrite Forall_forall in Ha. auto.
Qed.

Lemma StronglySorted_filter {A} (R : A -> A -> Prop) (f : A -> bool) (l : list A) :
  StronglySorted R l -> StronglySorted R (filter f l).
Proof.
  induction 1 as [|a l Hs IH Ha]; [constructor|].
  cbn [filter]. destruct (f a); [|exact IH].
  constructor; [exact IH|]. apply Forall_forall. intros y Hy.
  apply filter_In in Hy. rewrite Forall_forall in Ha. apply Ha, Hy.
Qed.

Lemma map_nth_seq_nat (l : list nat) :
  map (fun j => nth j l O) (seq 0 (length l)) = l.
Proof. apply map_nth_seq. Qed.

Section OrderFacts.
Context {so : SortOrder}.

Lemma argsort_bound (keys : list cell) (a : nat) :
  In a (argsort keys) -> (a < length keys)%nat.
Proof.
  intros H. apply (Permutation_in _ (argsort_perm keys)) in H.
  apply in_seq in H. lia.
Qed.

Lemma argsort_length (keys : list cell) : length (argsort keys) = length keys.
Proof.
  rewrite (Permutation_length (argsort_perm keys)). apply length_seq.
Qed.

(** Positions of the present keys, and the present keys themselves. *)
Lemma non_nan_positions (keys : Series) (i : nat) :
  In i (filter (fun i => negb (isna (nth i keys missing))) (seq 0 (length keys)))
  <-> (i < length keys)%nat /\ isna (nth i keys missing) = false.
Proof.
  rewrite filter_In, in_seq, negb_true_iff. intuition lia.
Qed.

Lemma nan_positions (keys : Series) (i : nat) :
  In i (filter (fun i => isna (nth i keys missing)) (seq 0 (length keys)))
  <-> (i < length keys)%nat /\ isna (nth i keys missing) = true.
Proof.
  rewrite filter_In, in_seq. intuition lia.
Qed.

Lemma take_nth (idx : list nat) (s : Series) (a : nat) :
  (a < length idx)%nat ->
  nth a (take idx s) missing = nth (nth a idx O) s missing.
Proof.
  intros H. unfold take.
  rewrite (nth_indep _ missing (nth O s missing)) by (rewrite length_map; exact H).
  apply (map_nth (fun i => nth i s missing)).
Qed.

Lemma take_length (idx : list nat) (s : Series) : length (take idx s) = length idx.
Proof. apply length_map. Qed.

(** Composing two rearrangements of positions. *)
Lemma permutation_through (l : list nat) (p : list nat) :
  Permutation p (seq 0 (length l)) ->
  Permutation (map (fun j => nth j l O) p) l.
Proof.
  intros H. rewrite (Permutation_map (fun j => nth j l O) H).
  rewrite map_nth_seq. reflexivity.
Qed.

Lemma filter_partition_perm {A} (f : A -> bool) (l : list A) :
  Permutation (filter f l ++ filter (fun x => negb (f x)) l) l.
Proof.
  induction l as [|a l IH]; [reflexivity|].
  cbn [filter]. destruct (f a); cbn [negb app].
  - constructor. exact IH.
  - rewrite <- Permutation_middle. constructor. exact IH.
Qed.

(** [nargsort] rearranges the positions of the keys. *)
Lemma nargsort_perm (keys : Series) (ascending : bool) :
  Permutation (nargsort keys ascending) (seq 0 (length keys)).
Proof.
  unfold nargsort.
  set (L := filter (fun i => negb (isna (nth i keys missing))) (seq 0 (length keys))).
  set (N := filter (fun i => isna (nth i keys missing)) (seq 0 (length keys))).
  assert (HN : N = filter (fun i => negb (negb (isna (nth i keys missing))))
                          (seq 0 (length keys))).
  { unfold N. apply filter_ext. intros i. rewrite negb_involutive. reflexivity. }
  assert (Hidx : Permutation
            (if ascending then map (fun j => nth j L O) (argsort (take L keys))
             else rev (map (fun j => nth j (rev L) O) (argsort (rev (take L keys))))) L).
  { destruct ascending.
    - apply permutation_through. rewrite <- (take_length L keys). apply argsort_perm.
    - rewrite <- Permutation_rev. rewrite permutation_through.
      + symmetry. apply Permutation_rev.
      + rewrite length_rev, <- (take_length L keys), <- length_rev. apply argsort_perm. }
  rewrite Hidx, HN.
  apply (filter_partition_perm (fun i => negb (isna (nth i keys missing)))).
Qed.

Lemma nargsort_length (keys : Series) (ascending : bool) :
  length (nargsort keys ascending) = length keys.
Proof.
  rewrite (Permutation_length (nargsort_perm keys ascending)). apply length_seq.
Qed.

End OrderFacts.

Section OrderFacts2.
Context {so : SortOrder}.

Lemma comparable_taken (keys : Series) (L : list nat) :
  no_mixed_keys keys = true ->
  (forall i, In i L -> (i < length keys)%nat /\ isna (nth i keys missing) = false) ->
  comparable (take L keys) = true.
Proof.
  intros Hg HL.
  assert (Hin : forall k, In k (take L keys) ->
            In k (filter (fun k => negb (isna k)) keys)).
  { intros k Hk. unfold take in Hk. apply in_map_iff in Hk.
    destruct Hk as (i & <- & Hi). destruct (HL i Hi) as [Hlt Hna].
    apply filter_In. split; [apply nth_In; exact Hlt | rewrite Hna; reflexivity]. }
  unfold comparable. apply andb_true_iff. split.
  - apply forallb_forall. intros k Hk. apply Hin, filter_In in Hk. apply Hk.
  - unfold no_mixed_keys, mixed in Hg. apply negb_true_iff, andb_false_iff in Hg.
    apply orb_true_iff. destruct Hg as [Hg|Hg].
    + right. apply forallb_forall. intros k Hk.
      destruct (is_text k) eqn:E; [|reflexivity].
      assert (existsb is_text (filter (fun k => negb (isna k)) keys) = true)
        by (apply existsb_exists; exists k; split; [apply Hin; exact Hk | exact E]).
      congruence.
    + left. apply forallb_forall. intros k Hk.
      destruct (is_text k) eqn:E; [reflexivity|].
      assert (existsb (fun k => negb (is_text k))
                (filter (fun k => negb (isna k)) keys) = true)
        by (apply existsb_exists; exists k; split;
            [apply Hin; exact Hk | rewrite E; reflexivity]).
      congruence.
Qed.

(** The present keys, sorted through their positions. *)
Lemma sorted_through (keys : Series) (L : list nat) :
  no_mixed_keys keys = true ->
  (forall i, In i L -> (i < length keys)%nat /\ isna (nth i keys missing) = false) ->
  StronglySorted (in_order keys true)
    (map (fun j => nth j L O) (argsort (take L keys))).
Proof.
  intros Hg HL.
  pose proof (argsort_sorted (take L keys) (comparable_taken keys L Hg HL)) as Hs.
  eapply StronglySorted_map_in; [|exact Hs].
  intros a b Ha Hb Hab. cbv beta in Hab.
  apply argsort_bound in Ha, Hb. rewrite take_length in Ha, Hb.
  rewrite !take_nth in Hab by assumption.
  right. cbv zeta.
  destruct (HL (nth a L O) (nth_In _ _ Ha)) as [_ Na].
  destruct (HL (nth b L O) (nth_In _ _ Hb)) as [_ Nb].
  auto.
Qed.

Lemma in_order_flip (keys : Series) (l : list nat) :
  StronglySorted (fun a b => in_order keys true b a) l ->
  (forall i, In i l -> isna (nth i keys missing) = false) ->
  StronglySorted (in_order keys false) l.
Proof.
  intros Hs Hl. induction Hs as [|a l Hs IH Ha]; [constructor|].
  constructor.
  - apply IH. intros i Hi. apply Hl. right. exact Hi.
  - apply Forall_forall. intros b Hb. rewrite Forall_forall in Ha.
    specialize (Ha b Hb). unfold in_order in *. cbv zeta in *.
    assert (Na : isna (nth a keys missing) = false) by (apply Hl; left; reflexivity).
    assert (Nb : isna (nth b keys missing) = false) by (apply Hl; right; exact Hb).
    destruct Ha as [Ha|(_ & _ & Ha)]; [congruence|]. right. auto.
Qed.

(** [sort_values] puts the rows in the order of the keys, the rows with a
    missing key last. *)
Lemma nargsort_sorted (keys : Series) (ascending : bool) :
  no_mixed_keys keys = true ->
  StronglySorted (in_order keys ascending) (nargsort keys ascending).
Proof.
  intros Hg. unfold nargsort.
  set (L := filter (fun i => negb (isna (nth i keys missing))) (seq 0 (length keys))).
  set (N := filter (fun i => isna (nth i keys missing)) (seq 0 (length keys))).
  assert (HL : forall i, In i L ->
            (i < length keys)%nat /\ isna (nth i keys missing) = false)
    by (intros i Hi; apply non_nan_positions; exact Hi).
  assert (HN : forall j, In j N -> isna (nth j keys missing) = true)
    by (intros j Hj; apply nan_positions in Hj; apply Hj).
  apply StronglySorted_app.
  - destruct ascending.
    + apply sorted_through; assumption.
    + assert (HL' : forall i, In i (rev L) ->
                (i < length keys)%nat /\ isna (nth i keys missing) = false)
        by (intros i Hi; apply HL, in_rev; exact Hi).
      assert (E : rev (take L keys) = take (rev L) keys)
        by (unfold take; rewrite map_rev; reflexivity).
      rewrite E. apply in_order_flip.
      * apply (StronglySorted_rev (in_order keys true)).
        apply sorted_through; assumption.
      * intros i Hi. apply in_rev, in_map_iff in Hi. destruct Hi as (a & <- & Ha).
        apply argsort_bound in Ha. rewrite take_length in Ha.
        apply (HL' (nth a (rev L) O)). apply nth_In. exact Ha.
  - clear - HN. induction N as [|j N IH]; [constructor|].
    constructor.
    + apply IH. intros k Hk. apply HN. right. exact Hk.
    + apply Forall_forall. intros k Hk. left. apply HN. right. exact Hk.
  - intros i j _ Hj. left. apply HN. exact Hj.
Qed.

End OrderFacts2.

(** ** A sorting routine for the examples *)

Section SortOn.
Context {A : Type}.
Variable leb : A -> A -> bool.
Variable P : A -> Prop.
Hypothesis leb_total_on : forall x y, P x -> P y -> leb x y = false -> leb y x = true.
Hypothesis leb_trans_on : forall x y z, P x -> P y -> P z ->
  leb x y = true -> leb y z = true -> leb x z = true.

Lemma insert_sorted_on (x : A) (l : list A) :
  P x -> Forall P l ->
  StronglySorted (fun a b => leb a b = true) l ->
  StronglySorted (fun a b => leb a b = true) (insert_sorted leb x l).
Proof.
  intros Px Pl Hs. induction Hs as [|y l Hs IH Hy]; simpl.
  - constructor; constructor.
  - apply Forall_cons_iff in Pl. destruct Pl as [Py Pl].
    destruct (leb x y) eqn:E.
    + constructor; [constructor; assumption|].
      constructor; [exact E|].
      rewrite Forall_forall in *. intros z Hz.
      apply (leb_trans_on x y z); auto.
    + constructor; [apply IH; exact Pl|].
      eapply Permutation_Forall; [symmetry; apply insert_sorted_perm|].
      constructor; [apply leb_total_on; assumption | exact Hy].
Qed.

Lemma sort_sorted_on (l : list A) :
  Forall P l -> StronglySorted (fun a b => leb a b = true) (sort leb l).
Proof.
  induction 1 as [|x l Px Pl IH]; simpl; [constructor|].
  apply insert_sorted_on; [exact Px | | exact IH].
  eapply Permutation_Forall; [symmetry; apply sort_perm | exact Pl].
Qed.
End SortOn.

Lemma float_leb_total (x y : float) :
  isnan x = false -> isnan y = false -> float_leb x y = false -> float_leb y x = true.
Proof.
  destruct x as [a|[]|], y as [b|[]|]; simpl; intros Hx Hy H; try discriminate;
    try reflexivity.
  apply Qle_bool_iff. apply Qle_bool_false in H. exact H.
Qed.

Lemma float_leb_trans (x y z : float) :
  float_leb x y = true -> float_leb y z = true -> float_leb x z = true.
Proof.
  destruct x as [a|[]|], y as [b|[]|], z as [c|[]|]; simpl; intros H1 H2;
    try discriminate; try reflexivity.
  apply Qle_bool_iff in H1, H2. apply Qle_bool_iff. eapply Qle_trans; eassumption.
Qed.

Lemma string_leb_trans (a b c : string) :
  String.leb a b = true -> String.leb b c = true -> String.leb a c = true.
Proof.
  rewrite !leb_lts. intros [->|H1] [->|H2]; auto.
  right. eapply string_lt_trans; eassumption.
Qed.

Lemma indexed_In {A} (l : list A) (i : nat) (x : A) :
  In (i, x) (indexed l) -> nth_error l i = Some x.
Proof.
  unfold indexed. intros H.
  assert (G : forall (l : list A) a, In (i, x) (combine (seq a (length l)) l) ->
              (a <= i)%nat /\ nth_error l (i - a) = Some x).
  { clear. induction l as [|y l IH]; intros a H; [contradiction|].
    cbn [length seq combine] in H. destruct H as [E|H].
    - injection E as <- <-. rewrite Nat.sub_diag. split; [lia | reflexivity].
    - apply IH in H. destruct H as [Hle H]. split; [lia|].
      replace (i - a)%nat with (S (i - S a)) by lia. exact H. }
  apply G in H. rewrite Nat.sub_0_r in H. apply H.
Qed.

Lemma stable_argsort_perm (keys : list cell) :
  Permutation (Reference.stable_argsort keys) (seq 0 (length keys)).
Proof.
  unfold Reference.stable_argsort. rewrite <- indexed_fst.
  apply Permutation_map, sort_perm.
Qed.

Lemma stable_argsort_sorted (keys : list cell) :
  comparable keys = true ->
  StronglySorted
    (fun i j => key_leb (nth i keys missing) (nth j keys missing) = true)
    (Reference.stable_argsort keys).
Proof.
  intros Hc. unfold comparable in Hc. apply andb_true_iff in Hc.
  destruct Hc as [Hna Hkind]. rewrite forallb_forall in Hna.
  unfold Reference.stable_argsort.
  set (leb := fun a b : nat * cell => key_leb (snd a) (snd b)).
  assert (Hsnd : forall p, In p (indexed keys) ->
            In (snd p) keys /\ nth (fst p) keys missing = snd p).
  { intros [i k] Hp. apply indexed_In in Hp. cbn [fst snd].
    split; [eapply nth_error_In; exact Hp | apply nth_error_nth; exact Hp]. }
  assert (Hs : StronglySorted (fun a b => leb a b = true) (sort leb (indexed keys))).
  { apply orb_true_iff in Hkind. destruct Hkind as [Ht|Hn].
    - rewrite forallb_forall in Ht.
      apply (sort_sorted_on leb (fun p => is_text (snd p) = true)).
      + intros [i a] [j b] Pa Pb. unfold leb. cbn [snd] in *.
        destruct a as [x|s|f]; try discriminate. destruct b as [y|t|g]; try discriminate.
        cbn [key_leb]. intros H. destruct (String.leb_total s t); congruence.
      + intros [i a] [j b] [k c] Pa Pb Pc. unfold leb. cbn [snd] in *.
        destruct a as [x|s|f]; try discriminate. destruct b as [y|t|g]; try discriminate.
        destruct c as [z|u|h]; try discriminate.
        cbn [key_leb]. apply string_leb_trans.
      + apply Forall_forall. intros p Hp. apply Ht. apply Hsnd. exact Hp.
    - rewrite forallb_forall in Hn.
      apply (sort_sorted_on leb
               (fun p => is_text (snd p) = false /\ isna (snd p) = false)).
      + intros [i a] [j b] [Ta Na] [Tb Nb]. unfold leb. cbn [snd] in *.
        destruct a as [x|s|f]; try discriminate; destruct b as [y|t|g]; try discriminate;
          cbn [key_leb as_number]; apply float_leb_total;
          try reflexivity;
          try (destruct x; [reflexivity | reflexivity | discriminate]);
          try (destruct y; [reflexivity | reflexivity | discriminate]).
      + intros [i a] [j b] [k c] [Ta _] [Tb _] [Tc _]. unfold leb. cbn [snd] in *.
        destruct a as [x|s|f]; try discriminate; destruct b as [y|t|g]; try discriminate;
          destruct c as [z|u|h]; try discriminate;
          cbn [key_leb]; apply float_leb_trans.
      + apply Forall_forall. intros p Hp. destruct (Hsnd p Hp) as [Hin _].
        split.
        * specialize (Hn _ Hin). apply negb_true_iff in Hn. exact Hn.
        * specialize (Hna _ Hin). apply negb_true_iff in Hna. exact Hna. }
  eapply StronglySorted_map_in; [|exact Hs].
  intros a b Ha Hb Hab.
  apply (proj1 (sort_In leb _ _)) in Ha. apply (proj1 (sort_In leb _ _)) in Hb.
  destruct (Hsnd a Ha) as [_ Ea]. destruct (Hsnd b Hb) as [_ Eb].
  rewrite Ea, Eb. exact Hab.
Qed.

(** A platform whose sorts are stable. *)
Definition stable_order : SortOrder :=
  {| argsort := Reference.stable_argsort;
     argsort_perm := stable_argsort_perm;
     argsort_sorted := stable_argsort_sorted;
     sorted_with_nan := fun l => l;
     sorted_with_nan_perm := fun l => Permutation_refl l |}.

Section SortedFrames.
Context {so : SortOrder}.

Lemma sort_values_ok (df : DataFrame) (by_ : string) (ascending : bool) (keys : Series) :
  lookup_col by_ df = Some keys ->
  no_mixed_keys keys = true ->
  sort_values df by_ ascending = Ok (take_rows (nargsort keys ascending) df).
Proof.
  intros Hk Hg. unfold sort_values, get_col. rewrite Hk. cbn [bind].
  rewrite Hg. reflexivity.
Qed.

Lemma sort_values_mixed (df : DataFrame) (by_ : string) (ascending : bool) (keys : Series) :
  lookup_col by_ df = Some keys ->
  no_mixed_keys keys = false ->
  sort_values df by_ ascending = Raise text_and_number.
Proof.
  intros Hk Hg. unfold sort_values, get_col. rewrite Hk. cbn [bind].
  rewrite Hg. reflexivity.
Qed.

Lemma numbers_not_mixed (keys : Series) :
  forallb (fun k => negb (is_text k)) keys = true -> no_mixed_keys keys = true.
Proof.
  intros H. unfold no_mixed_keys, mixed. apply negb_true_iff, andb_false_iff. left.
  apply not_true_is_false. intros E. apply existsb_exists in E.
  destruct E as (k & Hk & Ht). apply filter_In in Hk. destruct Hk as [Hk _].
  rewrite forallb_forall in H. specialize (H k Hk). rewrite Ht in H. discriminate.
Qed.

(** Selecting rows by a mask, then rearranging them, takes rows of the
    frame itself. *)
Lemma take_rows_filter_rows (mask : list bool) (p : list nat) (df : DataFrame) :
  (forall c s, In (c, s) df -> length s = length mask) ->
  (forall j, In j p -> (j < length (kept mask))%nat) ->
  take_rows p (filter_rows mask df)
  = take_rows (map (fun j => nth j (kept mask) O) p) df.
Proof.
  intros Hlen Hp. unfold take_rows, filter_rows. rewrite map_map.
  apply map_ext_in. intros [c s] Hin. cbn [fst snd]. f_equal.
  rewrite keep_where_take by (eapply Hlen; exact Hin).
  apply take_take. exact Hp.
Qed.

Lemma finite_column_nth (sc : list Q) (i : nat) :
  (i < length sc)%nat ->
  nth i (map (fun q => Num (Finite q)) sc) missing = Num (Finite (nth i sc 0)).
Proof.
  intros H.
  rewrite (nth_indep _ missing (Num (Finite 0))) by (rewrite length_map; exact H).
  apply (map_nth (fun q => Num (Finite q))).
Qed.

Lemma aligned_In (df : DataFrame) (c : string) (s : Series) :
  aligned df = true -> In (c, s) df -> length s = nrows df.
Proof.
  unfold aligned. rewrite forallb_forall. intros H Hin.
  specialize (H _ Hin). apply Nat.eqb_eq in H. exact H.
Qed.

(** The flagged rows in the order of their scores: positions of the frame
    itself, each flagged position once, lowest score first. *)
Lemma flagged_rows_sorted (df : DataFrame) (flagcol : Series) (sc : list Q) :
  aligned df = true ->
  lookup_col "Anomaly_Flag" df = Some flagcol ->
  lookup_col "Anomaly_Score" df = Some (map (fun q => Num (Finite q)) sc) ->
  exists idx,
    sort_values (filter_rows (series_eq flagcol (Num (float_of_Z (-1)))) df)
      "Anomaly_Score" true = Ok (take_rows idx df) /\
    Permutation idx (kept (series_eq flagcol (Num (float_of_Z (-1))))) /\
    StronglySorted (fun i j => nth i sc 0 <= nth j sc 0) idx.
Proof.
  intros Hal Hf Hs.
  set (mask := series_eq flagcol (Num (float_of_Z (-1)))).
  set (scol := map (fun q => Num (Finite q)) sc) in *.
  assert (Lmask : length mask = nrows df).
  { unfold mask, series_eq. rewrite length_map. apply (aligned_length df _ _ Hal Hf). }
  assert (Lsc : length scol = length mask)
    by (rewrite Lmask; apply (aligned_length df _ _ Hal Hs)).
  assert (Hcols : forall c s, In (c, s) df -> length s = length mask)
    by (intros c s Hin; rewrite Lmask; apply (aligned_In df c s Hal Hin)).
  set (keys := keep_where mask scol).
  assert (Hkeys : lookup_col "Anomaly_Score" (filter_rows mask df) = Some keys).
  { unfold filter_rows. rewrite lookup_col_mapped, Hs. reflexivity. }
  assert (Lkeys : length keys = length (kept mask))
    by (apply keep_where_length; exact Lsc).
  assert (Ekeys : keys = take (kept mask) scol) by (apply keep_where_take; exact Lsc).
  assert (Hnum : forallb (fun k => negb (is_text k)) keys = true).
  { apply forallb_forall. intros k Hk. rewrite Ekeys in Hk. unfold take in Hk.
    apply in_map_iff in Hk. destruct Hk as (i & <- & Hi).
    apply kept_bound in Hi. rewrite <- Lsc in Hi.
    unfold scol in *. rewrite length_map in Hi.
    rewrite finite_column_nth by exact Hi. reflexivity. }
  pose proof (numbers_not_mixed keys Hnum) as Hg.
  exists (map (fun j => nth j (kept mask) O) (nargsort keys true)).
  assert (Hbound : forall j, In j (nargsort keys true) -> (j < length (kept mask))%nat).
  { intros j Hj. apply (Permutation_in _ (nargsort_perm keys true)) in Hj.
    apply in_seq in Hj. lia. }
  split; [|split].
  - rewrite (sort_values_ok _ _ _ keys Hkeys Hg).
    rewrite take_rows_filter_rows by assumption. reflexivity.
  - apply permutation_through. rewrite <- Lkeys. apply nargsort_perm.
  - eapply StronglySorted_map_in; [|apply (nargsort_sorted keys true Hg)].
    intros a b Ha Hb Hab. apply Hbound in Ha, Hb.
    assert (Hkey : forall a, (a < length (kept mask))%nat ->
              nth a keys missing = Num (Finite (nth (nth a (kept mask) O) sc 0))).
    { intros x Hx. rewrite Ekeys, take_nth by exact Hx.
      apply finite_column_nth.
      assert (Hi : In (nth x (kept mask) O) (kept mask)) by (apply nth_In; exact Hx).
      apply kept_bound in Hi. rewrite <- Lsc in Hi. unfold scol in Hi.
      rewrite length_map in Hi. exact Hi. }
    unfold in_order in Hab. cbv zeta in Hab. rewrite !Hkey in Hab by assumption.
    destruct Hab as [Hab|(_ & _ & Hab)]; [discriminate|].
    cbn in Hab. apply Qle_bool_iff. exact Hab.
Qed.

End SortedFrames.

(** ** The frame saved by the scoring script *)

Lemma replace_col_aligned (c : string) (s : Series) (df : DataFrame) :
  df <> [] -> aligned df = true -> length s = nrows df ->
  aligned (replace_col c s df) = true.
Proof.
  intros Hne Hal Hlen. unfold aligned.
  rewrite (nrows_replace_col c s df) by assumption.
  unfold aligned in Hal. rewrite forallb_forall in *.
  intros [c1 s1] Hin. cbn [snd].
  assert (G : forall l : DataFrame,
            (forall p, In p l -> Nat.eqb (length (snd p)) (nrows df) = true) ->
            In (c1, s1) (replace_col c s l) -> length s1 = nrows df).
  { induction l as [|[c2 s2] l IH]; intros Hl Hi; [contradiction|].
    cbn [replace_col] in Hi. destruct (String.eqb c c2).
    - destruct Hi as [E|Hi].
      + injection E as _ <-. exact Hlen.
      + apply Nat.eqb_eq. apply (Hl (c1, s1)). right. exact Hi.
    - destruct Hi as [E|Hi].
      + injection E as _ <-. apply Nat.eqb_eq. apply (Hl (c2, s2)). left. reflexivity.
      + apply IH; [intros p Hp; apply Hl; right; exact Hp | exact Hi]. }
  apply Nat.eqb_eq. apply (G df Hal Hin).
Qed.

Lemma set_col_aligned (df df' : DataFrame) (c : string) (s : Series) :
  df <> [] -> aligned df = true -> set_col df c s = Ok df' -> aligned df' = true.
Proof.
  intros Hne Hal H. apply set_col_nonempty in H; [|exact Hne].
  destruct H as [Hlen ->]. destruct (has_col df c).
  - apply replace_col_aligned; assumption.
  - apply aligned_app; [exact Hne | exact Hal |].
    cbn [forallb snd]. rewrite Hlen, Nat.eqb_refl. reflexivity.
Qed.

Lemma set_col_keeps_nonempty (df df' : DataFrame) (c : string) (s : Series) :
  set_col df c s = Ok df' -> df' <> [].
Proof. intros H ->. apply set_col_lookup_same in H. discriminate. Qed.

(** What the scoring script saves: the two numeric result columns, every
    other column as it was, all columns of one length. *)
Lemma run_saved_inv {rt : Runtime} {rs : RandomState} (global : rng)
    (df : DataFrame) (o : anomaly_detection.outcome) :
  anomaly_detection.run global df = Ok o ->
  aligned df = true ->
  let out := anomaly_detection.saved o in
  lookup_col "Anomaly_Flag" out
    = Some (map (fun z => Num (float_of_Z z)) (anomaly_detection.flags o)) /\
  lookup_col "Anomaly_Score" out
    = Some (map (fun q => Num (Finite q)) (anomaly_detection.scores o)) /\
  (forall c, mem_string c anomaly_detection.result_columns = false ->
             lookup_col c out = lookup_col c df) /\
  aligned out = true /\ nrows out = nrows df /\
  length (anomaly_detection.flags o) = nrows df /\
  length (anomaly_detection.scores o) = nrows df /\
  exists sel, select out anomaly_detection.report_columns = Ok sel.
Proof.
  intros Hrun Hal. unfold anomaly_detection.run in Hrun.
  apply bind_ok in Hrun. destruct Hrun as (X & HX & Hrun).
  apply bind_ok in Hrun. destruct Hrun as (m & Hfit & Hrun).
  apply bind_ok in Hrun. destruct Hrun as (df1 & S1 & Hrun).
  apply bind_ok in Hrun. destruct Hrun as (df2 & S2 & Hrun).
  apply bind_ok in Hrun. destruct Hrun as (df3 & S3 & Hrun).
  apply bind_ok in Hrun. destruct Hrun as (sel & Hsel & Hrun).
  injection Hrun as <-. cbn [anomaly_detection.saved anomaly_detection.flags
                               anomaly_detection.scores].
  assert (Hne : df <> []) by (eapply scaled_matrix_nonempty; exact HX).
  pose proof (set_col_keeps_nonempty _ _ _ _ S1) as Hne1.
  pose proof (set_col_keeps_nonempty _ _ _ _ S2) as Hne2.
  pose proof (set_col_length _ _ _ _ Hne S1) as L1. rewrite length_map in L1.
  pose proof (set_col_nrows _ _ _ _ Hne S1) as N1.
  pose proof (set_col_nrows _ _ _ _ Hne1 S2) as N2.
  pose proof (set_col_nrows _ _ _ _ Hne2 S3) as N3.
  pose proof (set_col_length _ _ _ _ Hne1 S2) as L2. rewrite length_map in L2.
  split; [|split; [|split; [|split; [|split; [|split; [|split]]]]]].
  - rewrite (set_col_lookup_other df2 df3 "Anomaly_Type" "Anomaly_Flag" _) by
      (discriminate || exact S3).
    rewrite (set_col_lookup_other df1 df2 "Anomaly_Score" "Anomaly_Flag" _) by
      (discriminate || exact S2).
    apply (set_col_lookup_same _ _ _ _ S1).
  - rewrite (set_col_lookup_other df2 df3 "Anomaly_Type" "Anomaly_Score" _) by
      (discriminate || exact S3).
    apply (set_col_lookup_same _ _ _ _ S2).
  - intros c Hc. cbn [mem_string anomaly_detection.result_columns existsb] in Hc.
    rewrite !orb_false_iff in Hc. destruct Hc as (C1 & C2 & C3 & _).
    apply String.eqb_neq in C1, C2, C3.
    rewrite (set_col_lookup_other df2 df3 _ _ _ C3 S3).
    rewrite (set_col_lookup_other df1 df2 _ _ _ C2 S2).
    apply (set_col_lookup_other df df1 _ _ _ C1 S1).
  - eapply set_col_aligned; [exact Hne2 | | exact S3].
    eapply set_col_aligned; [exact Hne1 | | exact S2].
    eapply set_col_aligned; [exact Hne | exact Hal | exact S1].
  - congruence.
  - exact L1.
  - congruence.
  - eauto.
Qed.

(** ** The first rows of a sorted selection *)

Lemma first_rows_lowest (R : nat -> nat -> Prop) (idx0 K : list nat) (n : nat) :
  Permutation idx0 K -> NoDup K -> StronglySorted R idx0 ->
  length (firstn n idx0) = Nat.min n (length K) /\
  NoDup (firstn n idx0) /\
  (forall i, In i (firstn n idx0) -> In i K) /\
  StronglySorted R (firstn n idx0) /\
  (forall i i', In i (firstn n idx0) -> In i' K -> ~ In i' (firstn n idx0) -> R i i').
Proof.
  intros Hp Hnd Hs.
  assert (Hnd0 : NoDup idx0) by (eapply Permutation_NoDup; [symmetry; exact Hp | exact Hnd]).
  rewrite <- (firstn_skipn n idx0) in Hs, Hnd0.
  apply StronglySorted_app_inv in Hs. destruct Hs as (S1 & _ & S12).
  split; [rewrite length_firstn, (Permutation_length Hp); reflexivity|].
  split; [eapply NoDup_app_remove_r; exact Hnd0|].
  split; [|split; [exact S1|]].
  - intros i Hi. apply (Permutation_in _ Hp). rewrite <- (firstn_skipn n idx0).
    apply in_or_app. left. exact Hi.
  - intros i i' Hi Hk Hout. apply S12; [exact Hi|].
    apply (Permutation_in _ (Permutation_sym Hp)) in Hk.
    rewrite <- (firstn_skipn n idx0) in Hk. apply in_app_or in Hk.
    destruct Hk; [contradiction | assumption].
Qed.

Lemma Qeq_bool_inject_Z (a b : Z) : Qeq_bool (inject_Z a) (inject_Z b) = Z.eqb a b.
Proof. unfold Qeq_bool. simpl. rewrite !Z.mul_1_r. reflexivity. Qed.

Lemma flag_mask (fl : list Z) :
  series_eq (map (fun z => Num (float_of_Z z)) fl) (Num (float_of_Z (-1)))
  = map (fun z => Z.eqb z (-1)) fl.
Proof.
  unfold series_eq. rewrite map_map. apply map_ext. intros z.
  unfold float_of_Z. cbn [value_eqb as_number float_eqb].
  apply Qeq_bool_inject_Z.
Qed.

Lemma kept_flags_length (fl : list Z) :
  length (kept (map (fun z => Z.eqb z (-1)) fl)) = n_flagged fl.
Proof.
  unfold n_flagged. induction fl as [|z fl IH]; [reflexivity|].
  cbn [map]. rewrite kept_cons, length_app, length_map, IH.
  cbn [count_occ]. destruct (Z.eq_dec z (-1)) as [->|Hne].
  - reflexivity.
  - apply Z.eqb_neq in Hne. rewrite Hne. reflexivity.
Qed.

Lemma kept_flags_In (fl : list Z) (i : nat) :
  In i (kept (map (fun z => Z.eqb z (-1)) fl)) <-> nth_error fl i = Some (-1)%Z.
Proof.
  rewrite kept_In, nth_error_map.
  destruct (nth_error fl i) as [z|]; cbn [option_map]; [|split; discriminate].
  split; intros H.
  - injection H as H. apply Z.eqb_eq in H. congruence.
  - injection H as ->. reflexivity.
Qed.

Lemma lookup_take_rows (idx : list nat) (df : DataFrame) (c : string) :
  lookup_col c (take_rows idx df) = option_map (take idx) (lookup_col c df).
Proof. apply lookup_col_mapped. Qed.

Lemma select_take_rows (idx : list nat) (df sel : DataFrame) (cs : list string) :
  select df cs = Ok sel -> select (take_rows idx df) cs = Ok (take_rows idx sel).
Proof.
  revert sel. induction cs as [|c cs IH]; intros sel H.
  - injection H as <-. reflexivity.
  - apply select_cons in H. destruct H as (s & sel' & Hs & Hsel & ->).
    unfold select in *. cbn [mapM]. unfold get_col at 1.
    rewrite lookup_take_rows. apply get_col_ok in Hs. rewrite Hs. cbn [option_map bind].
    rewrite (IH sel' Hsel). reflexivity.
Qed.

Lemma head_take_rows (n : nat) (idx : list nat) (df : DataFrame) :
  head n (take_rows idx df) = take_rows (firstn n idx) df.
Proof.
  unfold head, take_rows. rewrite map_map. apply map_ext. intros [c s].
  cbn [fst snd]. unfold take. rewrite firstn_map. reflexivity.
Qed.

Lemma select_columns (df sel : DataFrame) (cs : list string) :
  select df cs = Ok sel -> columns sel = cs.
Proof.
  revert sel. induction cs as [|c cs IH]; intros sel H.
  - injection H as <-. reflexivity.
  - apply select_cons in H. destruct H as (s & sel' & _ & Hsel & ->).
    cbn [columns map fst]. f_equal. apply IH. exact Hsel.
Qed.

Lemma take_nth_error (idx : list nat) (s : Series) (j i : nat) :
  nth_error idx j = Some i -> (i < length s)%nat ->
  nth_error (take idx s) j = nth_error s i.
Proof.
  intros Hj Hi. unfold take. rewrite nth_error_map, Hj. cbn [option_map].
  symmetry. apply nth_error_nth'. exact Hi.
Qed.

Lemma select_has_cols_inv (df sel : DataFrame) (cs : list string) (c : string) :
  select df cs = Ok sel -> In c cs -> has_col df c = true.
Proof.
  revert sel. induction cs as [|c0 cs IH]; intros sel H Hin; [contradiction|].
  apply select_cons in H. destruct H as (s & sel' & Hs & Hsel & _).
  destruct Hin as [<-|Hin].
  - apply get_col_ok in Hs. unfold has_col. rewrite Hs. reflexivity.
  - eapply IH; eassumption.
Qed.

(** X11. The table printed by the scoring script lists flagged centers
    only, each at most once and at most ten of them, lowest saved score
    first: every listed score is negative, and no flagged center left out
    has a lower score than a listed one.  Its cells are those of the saved
    frame, rounded to two decimals.  The order among equal scores is the
    one the sorting routine gives. *)
Theorem report_lists_the_lowest_flagged_centers
    (rt : Runtime) (rs : RandomState) (so : SortOrder) (global : rng)
    (df_results : DataFrame) (o : anomaly_detection.outcome) :
  anomaly_detection.run global df_results = Ok o ->
  aligned df_results = true ->
  let out := anomaly_detection.saved o in
  let fl := anomaly_detection.flags o in
  let sc := anomaly_detection.scores o in
  exists r idx,
    anomaly_detection.report out = Ok r /\
    columns r = anomaly_detection.report_columns /\
    nrows r = length idx /\
    length idx = Nat.min 10 (n_flagged fl) /\
    NoDup idx /\
    (forall i, In i idx -> nth_error fl i = Some (-1)%Z) /\
    (forall j i c, nth_error idx j = Some i -> In c anomaly_detection.report_columns ->
       exists v, at_ out i c = Some v /\ at_ r j c = Some (round_cell 2 v)) /\
    (forall i, In i idx -> nth i sc 0 < 0) /\
    StronglySorted (fun i i' => nth i sc 0 <= nth i' sc 0) idx /\
    (forall i i', In i idx -> nth_error fl i' = Some (-1)%Z -> ~ In i' idx ->
       nth i sc 0 <= nth i' sc 0).
Proof.
  intros Hrun Hal out fl sc.
  destruct (run_saved_inv global df_results o Hrun Hal)
    as (Hflag & Hscore & _ & Halo & Hn & Lfl & Lsc & sel & Hsel).
  fold out fl sc in Hflag, Hscore, Halo, Hn, Lfl, Lsc, Hsel.
  destruct (flagged_rows_sorted out _ sc Halo Hflag Hscore) as (idx0 & Hsort & Hperm & Hsorted).
  rewrite flag_mask in Hsort, Hperm.
  set (K := kept (map (fun z => Z.eqb z (-1)) fl)) in *.
  destruct (first_rows_lowest _ idx0 K 10 Hperm (kept_NoDup _) Hsorted)
    as (Hlen & Hnd & Hin & Hs10 & Hlow).
  set (idx := firstn 10 idx0) in *.
  exists (round_frame 2 (take_rows idx sel)), idx.
  assert (Hbound : forall i, In i idx -> (i < nrows out)%nat).
  { intros i Hi. apply Hin in Hi. unfold K in Hi. apply kept_bound in Hi.
    rewrite length_map in Hi. fold fl in Lfl. lia. }
  split; [|split; [|split; [|split; [|split; [|split; [|split; [|split; [|split]]]]]]]].
  - unfold anomaly_detection.report, anomaly_detection.anomalies, get_col.
    rewrite Hflag. cbn [bind]. rewrite flag_mask, Hsort. cbn [bind].
    rewrite (select_take_rows idx0 out sel _ Hsel). cbn [bind].
    rewrite head_take_rows. reflexivity.
  - unfold round_frame. unfold columns. rewrite map_map. cbn [fst].
    fold (columns (take_rows idx sel)). rewrite take_rows_columns.
    apply (select_columns out sel _ Hsel).
  - pose proof (select_columns out sel _ Hsel) as Hc.
    destruct sel as [|[c s] sel]; [discriminate|].
    cbn [round_frame take_rows map nrows fst snd]. rewrite length_map. apply take_length.
  - rewrite Hlen. unfold K. rewrite kept_flags_length. reflexivity.
  - exact Hnd.
  - intros i Hi. apply kept_flags_In. apply Hin. exact Hi.
  - intros j i c Hj Hc.
    assert (Hi : (i < nrows out)%nat) by (apply Hbound; eapply nth_error_In; exact Hj).
    pose proof (select_lookup out sel _ c Hsel Hc) as Hl.
    destruct (lookup_col c out) as [s|] eqn:Hs.
    + pose proof (aligned_length out c s Halo Hs) as Ls.
      exists (nth i s missing). unfold at_. rewrite Hs.
      split; [apply nth_error_nth'; lia|].
      unfold round_frame. rewrite lookup_col_mapped, lookup_take_rows, Hl.
      cbn [option_map]. rewrite nth_error_map.
      rewrite (take_nth_error idx s j i Hj) by lia.
      rewrite (nth_error_nth' s missing) by lia. reflexivity.
    + exfalso. apply select_has_cols_inv with (c := c) in Hsel; [|exact Hc].
      unfold has_col in Hsel. rewrite Hs in Hsel. discriminate.
  - intros i Hi.
    assert (Hf : nth_error fl i = Some (-1)%Z) by (apply kept_flags_In, Hin; exact Hi).
    assert (Hlt : (i < length sc)%nat) by (rewrite Lsc, <- Hn; apply Hbound; exact Hi).
    destruct (run_inv global df_results o Hrun) as (X & _ & _ & Efl & Esc & _).
    fold fl in Efl. fold sc in Esc.
    pose proof (nth_error_nth' sc 0 Hlt) as Hd. rewrite Esc in Hd at 1.
    apply flag_of_decision in Hd. rewrite <- Efl, Hf in Hd. injection Hd as Hd.
    destruct (Qlt_bool (nth i sc 0) 0) eqn:E; [|discriminate].
    apply Qlt_bool_iff. exact E.
  - exact Hs10.
  - intros i i' Hi Hf Hout. apply Hlow; [exact Hi | | exact Hout].
    apply kept_flags_In. exact Hf.
Qed.

Lemma report_lists_the_lowest_flagged_centers_witness :
  match anomaly_detection.run (rt := Reference.runtime true) (rs := Reference.lcg)
          0%Z Examples.four_centers with
  | Ok o =>
      exists r,
        anomaly_detection.report (so := stable_order) (anomaly_detection.saved o) = Ok r /\
        columns r = anomaly_detection.report_columns /\
        (nrows r <= 10)%nat
  | Raise _ => False
  end.
Proof.
  destruct (anomaly_detection.run (rt := Reference.runtime true)
              (rs := Reference.lcg) 0%Z Examples.four_centers) as [o|e] eqn:E.
  - destruct (report_lists_the_lowest_flagged_centers (Reference.runtime true)
                Reference.lcg stable_order 0%Z Examples.four_centers o E eq_refl)
      as (r & idx & H1 & H2 & H3 & H4 & _).
    exists r. split; [exact H1|]. split; [exact H2|]. lia.
  - vm_compute in E. discriminate E.
Defined.

(** X12. The scoring script runs to its end only on a master table that
    has the five listed features and [state], and also [city] and
    [center_name], which only the printed table reads. *)
Theorem scoring_script_needs_its_columns
    (rt : Runtime) (rs : RandomState) (global : rng)
    (df_results : DataFrame) (o : anomaly_detection.outcome) :
  anomaly_detection.run global df_results = Ok o ->
  forallb (has_col df_results)
    (anomaly_detection.features ++ ["state"; "city"; "center_name"]%string) = true.
Proof.
  intros Hrun. unfold anomaly_detection.run in Hrun.
  apply bind_ok in Hrun. destruct Hrun as (X & HX & Hrun).
  apply bind_ok in Hrun. destruct Hrun as (m & Hfit & Hrun).
  apply bind_ok in Hrun. destruct Hrun as (df1 & S1 & Hrun).
  apply bind_ok in Hrun. destruct Hrun as (df2 & S2 & Hrun).
  apply bind_ok in Hrun. destruct Hrun as (df3 & S3 & Hrun).
  apply bind_ok in Hrun. destruct Hrun as (sel & Hsel & _).
  unfold anomaly_detection.scaled_matrix, anomaly_detection.encode,
    anomaly_detection.scoring_input in HX.
  apply bind_ok in HX. destruct HX as (df_ml & HX & _).
  apply bind_ok in HX. destruct HX as (sel0 & Hsel0 & _).
  assert (Hin : forall c, In c (anomaly_detection.features ++ ["state"%string]) ->
                          has_col df_results c = true)
    by (intros c Hc; eapply select_has_cols_inv; eassumption).
  assert (Hrep : forall c, In c ["city"; "center_name"]%string ->
                           has_col df_results c = true).
  { intros c Hc.
    assert (H3 : has_col df3 c = true).
    { eapply select_has_cols_inv; [exact Hsel|].
      simpl in Hc. simpl. intuition. }
    assert (N1 : c <> "Anomaly_Flag"%string /\ c <> "Anomaly_Score"%string
                 /\ c <> "Anomaly_Type"%string)
      by (simpl in Hc; destruct Hc as [<-|[<-|[]]]; repeat split; discriminate).
    destruct N1 as (N1 & N2 & N3).
    rewrite (has_col_set_other df2 df3 _ c _ N3 S3) in H3.
    rewrite (has_col_set_other df1 df2 _ c _ N2 S2) in H3.
    rewrite (has_col_set_other df_results df1 _ c _ N1 S1) in H3.
    exact H3. }
  apply forallb_forall. intros c Hc. apply in_app_or in Hc.
  destruct Hc as [Hc|Hc].
  - apply Hin. apply in_or_app. left. exact Hc.
  - destruct Hc as [<-|Hc].
    + apply Hin. apply in_or_app. right. left. reflexivity.
    + apply Hrep. exact Hc.
Qed.

Lemma scoring_script_needs_its_columns_witness :
  match anomaly_detection.run (rt := Reference.runtime true) (rs := Reference.lcg)
          0%Z Examples.four_centers with
  | Ok _ => has_col Examples.four_centers "city" = true
  | Raise _ => False
  end.
Proof.
  destruct (anomaly_detection.run (rt := Reference.runtime true)
              (rs := Reference.lcg) 0%Z Examples.four_centers) as [o|e] eqn:E.
  - pose proof (scoring_script_needs_its_columns (Reference.runtime true)
                  Reference.lcg 0%Z Examples.four_centers o E) as H.
    rewrite forallb_forall in H. apply H. simpl. tauto.
  - vm_compute in E. discriminate E.
Defined.

(** ** The size of a center is no feature *)

Section IgnoredColumn.
Context {rt : Runtime} {rs : RandomState}.

Lemma scaled_matrix_ignores_total_students (dfa dfb : DataFrame) :
  agree_off "total_students" dfa dfb ->
  has_col dfa "total_students" = true ->
  has_col dfb "total_students" = true ->
  anomaly_detection.scaled_matrix dfa = anomaly_detection.scaled_matrix dfb.
Proof.
  intros H Ha Hb.
  unfold anomaly_detection.scaled_matrix, anomaly_detection.encode,
    anomaly_detection.scoring_input, select.
  cbn [anomaly_detection.features app mapM]. unfold get_col, has_col in *.
  rewrite (H "Center_v_National_Gap"%string), (H "Center_Skewness"%string),
    (H "Center_Kurtosis"%string), (H "Ultra_High_Score_Ratio"%string),
    (H "state"%string) by discriminate.
  destruct (lookup_col "total_students" dfa) as [ta|]; [|discriminate].
  destruct (lookup_col "total_students" dfb) as [tb|]; [|discriminate].
  destruct (lookup_col "Center_v_National_Gap" dfb) as [s1|]; [|reflexivity].
  destruct (lookup_col "Center_Skewness" dfb) as [s2|]; [|reflexivity].
  destruct (lookup_col "Center_Kurtosis" dfb) as [s3|]; [|reflexivity].
  destruct (lookup_col "Ultra_High_Score_Ratio" dfb) as [s4|]; [|reflexivity].
  destruct (lookup_col "state" dfb) as [st|]; [|reflexivity].
  reflexivity.
Qed.

Lemma set_col_agree (c0 : string) (dfa dfb : DataFrame) (c : string) (s : Series) :
  c <> c0 -> dfa <> [] -> dfb <> [] -> nrows dfa = nrows dfb ->
  agree_off c0 dfa dfb ->
  match set_col dfa c s, set_col dfb c s with
  | Ok a, Ok b => agree_off c0 a b /\ a <> [] /\ b <> [] /\ nrows a = nrows b
  | Raise e1, Raise e2 => e1 = e2
  | _, _ => False
  end.
Proof.
  intros Hc Ha Hb Hn Hag.
  destruct (set_col dfa c s) as [a|e1] eqn:Ea, (set_col dfb c s) as [b|e2] eqn:Eb.
  - split; [|split; [|split]].
    + intros c1 Hc1. destruct (String.eqb_spec c1 c) as [->|Hne].
      * rewrite (set_col_lookup_same _ _ _ _ Ea), (set_col_lookup_same _ _ _ _ Eb).
        reflexivity.
      * rewrite (set_col_lookup_other _ _ _ _ _ Hne Ea),
          (set_col_lookup_other _ _ _ _ _ Hne Eb). apply Hag. exact Hc1.
    + eapply set_col_keeps_nonempty; exact Ea.
    + eapply set_col_keeps_nonempty; exact Eb.
    + rewrite (set_col_nrows _ _ _ _ Ha Ea), (set_col_nrows _ _ _ _ Hb Eb). exact Hn.
  - unfold set_col in Ea, Eb. destruct dfa; [congruence|]. destruct dfb; [congruence|].
    rewrite Hn in Ea. destruct (Nat.eqb (length s) _); discriminate.
  - unfold set_col in Ea, Eb. destruct dfa; [congruence|]. destruct dfb; [congruence|].
    rewrite Hn in Ea. destruct (Nat.eqb (length s) _); discriminate.
  - unfold set_col in Ea, Eb. destruct dfa; [congruence|]. destruct dfb; [congruence|].
    destruct (Nat.eqb (length s) _); [discriminate|].
    destruct (Nat.eqb (length s) _); [discriminate|]. congruence.
Qed.

Lemma select_agree (c0 : string) (dfa dfb : DataFrame) (cs : list string) :
  agree_off c0 dfa dfb -> ~ In c0 cs -> select dfa cs = select dfb cs.
Proof.
  intros Hag Hnot. unfold select. induction cs as [|c cs IH]; [reflexivity|].
  cbn [mapM]. unfold get_col at 1 3.
  rewrite (Hag c) by (intros ->; apply Hnot; left; reflexivity).
  rewrite IH by (intros Hin; apply Hnot; right; exact Hin). reflexivity.
Qed.

End IgnoredColumn.

(** X13. [total_students] is in the list of features and yet is no
    feature: it is dropped before scaling.  Two master tables that differ
    in that column only get the same forest, the same flags and the same
    scores, or fail with the same exception. *)
Theorem scoring_ignores_total_students
    (rt : Runtime) (rs : RandomState) (global : rng) (df1 df2 : DataFrame) :
  (forall c, c <> "total_students"%string -> lookup_col c df1 = lookup_col c df2) ->
  has_col df1 "total_students" = true ->
  has_col df2 "total_students" = true ->
  aligned df1 = true -> aligned df2 = true ->
  match anomaly_detection.run global df1, anomaly_detection.run global df2 with
  | Ok o1, Ok o2 =>
      anomaly_detection.model o1 = anomaly_detection.model o2 /\
      anomaly_detection.flags o1 = anomaly_detection.flags o2 /\
      anomaly_detection.scores o1 = anomaly_detection.scores o2
  | Raise e1, Raise e2 => e1 = e2
  | _, _ => False
  end.
Proof.
  intros Hag H1 H2 A1 A2.
  unfold anomaly_detection.run.
  rewrite <- (scaled_matrix_ignores_total_students df1 df2 Hag H1 H2).
  destruct (anomaly_detection.scaled_matrix df1) as [X|e] eqn:HX; cbn [bind];
    [|reflexivity].
  destruct (fit _ _ _ global X) as [m|e]; cbn [bind]; [|reflexivity].
  assert (Hne1 : df1 <> []) by (intros ->; discriminate).
  assert (Hne2 : df2 <> []) by (intros ->; discriminate).
  assert (Hn : nrows df1 = nrows df2).
  { destruct (scaled_matrix_inv df1 X HX) as (s1 & _ & _ & _ & _ & _ & _ & _ & _ & L1 & _).
    pose proof L1 as L2. rewrite Hag in L2 by discriminate.
    rewrite <- (aligned_length df1 _ s1 A1 L1), <- (aligned_length df2 _ s1 A2 L2).
    reflexivity. }
  pose proof (set_col_agree "total_students" df1 df2 "Anomaly_Flag"
                (map (fun z => Num (float_of_Z z)) (predict m X))
                ltac:(discriminate) Hne1 Hne2 Hn Hag) as S1.
  destruct (set_col df1 "Anomaly_Flag" _) as [a1|e1],
           (set_col df2 "Anomaly_Flag" _) as [b1|e1']; cbn [bind];
    try contradiction; [|exact S1].
  destruct S1 as (Hag1 & Na1 & Nb1 & Hn1).
  pose proof (set_col_agree "total_students" a1 b1 "Anomaly_Score"
                (map (fun q => Num (Finite q)) (decision_function m X))
                ltac:(discriminate) Na1 Nb1 Hn1 Hag1) as S2.
  destruct (set_col a1 "Anomaly_Score" _) as [a2|e2],
           (set_col b1 "Anomaly_Score" _) as [b2|e2']; cbn [bind];
    try contradiction; [|exact S2].
  destruct S2 as (Hag2 & Na2 & Nb2 & Hn2).
  pose proof (set_col_agree "total_students" a2 b2 "Anomaly_Type"
                (map (fun z => Str (anomaly_detection.anomaly_type z)) (predict m X))
                ltac:(discriminate) Na2 Nb2 Hn2 Hag2) as S3.
  destruct (set_col a2 "Anomaly_Type" _) as [a3|e3],
           (set_col b2 "Anomaly_Type" _) as [b3|e3']; cbn [bind];
    try contradiction; [|exact S3].
  destruct S3 as (Hag3 & _).
  rewrite (select_agree "total_students" a3 b3 anomaly_detection.report_columns Hag3)
    by (simpl; intuition discriminate).
  destruct (select b3 anomaly_detection.report_columns); cbn [bind]; auto.
Qed.

Lemma scoring_ignores_total_students_witness :
  match anomaly_detection.run (rt := Reference.runtime true) (rs := Reference.lcg)
          0%Z Examples.four_centers,
        anomaly_detection.run (rt := Reference.runtime true) (rs := Reference.lcg)
          0%Z Examples.four_centers_resized with
  | Ok o1, Ok o2 =>
      anomaly_detection.flags o1 = anomaly_detection.flags o2 /\
      anomaly_detection.scores o1 = anomaly_detection.scores o2
  | _, _ => False
  end.
Proof.
  pose proof (scoring_ignores_total_students (Reference.runtime true) Reference.lcg 0%Z
                Examples.four_centers Examples.four_centers_resized) as H.
  destruct (anomaly_detection.run (rt := Reference.runtime true)
              (rs := Reference.lcg) 0%Z Examples.four_centers) as [o1|e1] eqn:E1.
  - destruct (anomaly_detection.run (rt := Reference.runtime true)
                (rs := Reference.lcg) 0%Z Examples.four_centers_resized) as [o2|e2];
      apply H; try reflexivity;
      intros c Hc; cbn [lookup_col Examples.four_centers Examples.four_centers_resized];
      repeat (match goal with
              | |- context [String.eqb c ?n] =>
                  destruct (String.eqb_spec c n) as [->|]; [congruence || reflexivity|]
              end); reflexivity.
  - vm_compute in E1. discriminate E1.
Defined.

(** X14. A master table without rows, as read from a file that has a
    header only, makes the scoring script raise in the scaling step: the
    scaler refuses an input with no sample. *)
Theorem empty_master_stops_the_scoring
    (rt : Runtime) (rs : RandomState) (global : rng) (df_results : DataFrame) :
  aligned df_results = true ->
  nrows df_results = 0%nat ->
  forallb (has_col df_results) (anomaly_detection.features ++ ["state"%string]) = true ->
  anomaly_detection.run global df_results = Raise empty_error.
Proof.
  intros Hal Hn Hcols.
  assert (Hcol : forall c, In c (anomaly_detection.features ++ ["state"%string]) ->
                           lookup_col c df_results = Some []).
  { intros c Hc. rewrite forallb_forall in Hcols. specialize (Hcols c Hc).
    unfold has_col in Hcols. destruct (lookup_col c df_results) as [s|] eqn:E;
      [|discriminate].
    pose proof (aligned_length _ _ _ Hal E) as L. rewrite Hn in L.
    destruct s; [reflexivity | discriminate]. }
  unfold anomaly_detection.run, anomaly_detection.scaled_matrix,
    anomaly_detection.encode, anomaly_detection.scoring_input, select.
  cbn [anomaly_detection.features app mapM]. unfold get_col.
  rewrite !Hcol by (simpl; tauto).
  reflexivity.
Qed.

Lemma empty_master_stops_the_scoring_witness :
  anomaly_detection.run (rt := Reference.runtime true) (rs := Reference.lcg)
    0%Z Examples.empty_master = Raise empty_error.
Proof.
  apply empty_master_stops_the_scoring; reflexivity.
Defined.

(** ** From the master frame to the scoring stage *)

Lemma has_col_mem (df : DataFrame) (c : string) :
  has_col df c = mem_string c (columns df).
Proof.
  apply eq_true_iff_eq. rewrite has_col_In, mem_string_In. reflexivity.
Qed.

(** A successful run of the first script has read [total_students] and
    [center_name] in the center-stats sheet. *)
Lemma master_script_columns {rt : Runtime}
    (df_marks df_center_stats df_master : DataFrame) :
  master_data.run df_marks df_center_stats = Ok df_master ->
  has_col df_center_stats "total_students" = true /\
  has_col df_center_stats "center_name" = true.
Proof.
  intros Hrun.
  destruct (master_run_steps _ _ _ Hrun)
    as (dm & keys & cells & vals & left & shown & _ & _ & _ & _ & Hmet & Hmerge & Hsel & _).
  apply select_cons in Hsel. destruct Hsel as (s & rest & Hs & _ & _).
  apply get_col_ok in Hs.
  destruct (master_center_name _ _ _ _ _ _ _ Hmerge Hs) as (lk & s0 & _ & Hin & _).
  apply In_has_col in Hin.
  destruct (add_metrics_inv _ _ Hmet)
    as (a700 & tot & a600 & ca & na & sa & sm & v1 & v2 & v3 & v4
        & _ & L2 & _ & _ & _ & _ & _ & _ & _ & _ & _ & _ & _ & _ & _ & Hkeep).
  unfold has_col in *. rewrite (Hkeep "center_name"%string eq_refl) in Hin.
  rewrite L2. split; [reflexivity | exact Hin].
Qed.

(** X15. What the first script writes is what the scoring script reads:
    when the center-stats sheet has [state] and [city], the master frame
    has every column the scoring script asks for, all of one length, and
    none of the three columns the scoring script adds. *)
Theorem master_frame_feeds_the_scoring
    (rt : Runtime) (df_marks df_center_stats df_master : DataFrame) :
  master_data.run df_marks df_center_stats = Ok df_master ->
  aligned df_center_stats = true ->
  forallb (fun c => negb (has_col df_center_stats c))
          (master_data.metric_columns ++ master_data.moment_columns
           ++ anomaly_detection.result_columns) = true ->
  has_col df_center_stats "state" = true ->
  has_col df_center_stats "city" = true ->
  aligned df_master = true /\
  nrows df_master = nrows df_center_stats /\
  forallb (has_col df_master)
    (anomaly_detection.features ++ ["state"; "city"; "center_name"]%string) = true /\
  forallb (fun c => negb (has_col df_master c)) anomaly_detection.result_columns = true.
Proof.
  intros Hrun Hal Hfresh Hstate Hcity.
  rewrite app_assoc, forallb_app, andb_true_iff in Hfresh.
  destruct Hfresh as [Hfresh Hres].
  destruct (master_frame_aligned df_marks df_center_stats df_master Hrun Hal Hfresh)
    as [Halm Hn].
  destruct (master_script_columns df_marks df_center_stats df_master Hrun)
    as (Htot & Hname).
  destruct (master_run_inv df_marks df_center_stats df_master Hrun Hal Hfresh)
    as (ids & keys & cells & vals & metrics & _ & _ & _ & _ & _ & Hcols & ->).
  assert (Hhas : forall c, has_col
            ((df_center_stats ++ metrics)
             ++ [("Center_Std_Dev"%string,
                  take_right (join_plan ids (group_keys keys))
                    (map (fun k => Num (round_float 3 (nanstd (group_of k keys vals))))
                         (group_keys keys)));
                 ("Center_Skewness"%string,
                  take_right (join_plan ids (group_keys keys))
                    (map (fun k => Num (round_float 3 (nanskew (group_of k keys vals))))
                         (group_keys keys)));
                 ("Center_Kurtosis"%string,
                  take_right (join_plan ids (group_keys keys))
                    (map (fun k => Num (round_float 3 (nankurt (group_of k keys vals))))
                         (group_keys keys)))]) c
          = has_col df_center_stats c
            || mem_string c master_data.metric_columns
            || mem_string c master_data.moment_columns).
  { intros c. rewrite !has_col_app, (has_col_mem metrics), Hcols.
    rewrite (has_col_mem [_; _; _]). reflexivity. }
  split; [exact Halm|]. split; [exact Hn|]. split.
  - cbn [anomaly_detection.features app forallb]. rewrite !Hhas.
    rewrite Hstate, Hcity, Htot, Hname.
    repeat match goal with
           | |- context [has_col df_center_stats ?c] =>
               destruct (has_col df_center_stats c)
           end; reflexivity.
  - cbn [anomaly_detection.result_columns forallb] in *. rewrite !Hhas.
    rewrite !andb_true_iff, !negb_true_iff in Hres. destruct Hres as (R1 & R2 & R3 & _).
    rewrite R1, R2, R3. reflexivity.
Qed.

Lemma master_frame_feeds_the_scoring_witness :
  match master_data.run (rt := Reference.runtime true)
          Examples.student_marks Examples.center_stats with
  | Ok df_master =>
      aligned df_master = true /\
      forallb (has_col df_master)
        (anomaly_detection.features ++ ["state"; "city"; "center_name"]%string) = true
  | Raise _ => False
  end.
Proof.
  destruct (master_data.run (rt := Reference.runtime true)
              Examples.student_marks Examples.center_stats) as [m|e] eqn:E.
  - destruct (master_frame_feeds_the_scoring (Reference.runtime true) _ _ m E
                eq_refl eq_refl eq_refl eq_refl) as (H1 & _ & H3 & _).
    split; [exact H1 | exact H3].
  - vm_compute in E. discriminate E.
Defined.

(* ================================================================== *)
(** ** app.py: what the pages show *)

(** ** app.py: the flagged centers on two pages *)

Lemma filter_rows_nrows (mask : list bool) (df : DataFrame) :
  aligned df = true -> length mask = nrows df ->
  nrows (filter_rows mask df) = length (kept mask).
Proof.
  intros Hal Hm. destruct df as [|[c s] df]; [|].
  - simpl in Hm. destruct mask; [reflexivity | discriminate].
  - cbn [filter_rows map nrows fst snd]. apply keep_where_length.
    simpl in Hm. lia.
Qed.

Lemma take_rows_nrows (idx : list nat) (df : DataFrame) :
  df <> [] -> nrows (take_rows idx df) = length idx.
Proof.
  destruct df as [|[c s] df]; [congruence|]. intros _.
  cbn [take_rows map nrows fst snd]. apply take_length.
Qed.

Lemma filter_rows_lookup (mask : list bool) (df : DataFrame) (c : string) :
  lookup_col c (filter_rows mask df) = option_map (keep_where mask) (lookup_col c df).
Proof. apply lookup_col_mapped. Qed.

(** X16. The number of flagged centers on the overview page and the
    number of rows of the anomaly page are the same number, whatever the
    file holds: sorting the flagged rows neither drops nor repeats one.
    For a file whose [Anomaly_Flag] column is the one the scoring script
    saved, it is the number of flags [-1]. *)
Theorem both_pages_count_the_same_anomalies
    (so : SortOrder) (df_master a : DataFrame) (n : nat) :
  aligned df_master = true ->
  app.anomaly_count df_master = Ok n ->
  app.df_anomalies df_master = Ok a ->
  nrows a = n /\
  forall fl, lookup_col "Anomaly_Flag" df_master
             = Some (map (fun z => Num (float_of_Z z)) fl) ->
             n = n_flagged fl.
Proof.
  intros Hal Hn Ha.
  unfold app.anomaly_count, app.df_anomalies, app.flagged_rows in *.
  apply bind_ok in Hn. destruct Hn as (f & Hf & Hn). injection Hn as <-.
  apply bind_ok in Ha. destruct Ha as (f' & Hf' & Ha).
  rewrite Hf in Hf'. injection Hf' as <-.
  apply bind_ok in Hf. destruct Hf as (flag & Hflag & Hf). injection Hf as <-.
  apply get_col_ok in Hflag.
  set (mask := series_eq flag (Num (float_of_Z (-1)))) in *.
  assert (Lmask : length mask = nrows df_master).
  { unfold mask, series_eq. rewrite length_map. apply (aligned_length _ _ _ Hal Hflag). }
  pose proof (filter_rows_nrows mask df_master Hal Lmask) as Hrows.
  split.
  - unfold sort_values in Ha. apply bind_ok in Ha. destruct Ha as (keys & Hk & Ha).
    apply get_col_ok in Hk. rewrite filter_rows_lookup in Hk.
    destruct (lookup_col "Anomaly_Score" df_master) as [scol|] eqn:Hs; [|discriminate].
    injection Hk as <-.
    destruct (no_mixed_keys _); [|discriminate]. injection Ha as <-.
    rewrite take_rows_nrows.
    + rewrite nargsort_length, Hrows.
      apply keep_where_length. rewrite Lmask. apply (aligned_length _ _ _ Hal Hs).
    + destruct df_master; [discriminate | discriminate].
  - intros fl Hfl. rewrite Hflag in Hfl. injection Hfl as ->.
    rewrite Hrows. unfold mask. rewrite flag_mask. apply kept_flags_length.
Qed.

Lemma both_pages_count_the_same_anomalies_witness :
  match app.anomaly_count Examples.scored_master,
        app.df_anomalies (so := stable_order) Examples.scored_master with
  | Ok n, Ok a => nrows a = n /\ n = 2%nat
  | _, _ => False
  end.
Proof.
  destruct (app.anomaly_count Examples.scored_master) as [n|e] eqn:En.
  - destruct (app.df_anomalies (so := stable_order) Examples.scored_master)
      as [a|e] eqn:Ea.
    + destruct (both_pages_count_the_same_anomalies stable_order
                  Examples.scored_master a n eq_refl En Ea) as [H1 H2].
      split; [exact H1|]. apply (H2 Examples.scored_flags). reflexivity.
    + vm_compute in Ea. discriminate Ea.
  - vm_compute in En. discriminate En.
Defined.

(** X17. The table of the anomaly page lists flagged centers only, each
    at most once and at most fifty of them, lowest score first, with the
    cells of the file: no flagged center left out has a lower score than
    a listed one. *)
Theorem anomaly_table_lists_the_lowest_scores
    (so : SortOrder) (df_master : DataFrame) (fl : list Z) (sc : list Q) :
  aligned df_master = true ->
  lookup_col "Anomaly_Flag" df_master = Some (map (fun z => Num (float_of_Z z)) fl) ->
  lookup_col "Anomaly_Score" df_master = Some (map (fun q => Num (Finite q)) sc) ->
  forallb (has_col df_master) app.table_cols = true ->
  exists t idx,
    app.anomaly_table df_master = Ok t /\
    columns t = app.table_cols /\
    nrows t = length idx /\
    length idx = Nat.min 50 (n_flagged fl) /\
    NoDup idx /\
    (forall i, In i idx -> nth_error fl i = Some (-1)%Z) /\
    (forall j i c, nth_error idx j = Some i -> In c app.table_cols ->
       exists v, at_ df_master i c = Some v /\ at_ t j c = Some v) /\
    StronglySorted (fun i i' => nth i sc 0 <= nth i' sc 0) idx /\
    (forall i i', In i idx -> nth_error fl i' = Some (-1)%Z -> ~ In i' idx ->
       nth i sc 0 <= nth i' sc 0).
Proof.
  intros Hal Hflag Hscore Hcols.
  destruct (select_has_cols _ _ Hcols) as (sel & Hsel).
  destruct (flagged_rows_sorted df_master _ sc Hal Hflag Hscore)
    as (idx0 & Hsort & Hperm & Hsorted).
  rewrite flag_mask in Hsort, Hperm.
  set (K := kept (map (fun z => Z.eqb z (-1)) fl)) in *.
  destruct (first_rows_lowest _ idx0 K 50 Hperm (kept_NoDup _) Hsorted)
    as (Hlen & Hnd & Hin & Hs50 & Hlow).
  set (idx := firstn 50 idx0) in *.
  assert (Lfl : length fl = nrows df_master).
  { rewrite <- (aligned_length _ _ _ Hal Hflag), length_map. reflexivity. }
  exists (take_rows idx sel), idx.
  assert (Hbound : forall i, In i idx -> (i < nrows df_master)%nat).
  { intros i Hi. apply Hin in Hi. unfold K in Hi. apply kept_bound in Hi.
    rewrite length_map in Hi. lia. }
  split; [|split; [|split; [|split; [|split; [|split; [|split; [|split]]]]]]].
  - unfold app.anomaly_table, app.df_anomalies, app.flagged_rows, get_col.
    rewrite Hflag. cbn [bind]. rewrite flag_mask, Hsort. cbn [bind].
    rewrite (select_take_rows idx0 df_master sel _ Hsel). cbn [bind].
    rewrite head_take_rows. reflexivity.
  - rewrite take_rows_columns. apply (select_columns df_master sel _ Hsel).
  - apply take_rows_nrows. pose proof (select_columns df_master sel _ Hsel) as Hc.
    intros ->. discriminate.
  - rewrite Hlen. unfold K. rewrite kept_flags_length. reflexivity.
  - exact Hnd.
  - intros i Hi. apply kept_flags_In. apply Hin. exact Hi.
  - intros j i c Hj Hc.
    assert (Hi : (i < nrows df_master)%nat)
      by (apply Hbound; eapply nth_error_In; exact Hj).
    pose proof (select_lookup df_master sel _ c Hsel Hc) as Hl.
    pose proof (select_has_cols_inv df_master sel _ c Hsel Hc) as Hh.
    unfold has_col in Hh.
    destruct (lookup_col c df_master) as [s|] eqn:Hs; [|discriminate].
    pose proof (aligned_length df_master c s Hal Hs) as Ls.
    exists (nth i s missing). unfold at_. rewrite Hs.
    split; [apply nth_error_nth'; lia|].
    rewrite lookup_take_rows, Hl. cbn [option_map].
    rewrite (take_nth_error idx s j i Hj) by lia.
    apply nth_error_nth'. lia.
  - exact Hs50.
  - intros i i' Hi Hf Hout. apply Hlow; [exact Hi | | exact Hout].
    apply kept_flags_In. exact Hf.
Qed.

Lemma anomaly_table_lists_the_lowest_scores_witness :
  exists t idx,
    app.anomaly_table (so := stable_order) Examples.scored_master = Ok t /\
    nrows t = length idx /\ length idx = 2%nat /\
    forall i, In i idx -> nth_error Examples.scored_flags i = Some (-1)%Z.
Proof.
  destruct (anomaly_table_lists_the_lowest_scores stable_order Examples.scored_master
              Examples.scored_flags Examples.scored_values
              eq_refl eq_refl eq_refl eq_refl)
    as (t & idx & H1 & _ & H3 & H4 & _ & H6 & _).
  exists t, idx. auto.
Defined.

(** X18. The bar chart of the overview page shows at most fifty centers,
    each once, largest performance gap first, with the centers whose gap
    is missing after all others; a center left out has no larger gap than
    a center shown, or has no gap. *)
Theorem bar_chart_shows_the_largest_gaps
    (so : SortOrder) (df_master : DataFrame) (gaps : Series) :
  aligned df_master = true ->
  lookup_col "Center_v_National_Gap" df_master = Some gaps ->
  forallb (fun k => negb (is_text k)) gaps = true ->
  exists idx,
    app.df_sorted df_master = Ok (take_rows idx df_master) /\
    length idx = Nat.min 50 (nrows df_master) /\
    NoDup idx /\
    (forall i, In i idx -> (i < nrows df_master)%nat) /\
    StronglySorted (in_order gaps false) idx /\
    (forall i i', In i idx -> (i' < nrows df_master)%nat -> ~ In i' idx ->
       in_order gaps false i i').
Proof.
  intros Hal Hg Hnum.
  pose proof (aligned_length _ _ _ Hal Hg) as Lg.
  pose proof (nargsort_perm gaps false) as Hperm.
  pose proof (nargsort_sorted gaps false (numbers_not_mixed gaps Hnum)) as Hsorted.
  destruct (first_rows_lowest _ _ _ 50 Hperm (seq_NoDup _ _) Hsorted)
    as (Hlen & Hnd & Hin & Hs50 & Hlow).
  exists (firstn 50 (nargsort gaps false)).
  split; [|split; [|split; [|split; [|split]]]].
  - unfold app.df_sorted.
    rewrite (sort_values_ok _ _ _ gaps Hg (numbers_not_mixed gaps Hnum)). cbn [bind].
    rewrite head_take_rows. reflexivity.
  - rewrite Hlen, length_seq, Lg. reflexivity.
  - exact Hnd.
  - intros i Hi. apply Hin, in_seq in Hi. lia.
  - exact Hs50.
  - intros i i' Hi Hi' Hout. apply Hlow; [exact Hi | | exact Hout].
    apply in_seq. lia.
Qed.

Lemma bar_chart_shows_the_largest_gaps_witness :
  exists idx,
    app.df_sorted (so := stable_order) Examples.scored_master
      = Ok (take_rows idx Examples.scored_master) /\
    length idx = 5%nat.
Proof.
  destruct (bar_chart_shows_the_largest_gaps stable_order Examples.scored_master
              [Examples.num 10; Examples.num 12; Examples.num (-3); missing;
               Examples.num 240]
              eq_refl eq_refl eq_refl)
    as (idx & H1 & H2 & _).
  exists idx. auto.
Defined.

(** ** app.py: the state selector *)

Lemma unique_subset {A} (eqb : A -> A -> bool) (l : list A) (x : A) :
  In x (unique eqb l) -> In x l.
Proof.
  revert x. induction l as [|y l IH]; intros x H; [contradiction|].
  cbn [unique] in H. destruct H as [<-|H]; [left; reflexivity|].
  apply filter_In in H. right. apply IH. apply H.
Qed.

(** A property that equal values share holds of some distinct value
    exactly when it holds of some value. *)
Lemma existsb_unique {A} (eqb : A -> A -> bool) (p : A -> bool) (l : list A) :
  (forall x y, eqb x y = true -> p x = p y) ->
  existsb p (unique eqb l) = existsb p l.
Proof.
  intros Hp. induction l as [|x l IH]; [reflexivity|].
  cbn [unique existsb]. destruct (p x) eqn:Px; [reflexivity|]. cbn [orb].
  rewrite <- IH. generalize (unique eqb l). intros u.
  induction u as [|y u IHu]; [reflexivity|].
  cbn [filter existsb]. destruct (eqb x y) eqn:E; cbn [negb].
  - rewrite <- (Hp x y E), Px. exact IHu.
  - cbn [existsb]. rewrite IHu. reflexivity.
Qed.

Lemma same_value_is_text (x y : cell) : same_value x y = true -> is_text x = is_text y.
Proof.
  unfold same_value. destruct x as [[q|b|]|s|b], y as [[q'|b'|]|s'|b']; simpl;
    try reflexivity; try discriminate.
Qed.

Lemma value_eqb_refl (v : cell) : isna v = false -> value_eqb v v = true.
Proof.
  destruct v as [[q|b|]|s|b]; simpl; intros H; try discriminate.
  - apply Qeq_bool_iff. reflexivity.
  - apply Bool.eqb_reflx.
  - apply String.eqb_refl.
  - apply Qeq_bool_iff. reflexivity.
Qed.

Section Selector.
Context {so : SortOrder}.

Lemma sorted_values_perm (l r : list cell) :
  sorted_values l = Ok r -> Permutation r l.
Proof.
  unfold sorted_values. destruct (mixed l); [discriminate|].
  destruct (existsb isna l); intros H; injection H as <-.
  - apply sorted_with_nan_perm.
  - apply sort_perm.
Qed.

Lemma sort_key_map_Str (l : list string) :
  sort key_leb (map Str l) = map Str (sort String.leb l).
Proof.
  induction l as [|x l IH]; simpl; [reflexivity|].
  rewrite IH. generalize (sort String.leb l). intros u.
  induction u as [|y u IHu]; simpl; [reflexivity|].
  destruct (String.leb x y); simpl; [reflexivity|]. f_equal. exact IHu.
Qed.

Lemma unique_same_map_Str (l : list string) :
  unique same_value (map Str l) = map Str (unique String.eqb l).
Proof.
  induction l as [|x l IH]; simpl; [reflexivity|].
  rewrite IH, filter_map_comm. reflexivity.
Qed.

Lemma all_text_strings (s : Series) :
  forallb is_text s = true -> s = map Str (strings_of s).
Proof.
  induction s as [|c s IH]; [reflexivity|].
  cbn [forallb]. rewrite andb_true_iff. intros [Hc Hs].
  destruct c as [x|v|b]; try discriminate.
  cbn [strings_of flat_map app map]. f_equal. apply IH. exact Hs.
Qed.

Lemma existsb_map_Str (p : cell -> bool) (l : list string) :
  (forall v, p (Str v) = false) -> existsb p (map Str l) = false.
Proof.
  intros H. induction l as [|x l IH]; [reflexivity|].
  cbn [map existsb]. rewrite H, IH. reflexivity.
Qed.

End Selector.

(** X19. The state selector offers ['All States'] and then every distinct
    value of the [state] column once.  Each offered value other than
    ['All States'] (and other than a missing state) selects at least one
    center, and exactly the centers of that state, so the first row that
    the page reads is there.  When all states are texts they are offered
    in strictly increasing order. *)
Theorem every_offered_state_has_centers
    (so : SortOrder) (df_master : DataFrame) (st : Series) (choices : list cell) :
  aligned df_master = true ->
  lookup_col "state" df_master = Some st ->
  app.state_list df_master = Ok choices ->
  exists states,
    choices = app.all_states :: states /\
    Permutation states (series_unique st) /\
    (forall v, In v states -> In v st) /\
    (forall v, In v states -> isna v = false -> value_eqb v app.all_states = false ->
       exists f fst_col,
         app.df_filtered df_master v = Ok (Some f) /\
         (0 < nrows f)%nat /\
         nrows f = length (filter (fun c => value_eqb c v) st) /\
         lookup_col "state" f = Some fst_col /\
         Forall (fun c => value_eqb c v = true) fst_col) /\
    (forallb is_text st = true ->
       exists names,
         states = map Str names /\ StronglySorted string_lt names /\
         forall s, In s names <-> In (Str s) st).
Proof.
  intros Hal Hst Hlist.
  unfold app.state_list, get_col in Hlist. rewrite Hst in Hlist. cbn [bind] in Hlist.
  apply bind_ok in Hlist. destruct Hlist as (states & Hsorted & Hlist).
  injection Hlist as <-.
  pose proof (sorted_values_perm _ _ Hsorted) as Hperm.
  exists states. split; [reflexivity|]. split; [exact Hperm|].
  assert (Hsub : forall v, In v states -> In v st).
  { intros v Hv. apply (Permutation_in _ Hperm) in Hv.
    apply unique_subset in Hv. exact Hv. }
  split; [exact Hsub|]. split.
  - intros v Hv Hna Hall.
    set (mask := series_eq st v).
    assert (Lmask : length mask = nrows df_master).
    { unfold mask, series_eq. rewrite length_map. apply (aligned_length _ _ _ Hal Hst). }
    assert (Hcount : length (kept mask) = length (filter (fun c => value_eqb c v) st)).
    { unfold mask, series_eq. clear. induction st as [|c s IH]; [reflexivity|].
      cbn [map filter]. rewrite kept_cons, length_app, length_map, IH.
      destruct (value_eqb c v); reflexivity. }
    exists (filter_rows mask df_master), (keep_where mask st).
    split; [|split; [|split; [|split]]].
    + unfold app.df_filtered. rewrite Hall. unfold get_col. rewrite Hst. reflexivity.
    + rewrite (filter_rows_nrows mask df_master Hal Lmask), Hcount.
      apply Hsub in Hv.
      assert (Hin : In v (filter (fun c => value_eqb c v) st))
        by (apply filter_In; split; [exact Hv | apply value_eqb_refl; exact Hna]).
      destruct (filter (fun c => value_eqb c v) st); [contradiction | simpl; lia].
    + rewrite (filter_rows_nrows mask df_master Hal Lmask). exact Hcount.
    + rewrite filter_rows_lookup, Hst. reflexivity.
    + rewrite keep_where_take
        by (unfold mask, series_eq; rewrite length_map; reflexivity).
      apply Forall_forall. intros c Hc. unfold take in Hc. apply in_map_iff in Hc.
      destruct Hc as (i & <- & Hi). apply kept_In in Hi.
      unfold mask, series_eq in Hi. rewrite nth_error_map in Hi.
      destruct (nth_error st i) as [c|] eqn:E; [|discriminate].
      cbn [option_map] in Hi. injection Hi as Hi.
      rewrite (nth_error_nth _ _ missing E). exact Hi.
  - intros Htext. exists (sort String.leb (unique String.eqb (strings_of st))).
    pose proof (all_text_strings st Htext) as Est.
    assert (Eu : series_unique st
                 = map Str (unique String.eqb (strings_of st))).
    { unfold series_unique. rewrite Est at 1. apply unique_same_map_Str. }
    split; [|split].
    + rewrite Eu in Hsorted. unfold sorted_values, mixed in Hsorted.
      rewrite (existsb_map_Str (fun k => negb (is_text k))) in Hsorted by reflexivity.
      rewrite andb_false_r in Hsorted.
      rewrite (existsb_map_Str isna) in Hsorted by reflexivity.
      injection Hsorted as <-. apply sort_key_map_Str.
    + apply sort_strings_strict, unique_NoDup.
    + intros s. rewrite sort_In, unique_In. apply strings_of_In.
Qed.

Lemma every_offered_state_has_centers_witness :
  match app.state_list (so := stable_order) Examples.scored_master with
  | Ok choices =>
      exists names,
        choices = app.all_states :: map Str names /\ StronglySorted string_lt names
  | Raise _ => False
  end.
Proof.
  destruct (app.state_list (so := stable_order) Examples.scored_master)
    as [choices|e] eqn:E.
  - destruct (every_offered_state_has_centers stable_order Examples.scored_master
                [Str "KA"; Str "DL"; Str "KA"; Str "MH"; Str "DL"]%string choices
                eq_refl eq_refl E)
      as (states & H1 & _ & _ & _ & H5).
    destruct (H5 eq_refl) as (names & H6 & H7 & _).
    exists names. subst. auto.
  - vm_compute in E. discriminate E.
Defined.

(** X20. A master file in which one center has a text for its state and
    another has none, or a number, makes the selector fail: Python's
    [sorted] does not compare a text with a number, and a missing value is
    a number. *)
Theorem missing_state_breaks_the_selector
    (so : SortOrder) (df_master : DataFrame) (st : Series) (s : string) (c : cell) :
  lookup_col "state" df_master = Some st ->
  In (Str s) st -> In c st -> is_text c = false ->
  app.state_list df_master = Raise text_and_number.
Proof.
  intros Hst Hs Hc Hn.
  unfold app.state_list, get_col. rewrite Hst. cbn [bind].
  unfold sorted_values, mixed, series_unique.
  rewrite (existsb_unique same_value is_text) by apply same_value_is_text.
  rewrite (existsb_unique same_value (fun k => negb (is_text k)))
    by (intros x y E; rewrite (same_value_is_text x y E); reflexivity).
  replace (existsb is_text st) with true
    by (symmetry; apply existsb_exists; exists (Str s); auto).
  replace (existsb (fun k => negb (is_text k)) st) with true
    by (symmetry; apply existsb_exists; exists c; rewrite Hn; auto).
  reflexivity.
Qed.

Lemma missing_state_breaks_the_selector_witness :
  app.state_list (so := stable_order) Examples.master_without_a_state
  = Raise text_and_number.
Proof.
  apply (missing_state_breaks_the_selector stable_order Examples.master_without_a_state
           [Str "KA"; missing; Str "DL"]%string "KA"%string missing eq_refl).
  - left. reflexivity.
  - right. left. reflexivity.
  - reflexivity.
Defined.
